(** * webclan: validation, workspace lifecycle and confined execution

    A shallow embedding of [server/app.py].  A Python [str] is modelled by
    the [string] of the bytes of its UTF-8 encoding: the tests the handlers
    make with [in], [startswith], [replace], [strip] and the two regular
    expressions look for ASCII characters only, and those are the same on
    the bytes as on the code points; [uuid.UUID], which counts code points
    and reads digits of any script, decodes first.  File contents are lists
    of byte values, decoded text is a list of code points.  The file system,
    the process table and the log of the calls made to the operating system
    are explicit state, threaded through the handlers by a small
    state-and-exception monad. *)

From Stdlib Require Import ZArith Lia Bool Ascii String List Sorted.
From stdpp Require Import base option list gmap strings.

Local Open Scope string_scope.
Local Open Scope list_scope.
Local Open Scope Z_scope.

(* ===================================================================== *)
(** * Constants *)
(* ===================================================================== *)

Definition MAX_FILE_SIZE : Z := 100 * 1024 * 1024.
Definition COMMAND_TIMEOUT : Z := 300.
Definition ALLOWED_EXTENSION : string := ".cha".

(* ===================================================================== *)
(** * Python [str] operations used by the handlers *)
(* ===================================================================== *)

Definition code (c : ascii) : nat := nat_of_ascii c.

Definition between (lo hi : nat) (c : ascii) : bool :=
  (lo <=? code c)%nat && (code c <=? hi)%nat.

Definition is_digit (c : ascii) : bool := between 48 57 c.
Definition is_upper (c : ascii) : bool := between 65 90 c.
Definition is_lower (c : ascii) : bool := between 97 122 c.
Definition is_alnum (c : ascii) : bool := is_digit c || is_upper c || is_lower c.

Definition LF : ascii := ascii_of_nat 10.
Definition CR : ascii := ascii_of_nat 13.

(** [c in s] for a one-character [c]. *)
Fixpoint char_in (c : ascii) (s : string) : bool :=
  match s with
  | EmptyString => false
  | String d s' => Ascii.eqb c d || char_in c s'
  end.

(** [s.startswith(p)]. *)
Fixpoint startswith (s p : string) : bool :=
  match p, s with
  | EmptyString, _ => true
  | String _ _, EmptyString => false
  | String a p', String b s' => Ascii.eqb a b && startswith s' p'
  end.

(** [sub in s]. *)
Fixpoint str_in (sub s : string) : bool :=
  startswith s sub ||
  match s with
  | EmptyString => false
  | String _ s' => str_in sub s'
  end.

Fixpoint str_rev_onto (s acc : string) : string :=
  match s with
  | EmptyString => acc
  | String c s' => str_rev_onto s' (String c acc)
  end.

Definition str_rev (s : string) : string := str_rev_onto s EmptyString.

(** [s.endswith(p)]. *)
Definition endswith (s p : string) : bool := startswith (str_rev s) (str_rev p).

Definition lower_char (c : ascii) : ascii :=
  if is_upper c then ascii_of_nat (code c + 32) else c.

(** [s.lower()]. *)
Fixpoint lower (s : string) : string :=
  match s with
  | EmptyString => EmptyString
  | String c s' => String (lower_char c) (lower s')
  end.

(** [s.replace(old, new)] for a non-empty [old]: occurrences are replaced
    left to right and do not overlap.  [skip] counts the characters of an
    occurrence that are still to be dropped. *)
Fixpoint replace_from (old new : string) (skip : nat) (s : string) : string :=
  match s with
  | EmptyString => EmptyString
  | String c s' =>
    match skip with
    | S k => replace_from old new k s'
    | O =>
      if startswith s old
      then new +:+ replace_from old new (String.length old - 1) s'
      else String c (replace_from old new O s')
    end
  end.

Definition replace (old new s : string) : string := replace_from old new O s.

Fixpoint lstrip (chars s : string) : string :=
  match s with
  | EmptyString => EmptyString
  | String c s' => if char_in c chars then lstrip chars s' else s
  end.

Fixpoint rstrip (chars s : string) : string :=
  match s with
  | EmptyString => EmptyString
  | String c s' =>
    match rstrip chars s' with
    | EmptyString => if char_in c chars then EmptyString else String c EmptyString
    | r => String c r
    end
  end.

(** [s.strip(chars)]. *)
Definition strip (chars s : string) : string := rstrip chars (lstrip chars s).

(** [re.match(r'^[cls]+$', s)]: one or more characters of the class and then
    the end of the string; Python's [$] also matches just before a newline
    that ends the string. *)
Fixpoint class_star_dollar (cls : ascii -> bool) (s : string) : bool :=
  match s with
  | EmptyString => true
  | String c s' =>
    if cls c then class_star_dollar cls s'
    else Ascii.eqb c LF && match s' with EmptyString => true | _ => false end
  end.

Definition re_match_class_plus (cls : ascii -> bool) (s : string) : bool :=
  match s with
  | EmptyString => false
  | String c s' => cls c && class_star_dollar cls s'
  end.

(** The class [[a-zA-Z0-9_-]]. *)
Definition binary_class (c : ascii) : bool :=
  is_alnum c || Ascii.eqb c "_" || Ascii.eqb c "-".

(** The class [[a-zA-Z0-9_.-]]. *)
Definition filename_class (c : ascii) : bool :=
  is_alnum c || Ascii.eqb c "_" || Ascii.eqb c "." || Ascii.eqb c "-".

(* ===================================================================== *)
(** * UTF-8 *)
(* ===================================================================== *)

(** A continuation byte, [0x80..0xBF]. *)
Definition cont (b : Z) : bool := (0x80 <=? b) && (b <=? 0xBF).

(** [bytes.decode('utf-8')] with strict error handling: the code points, or
    [None] for [UnicodeDecodeError].  Overlong forms, surrogates and values
    above [0x10FFFF] are rejected. *)
Fixpoint utf8_decode (bs : list Z) : option (list Z) :=
  match bs with
  | [] => Some []
  | b0 :: r1 =>
    if (0 <=? b0) && (b0 <? 0x80) then cons b0 <$> utf8_decode r1
    else if (0xC2 <=? b0) && (b0 <=? 0xDF) then
      match r1 with
      | b1 :: r2 =>
        if cont b1
        then cons ((b0 - 0xC0) * 64 + (b1 - 0x80)) <$> utf8_decode r2
        else None
      | _ => None
      end
    else if (0xE0 <=? b0) && (b0 <=? 0xEF) then
      match r1 with
      | b1 :: b2 :: r3 =>
        if cont b1 && cont b2
           && (negb (b0 =? 0xE0) || (0xA0 <=? b1))
           && (negb (b0 =? 0xED) || (b1 <=? 0x9F))
        then cons (((b0 - 0xE0) * 64 + (b1 - 0x80)) * 64 + (b2 - 0x80))
               <$> utf8_decode r3
        else None
      | _ => None
      end
    else if (0xF0 <=? b0) && (b0 <=? 0xF4) then
      match r1 with
      | b1 :: b2 :: b3 :: r4 =>
        if cont b1 && cont b2 && cont b3
           && (negb (b0 =? 0xF0) || (0x90 <=? b1))
           && (negb (b0 =? 0xF4) || (b1 <=? 0x8F))
        then cons ((((b0 - 0xF0) * 64 + (b1 - 0x80)) * 64 + (b2 - 0x80)) * 64
                   + (b3 - 0x80)) <$> utf8_decode r4
        else None
      | _ => None
      end
    else None
  end.

(** [str.encode('utf-8')] of one code point and of a text (on the scalar
    values, which is all a decoded text holds). *)
Definition utf8_encode_char (c : Z) : list Z :=
  if c <? 0x80 then [c]
  else if c <? 0x800 then [0xC0 + c / 64; 0x80 + c mod 64]
  else if c <? 0x10000
  then [0xE0 + c / 4096; 0x80 + (c / 64) mod 64; 0x80 + c mod 64]
  else [0xF0 + c / 262144; 0x80 + (c / 4096) mod 64;
        0x80 + (c / 64) mod 64; 0x80 + c mod 64].

Definition utf8_encode (text : list Z) : list Z :=
  concat (map utf8_encode_char text).

(** The bytes of a [string]. *)
Fixpoint bytes_of (s : string) : list Z :=
  match s with
  | EmptyString => []
  | String c s' => Z.of_nat (code c) :: bytes_of s'
  end.

(* ===================================================================== *)
(** * [uuid.UUID(s)] of the Python standard library *)
(* ===================================================================== *)

(** White space as the parser of [int()] sees it in ASCII text. *)
Definition is_space (c : ascii) : bool :=
  between 9 13 c || Ascii.eqb c " ".

Definition hex_value (c : ascii) : option Z :=
  if is_digit c then Some (Z.of_nat (code c) - 48)
  else if between 97 102 c then Some (Z.of_nat (code c) - 87)
  else if between 65 70 c then Some (Z.of_nat (code c) - 55)
  else None.

Definition is_hex (c : ascii) : bool :=
  match hex_value c with Some _ => true | None => false end.

Fixpoint all_space (s : string) : bool :=
  match s with
  | EmptyString => true
  | String c s' => is_space c && all_space s'
  end.

Fixpoint skip_space (s : string) : string :=
  match s with
  | EmptyString => EmptyString
  | String c s' => if is_space c then skip_space s' else s
  end.

(** The digit loop of [int(s, 16)]: hexadecimal digits with single
    underscores between them, then white space up to the end of the string.
    [prev_us]: the previous character was an underscore; [seen]: a digit has
    been read; [acc]: the value read so far. *)
Fixpoint int16_scan (prev_us seen : bool) (acc : Z) (s : string) : option Z :=
  match s with
  | EmptyString => if prev_us || negb seen then None else Some acc
  | String c s' =>
    match hex_value c with
    | Some d => int16_scan false true (16 * acc + d) s'
    | None =>
      if Ascii.eqb c "_"
      then if prev_us then None else int16_scan true seen acc s'
      else if prev_us || negb seen then None
      else if all_space s then Some acc else None
    end
  end.

(** After the sign: an optional [0x] or [0X], one optional underscore after
    that prefix, no other leading underscore, then the digits. *)
Definition int16_unsigned (s : string) : option Z :=
  let s1 :=
    match s with
    | String z (String x rest) =>
      if Ascii.eqb z "0" && (Ascii.eqb x "x" || Ascii.eqb x "X")
      then match rest with
           | String u rest' => if Ascii.eqb u "_" then rest' else rest
           | EmptyString => rest
           end
      else s
    | _ => s
    end in
  match s1 with
  | String u _ => if Ascii.eqb u "_" then None else int16_scan false false 0 s1
  | EmptyString => None
  end.

(** [int(s, 16)] on ASCII text; [None] stands for [ValueError]. *)
Definition int16 (s : string) : option Z :=
  match skip_space s with
  | String c s' =>
    if Ascii.eqb c "+" then int16_unsigned s'
    else if Ascii.eqb c "-" then Z.opp <$> int16_unsigned s'
    else int16_unsigned (String c s')
  | EmptyString => None
  end.

(** Before it parses, [int()] rewrites a [str] that is not all ASCII: a
    code point below 127 is kept, white space becomes a blank, a decimal
    digit of any script becomes the ASCII digit of the same value, and
    anything else makes the parse fail.  The two tables are those of the
    Unicode database of CPython 3.11 (Unicode 14): the white space above
    ASCII, and the zero of each run of ten decimal digits. *)
Definition unicode_space (c : Z) : bool :=
  (c =? 0x85) || (c =? 0xA0) || (c =? 0x1680)
  || ((0x2000 <=? c) && (c <=? 0x200A))
  || (c =? 0x2028) || (c =? 0x2029) || (c =? 0x202F) || (c =? 0x205F)
  || (c =? 0x3000).

Definition decimal_zeros : list Z :=
  [0x660; 0x6F0; 0x7C0; 0x966; 0x9E6; 0xA66; 0xAE6; 0xB66; 0xBE6; 0xC66;
   0xCE6; 0xD66; 0xDE6; 0xE50; 0xED0; 0xF20; 0x1040; 0x1090; 0x17E0; 0x1810;
   0x1946; 0x19D0; 0x1A80; 0x1A90; 0x1B50; 0x1BB0; 0x1C40; 0x1C50; 0xA620;
   0xA8D0; 0xA900; 0xA9D0; 0xA9F0; 0xAA50; 0xABF0; 0xFF10; 0x104A0; 0x10D30;
   0x11066; 0x110F0; 0x11136; 0x111D0; 0x112F0; 0x11450; 0x114D0; 0x11650;
   0x116C0; 0x11730; 0x118E0; 0x11950; 0x11C50; 0x11D50; 0x11DA0; 0x16A60;
   0x16AC0; 0x16B50; 0x1D7CE; 0x1D7D8; 0x1D7E2; 0x1D7EC; 0x1D7F6; 0x1E140;
   0x1E2F0; 0x1E950; 0x1FBF0].

Definition unicode_decimal (c : Z) : option Z :=
  match List.find (fun zero => (zero <=? c) && (c <? zero + 10)) decimal_zeros with
  | Some zero => Some (c - zero)
  | None => None
  end.

Definition int_ascii_char (c : Z) : option ascii :=
  if c <? 127 then Some (ascii_of_nat (Z.to_nat c))
  else if unicode_space c then Some " "%char
  else match unicode_decimal c with
       | Some d => Some (ascii_of_nat (Z.to_nat (48 + d)))
       | None => None
       end.

Fixpoint int_ascii (points : list Z) : option string :=
  match points with
  | [] => Some EmptyString
  | c :: rest =>
    match int_ascii_char c, int_ascii rest with
    | Some a, Some s => Some (String a s)
    | _, _ => None
    end
  end.

(** The constructor [uuid.UUID(hex)]: the 128-bit value, or [None] for
    [ValueError].  The length that must be 32 is the number of code points
    of what is left of the string; bytes that are not UTF-8 stand for no
    [str] that [int()] reads and are refused. *)
Definition UUID (s : string) : option Z :=
  let hex := replace "uuid:" "" (replace "urn:" "" s) in
  let hex := replace "-" "" (strip "{}" hex) in
  match utf8_decode (bytes_of hex) with
  | None => None
  | Some points =>
    if negb (length points =? 32)%nat then None
    else
      match int_ascii points with
      | None => None
      | Some digits =>
        match int16 digits with
        | Some n => if (0 <=? n) && (n <? 2 ^ 128) then Some n else None
        | None => None
        end
      end
  end.

(** The textual form the specification calls canonical: five groups of 8, 4,
    4, 4 and 12 hexadecimal digits separated by hyphens. *)
Fixpoint hex_group (n : nat) (s : string) : option string :=
  match n, s with
  | O, _ => Some s
  | S n', String c s' => if is_hex c then hex_group n' s' else None
  | S _, EmptyString => None
  end.

Definition hyphen (s : string) : option string :=
  match s with
  | String c s' => if Ascii.eqb c "-" then Some s' else None
  | EmptyString => None
  end.

Fixpoint hex_groups (ns : list nat) (s : string) : option string :=
  match ns with
  | [] => Some s
  | n :: ns' =>
    match hex_group n s with
    | Some r =>
      match ns' with
      | [] => Some r
      | _ :: _ =>
        match hyphen r with
        | Some r' => hex_groups ns' r'
        | None => None
        end
      end
    | None => None
    end
  end.

Definition is_canonical_uuid (s : string) : bool :=
  match hex_groups [8; 4; 4; 4; 12]%nat s with
  | Some EmptyString => true
  | _ => false
  end.

(* ===================================================================== *)
(** * The validators *)
(* ===================================================================== *)

(** Python exceptions that the handlers raise or catch. *)
Inductive exn :=
| ValueError (msg : string)
| HTTPException (status_code : Z) (detail : string)
| RequestValidationError (errors : list string)
| FileExistsError
| OSError
| RuntimeError
| UnicodeDecodeError
| TimeoutExpired (partial_stdout partial_stderr : string).

Record CommandRequest := {
  unique_id : string;
  binary : string;
  args : list string
}.

Definition validate_unique_id (v : string) : string + exn :=
  match UUID v with
  | Some _ => inl v
  | None => inr (ValueError "unique_id must be a valid UUID")
  end.

Definition validate_binary (v : string) : string + exn :=
  if negb (re_match_class_plus binary_class v)
  then inr (ValueError "binary name contains invalid characters")
  else inl v.

Definition forbidden_chars : list ascii :=
  [";"; "&"; "|"; "`"; "$"; LF; CR]%char.

Fixpoint validate_args_loop (v : list string) : option exn :=
  match v with
  | [] => None
  | arg :: rest =>
    if existsb (fun char => char_in char arg) forbidden_chars
    then Some (ValueError ("argument contains forbidden characters: " +:+ arg))
    else if startswith arg "/" || str_in ".." arg
    then Some (ValueError ("argument contains forbidden path traversal: " +:+ arg))
    else validate_args_loop rest
  end.

Definition validate_args (v : list string) : list string + exn :=
  match validate_args_loop v with
  | Some e => inr e
  | None => inl v
  end.

Definition validate_filename (filename : string) : bool :=
  if negb (endswith (lower filename) ALLOWED_EXTENSION) then false
  else if char_in "/" filename || char_in "092" filename || str_in ".." filename then false
  else if negb (re_match_class_plus filename_class filename) then false
  else true.


(* ===================================================================== *)
(** * The UTF-8 codec and text-mode reading *)
(* ===================================================================== *)

Definition validate_file_content (content : list Z) : bool :=
  match utf8_decode content with
  | Some _ => true
  | None => false
  end.

(** What a file opened in text mode with the default [newline=None] hands
    back: every [\r\n] and every lone [\r] of the decoded text becomes
    [\n]. *)
Fixpoint universal_newlines (text : list Z) : list Z :=
  match text with
  | [] => []
  | c :: rest =>
    if c =? 13
    then 10 :: match rest with
               | d :: rest' =>
                 if d =? 10 then universal_newlines rest'
                 else universal_newlines rest
               | [] => []
               end
    else c :: universal_newlines rest
  end.

(* ===================================================================== *)
(** * Paths *)
(* ===================================================================== *)

(** An absolute [pathlib.Path]: its components below the root. *)
Abbreviation path := (list string).

Definition WORK_DIR : path := ["webclan"; "work"].
Definition BIN_DIR : path := ["webclan"; "unix"; "bin"].

(** [s.split(sep)] for a one-character separator. *)
Fixpoint split_on (sep : ascii) (s : string) : list string :=
  match s with
  | EmptyString => [EmptyString]
  | String c s' =>
    if Ascii.eqb c sep then EmptyString :: split_on sep s'
    else match split_on sep s' with
         | piece :: pieces => String c piece :: pieces
         | [] => [String c EmptyString]
         end
  end.

Definition is_part (piece : string) : bool :=
  negb (String.eqb piece "") && negb (String.eqb piece ".").

(** The components pathlib keeps of a string: empty pieces and [.] are
    dropped. *)
Definition parts (s : string) : list string :=
  List.filter is_part (split_on "/" s).

(** [p / s]: an absolute [s] replaces [p]. *)
Definition joinpath (p : path) (s : string) : path :=
  if startswith s "/" then parts s else p ++ parts s.

(** [str(p)]. *)
Definition str_path (p : path) : string :=
  match p with
  | [] => "/"
  | _ => List.fold_right (fun c acc => "/" +:+ c +:+ acc) "" p
  end.

(** [os.path.basename(s)]: what follows the last slash. *)
Definition basename (s : string) : string :=
  List.last (split_on "/" s) "".

(* ===================================================================== *)
(** * The file system, the processes and the world *)
(* ===================================================================== *)

Inductive node :=
| Dir
| File (content : list Z) (executable : bool)
| Symlink (target : path).

(** The entry stored at an absolute path; the root is a directory. *)
Definition node_at (m : gmap path node) (p : path) : option node :=
  match p with
  | [] => Some Dir
  | _ => m !! p
  end.

(** Path resolution.  [done] is resolved already, [todo] are the components
    still to walk; a symbolic link restarts the walk at its target and uses
    up one of [links]; components that do not exist are kept as they are.
    With [follow_last = false] a link in the last position is not followed
    (what [lstat] sees). *)
Fixpoint realpath_from (m : gmap path node) (follow_last : bool) (links : nat)
  : path -> list string -> option path :=
  fix walk (done : path) (todo : list string) {struct todo} : option path :=
    match todo with
    | [] => Some done
    | c :: rest =>
      match m !! (done ++ [c]) with
      | Some (Symlink target) =>
        match rest, follow_last with
        | [], false => Some (done ++ [c])
        | _, _ =>
          match links with
          | O => None
          | S links' => realpath_from m follow_last links' [] (target ++ rest)
          end
        end
      | _ => walk (done ++ [c]) rest
      end
    end.

Definition MAXSYMLINKS : nat := 40.

Definition realpath (m : gmap path node) (p : path) : option path :=
  realpath_from m true MAXSYMLINKS [] p.

Definition lrealpath (m : gmap path node) (p : path) : option path :=
  realpath_from m false MAXSYMLINKS [] p.

(** What [stat] finds at a path, links followed. *)
Definition follow (m : gmap path node) (p : path) : option node :=
  match realpath m p with
  | Some q =>
    match node_at m q with
    | Some (Symlink _) => None
    | found => found
    end
  | None => None
  end.

(** All the non-empty prefixes of a path, shortest first. *)
Fixpoint prefixes_from (done : path) (todo : list string) : list path :=
  match todo with
  | [] => []
  | c :: rest => (done ++ [c]) :: prefixes_from (done ++ [c]) rest
  end.

Definition ancestors_and_self (p : path) : list path := prefixes_from [] p.

Definition make_dir (a : path) (m : gmap path node) : gmap path node :=
  match node_at m a with
  | None => <[a := Dir]> m
  | Some _ => m
  end.

Definition under (dir p : path) : bool := bool_decide (dir `prefix_of` p).

(** The file system without the entry at [q] and everything below it. *)
Definition remove_tree (q : path) (m : gmap path node) : gmap path node :=
  filter (fun kv => negb (under q kv.1) = true) m.

(** What a command line is started with, as the child sees it. *)
Record launch := {
  l_argv : list string;
  l_cwd : string;
  l_shell : bool;
  l_env : list (string * string)
}.

(** What a started program does: the process id it gets, after how many
    seconds it exits ([None]: it never exits on its own), after how many
    seconds the pipes of its standard output and error are closed by every
    process that holds them (a helper that inherited them keeps them open;
    [None]: never), its exit code, the bytes it writes to the two pipes,
    what it had written when the time ran out, and the processes it started
    itself.  What a program does to the file system is not part of the
    model. *)
Record behaviour := {
  b_starts : bool;
  b_pid : nat;
  b_duration : option Z;
  b_pipes_closed : option Z;
  b_returncode : Z;
  b_stdout : list Z;
  b_stderr : list Z;
  b_partial_stdout : string;
  b_partial_stderr : string;
  b_descendants : list nat
}.

Inductive event :=
| FsCall (call : string) (p : path)
| Spawn (l : launch).

(** The state outside the server.  [os_refuses call p] says that the system
    refuses the call [call] on [p] for a reason that the tree does not show
    (no permission, no file descriptor left); it is asked when a file is
    opened for writing and when a tree is removed. *)
Record world := {
  fs : gmap path node;
  disk_free : Z;
  environ : list (string * string);
  programs : launch -> behaviour;
  procs : gset nat;
  log : list event;
  os_refuses : string -> path -> bool
}.

Definition set_fs (m : gmap path node) (w : world) : world :=
  {| fs := m; disk_free := disk_free w; environ := environ w;
     programs := programs w; procs := procs w; log := log w;
     os_refuses := os_refuses w |}.

Definition set_disk_free (n : Z) (w : world) : world :=
  {| fs := fs w; disk_free := n; environ := environ w;
     programs := programs w; procs := procs w; log := log w;
     os_refuses := os_refuses w |}.

Definition set_procs (ps : gset nat) (w : world) : world :=
  {| fs := fs w; disk_free := disk_free w; environ := environ w;
     programs := programs w; procs := ps; log := log w;
     os_refuses := os_refuses w |}.

Definition add_log (e : event) (w : world) : world :=
  {| fs := fs w; disk_free := disk_free w; environ := environ w;
     programs := programs w; procs := procs w; log := log w ++ [e];
     os_refuses := os_refuses w |}.

(* ===================================================================== *)
(** * The monad of the handlers: state and exceptions *)
(* ===================================================================== *)

Definition M (A : Type) : Type := world -> (A + exn) * world.

Definition ret {A} (a : A) : M A := fun w => (inl a, w).
Definition raise {A} (e : exn) : M A := fun w => (inr e, w).

Definition bind {A B} (m : M A) (k : A -> M B) : M B :=
  fun w =>
    match m w with
    | (inl a, w') => k a w'
    | (inr e, w') => (inr e, w')
    end.

(** [try: m except ...: h e]: what [m] did before it raised stays done. *)
Definition try_except {A} (m : M A) (h : exn -> M A) : M A :=
  fun w =>
    match m w with
    | (inl a, w') => (inl a, w')
    | (inr e, w') => h e w'
    end.

Notation "x <- m ;; k" := (bind m (fun x => k))
  (at level 100, m at next level, right associativity).
Notation "m ;;; k" := (bind m (fun _ => k))
  (at level 100, right associativity).

Definition get_world : M world := fun w => (inl w, w).
Definition modify (f : world -> world) : M unit := fun w => (inl tt, f w).
Definition fs_call (call : string) (p : path) : M unit := modify (add_log (FsCall call p)).

Fixpoint mapM {A B} (f : A -> M B) (l : list A) : M (list B) :=
  match l with
  | [] => ret []
  | a :: l' => b <- f a ;; bs <- mapM f l' ;; ret (b :: bs)
  end.

(* ===================================================================== *)
(** * The calls the handlers make to the operating system *)
(* ===================================================================== *)

(** [p.exists()], [p.is_dir()], [p.is_file()], [os.access(p, os.X_OK)]:
    all of them follow symbolic links; a dangling link or a loop reads as
    absent. *)
Definition path_exists (p : path) : M bool :=
  fs_call "stat" p ;;;
  w <- get_world ;;
  ret (match follow (fs w) p with Some _ => true | None => false end).

Definition path_is_dir (p : path) : M bool :=
  fs_call "stat" p ;;;
  w <- get_world ;;
  ret (match follow (fs w) p with Some Dir => true | _ => false end).

Definition path_is_file (p : path) : M bool :=
  fs_call "stat" p ;;;
  w <- get_world ;;
  ret (match follow (fs w) p with Some (File _ _) => true | _ => false end).

Definition os_access_X_OK (p : path) : M bool :=
  fs_call "access" p ;;;
  w <- get_world ;;
  ret (match follow (fs w) p with
       | Some (File _ x) => x
       | Some Dir => true
       | _ => false
       end).

(** [p.resolve()]; a chain of links that does not end raises. *)
Definition path_resolve (p : path) : M path :=
  fs_call "realpath" p ;;;
  w <- get_world ;;
  match realpath (fs w) p with
  | Some q => ret q
  | None => raise RuntimeError
  end.

(** [p.stat().st_size]. *)
Definition stat_st_size (p : path) : M Z :=
  fs_call "stat" p ;;;
  w <- get_world ;;
  match follow (fs w) p with
  | Some (File content _) => ret (Z.of_nat (length content))
  | Some _ => ret 4096
  | None => raise OSError
  end.

(** The name of [k] when [k] is an entry of the directory [dir]. *)
Fixpoint child_name (dir k : path) : option string :=
  match dir, k with
  | [], [name] => Some name
  | d :: dir', c :: k' => if String.eqb d c then child_name dir' k' else None
  | _, _ => None
  end.

(** [p.iterdir()]: the entries of the directory, each as [p / name].  The
    order is the one in which the map hands out its keys; it stands for the
    order of the system's listing, about which nothing is known. *)
Definition path_iterdir (p : path) : M (list path) :=
  fs_call "listdir" p ;;;
  w <- get_world ;;
  match follow (fs w) p, realpath (fs w) p with
  | Some Dir, Some q =>
    ret (omap (fun kv => (fun name => p ++ [name]) <$> child_name q kv.1)
              (map_to_list (fs w)))
  | _, _ => raise OSError
  end.

Definition may_hold_dir (m : gmap path node) (a : path) : bool :=
  match node_at m a with
  | Some Dir | None => true
  | Some _ => false
  end.

(** A link that leads nowhere: the entry itself is there, what it names is
    not. *)
Definition dangling (m : gmap path node) (a : path) : bool :=
  match lrealpath m a with
  | Some q =>
    match node_at m q, follow m a with
    | Some (Symlink _), None => true
    | _, _ => false
    end
  | None => false
  end.

(** [p.mkdir(parents=True, exist_ok=False)].  The directories that are
    missing on the way are made, through links that lead to directories.
    The call raises [FileExistsError] when something is at [p] already, and
    also when a parent of [p] is a link that leads nowhere: [mkdir] finds
    the parent missing, tries to make it, and finds the link in its
    place. *)
Definition path_mkdir (p : path) : M unit :=
  fs_call "mkdir" p ;;;
  w <- get_world ;;
  match lrealpath (fs w) p with
  | None => raise OSError
  | Some q =>
    match node_at (fs w) q with
    | Some _ => raise FileExistsError
    | None =>
      if forallb (may_hold_dir (fs w)) (ancestors_and_self q)
      then
        if existsb (dangling (fs w)) (ancestors_and_self (removelast p))
        then raise FileExistsError
        else modify (set_fs (foldr make_dir (fs w) (ancestors_and_self q)))
      else raise OSError
    end
  end.

(** [with open(p, 'wb') as f: f.write(content)].  When the system refuses
    to open the file nothing is written; otherwise the file is created or
    truncated, and when the disk cannot take the content the file keeps what
    fitted and the write raises. *)
Definition write_bytes (p : path) (content : list Z) : M unit :=
  fs_call "open_wb" p ;;;
  w <- get_world ;;
  if os_refuses w "open_wb" p then raise OSError
  else
  match realpath (fs w) p with
  | None => raise OSError
  | Some q =>
    match node_at (fs w) (removelast q), fs w !! q with
    | Some Dir, None | Some Dir, Some (File _ _) =>
      let x := match fs w !! q with Some (File _ x) => x | _ => false end in
      let size := Z.of_nat (length content) in
      if size <=? disk_free w
      then modify (fun w => set_disk_free (disk_free w - size)
                              (set_fs (<[q := File content x]> (fs w)) w))
      else
        modify (fun w => set_disk_free 0
                  (set_fs (<[q := File (take (Z.to_nat (disk_free w)) content) x]>
                             (fs w)) w)) ;;;
        raise OSError
    | _, _ => raise OSError
    end
  end.

(** [with open(p, 'r', encoding='utf-8') as f: f.read()]. *)
Definition read_text (p : path) : M (list Z) :=
  fs_call "open_r" p ;;;
  w <- get_world ;;
  match follow (fs w) p with
  | Some (File content _) =>
    match utf8_decode content with
    | Some text => ret (universal_newlines text)
    | None => raise UnicodeDecodeError
    end
  | _ => raise OSError
  end.

(** [shutil.rmtree(p)]: raises when the system refuses the removal (and
    then removes nothing), refuses a symbolic link, and otherwise removes
    the directory and everything below it (links below it are removed, not
    followed). *)
Definition shutil_rmtree (p : path) : M unit :=
  fs_call "rmtree" p ;;;
  w <- get_world ;;
  if os_refuses w "rmtree" p then raise OSError
  else
  match lrealpath (fs w) p with
  | Some q =>
    match fs w !! q with
    | Some Dir =>
      modify (set_fs (remove_tree q (fs w)))
    | _ => raise OSError
    end
  | None => raise OSError
  end.

(** [subprocess.run(argv, cwd=, capture_output=True, timeout=, shell=,
    text=True, env=)].  With [env=None] the child inherits the environment
    of the server.  [run] reads the two pipes to their end and waits for the
    child: it returns when the child has exited and the pipes are closed.
    With [text=True] what was read is decoded, in the encoding of the
    server's locale (here UTF-8) and strictly, and every [\r\n] and lone
    [\r] becomes [\n]; bytes that do not decode raise.  When the time runs
    out [run] kills the child it started, waits for it and raises
    [TimeoutExpired] with the output read so far; it signals no other
    process. *)
Definition subprocess_run (argv : list string) (cwd : string) (timeout : Z)
    (shell : bool) (env : option (list (string * string)))
  : M (Z * list Z * list Z) :=
  w <- get_world ;;
  let l := {| l_argv := argv; l_cwd := cwd; l_shell := shell;
              l_env := match env with Some e => e | None => environ w end |} in
  let b := programs w l in
  modify (add_log (Spawn l)) ;;;
  if negb (b_starts b) then raise OSError
  else
    modify (fun w => set_procs (procs w ∪ {[b_pid b]} ∪ list_to_set (b_descendants b)) w) ;;;
    if match b_duration b, b_pipes_closed b with
       | Some d, Some c => (d <=? timeout) && (c <=? timeout)
       | _, _ => false
       end
    then
      modify (fun w => set_procs (procs w ∖ {[b_pid b]}) w) ;;;
      match utf8_decode (b_stdout b), utf8_decode (b_stderr b) with
      | Some stdout, Some stderr =>
        ret (b_returncode b, universal_newlines stdout,
             universal_newlines stderr)
      | _, _ => raise UnicodeDecodeError
      end
    else
      modify (fun w => set_procs (procs w ∖ {[b_pid b]}) w) ;;;
      raise (TimeoutExpired (b_partial_stdout b) (b_partial_stderr b)).

(* ===================================================================== *)
(** * The handlers *)
(* ===================================================================== *)

(** The body of a [JSONResponse]. *)
#[local] Set Warnings "-register-all".
Inductive json :=
| JNull
| JNum (n : Z)
| JStr (s : string)
| JText (text : list Z)
| JList (items : list json)
| JObj (fields : list (string * json)).

(** POST /upload.  [fresh] is the identifier that [uuid.uuid4()] draws. *)
Definition upload_file (fresh : string) (filename : string) (body : list Z)
  : M json :=
  if String.eqb filename "" || negb (validate_filename filename)
  then raise (HTTPException 400
    "Invalid filename. Must be alphanumeric with .cha extension and no path separators")
  else
  let content := body in
  if Z.of_nat (length content) >? MAX_FILE_SIZE
  then raise (HTTPException 400 "File too large. Max size: 104857600 bytes")
  else
  if negb (validate_file_content content)
  then raise (HTTPException 400
    "File content validation failed. Must be valid UTF-8 text.")
  else
  let unique_id := fresh in
  let work_path := joinpath WORK_DIR unique_id in
  try_except (path_mkdir work_path)
    (fun e => match e with
              | FileExistsError =>
                raise (HTTPException 500 "Failed to create unique workspace")
              | _ => raise e
              end) ;;;
  let file_path := joinpath work_path filename in
  try_except (write_bytes file_path content)
    (fun _ =>
       try_except (shutil_rmtree work_path) (fun _ => ret tt) ;;;
       raise (HTTPException 500 "Failed to save file")) ;;;
  ret (JObj [("unique_id", JStr unique_id);
             ("filename", JStr filename);
             ("size", JNum (Z.of_nat (length content)));
             ("path", JStr (str_path file_path))]).

(** The validators of [CommandRequest], run by the framework before the
    handler: every field is checked and the messages are collected. *)
Definition error_of {A} (r : A + exn) : list string :=
  match r with
  | inr (ValueError msg) => [msg]
  | _ => []
  end.

Definition validate_request (request : CommandRequest) : M CommandRequest :=
  match error_of (validate_unique_id (unique_id request))
        ++ error_of (validate_binary (binary request))
        ++ error_of (validate_args (args request)) with
  | [] => ret request
  | errors => raise (RequestValidationError errors)
  end.

(** POST /execute, on a request that passed its validators. *)
Definition execute_command (request : CommandRequest) : M json :=
  let work_path := joinpath WORK_DIR (unique_id request) in
  there <- path_exists work_path ;;
  is_dir <- (if there then path_is_dir work_path else ret false) ;;
  if negb there || negb is_dir
  then raise (HTTPException 404 "Workspace not found")
  else
  let binary_name := basename (binary request) in
  let binary_path := joinpath BIN_DIR binary_name in
  found <- path_exists binary_path ;;
  if negb found
  then raise (HTTPException 400 ("Binary '" +:+ binary_name +:+ "' not found"))
  else
  runnable <- os_access_X_OK binary_path ;;
  if negb runnable
  then raise (HTTPException 400
                ("Binary '" +:+ binary_name +:+ "' is not executable"))
  else
  try_except
    (binary_path_resolved <- path_resolve binary_path ;;
     bin_dir_resolved <- path_resolve BIN_DIR ;;
     if negb (startswith (str_path binary_path_resolved)
                         (str_path bin_dir_resolved))
     then raise (HTTPException 403
                   "Access denied: binary outside allowed directory")
     else ret tt)
    (fun _ => raise (HTTPException 403 "Failed to resolve binary path")) ;;;
  try_except
    (result <- subprocess_run (str_path binary_path :: args request)
                 (str_path work_path) COMMAND_TIMEOUT false
                 (Some [("PATH", str_path BIN_DIR);
                        ("HOME", str_path work_path);
                        ("LANG", "C.UTF-8")]) ;;
     let '(returncode, stdout, stderr) := result in
     ret (JObj [("unique_id", JStr (unique_id request));
                ("binary", JStr binary_name);
                ("returncode", JNum returncode);
                ("stdout", JText stdout);
                ("stderr", JText stderr)]))
    (fun e => match e with
              | TimeoutExpired _ _ =>
                raise (HTTPException 408 "Command timed out after 300 seconds")
              | _ => raise (HTTPException 500 "Command execution failed")
              end).

(** The endpoint: validation of the request, then the handler. *)
Definition execute (request : CommandRequest) : M json :=
  request <- validate_request request ;;
  execute_command request.

(** GET /list/{unique_id}. *)
Definition list_files (unique_id : string) : M json :=
  match UUID unique_id with
  | None => raise (HTTPException 400 "Invalid unique_id format")
  | Some _ =>
    let work_path := joinpath WORK_DIR unique_id in
    there <- path_exists work_path ;;
    if negb there then raise (HTTPException 404 "Workspace not found")
    else
    try_except
      (items <- path_iterdir work_path ;;
       files <- mapM (fun item =>
                  is_file <- path_is_file item ;;
                  size <- (if is_file
                           then (n <- stat_st_size item ;; ret (JNum n))
                           else ret JNull) ;;
                  is_file' <- path_is_file item ;;
                  ret (JObj [("name", JStr (List.last item ""));
                             ("size", size);
                             ("type", JStr (if is_file' then "file"
                                            else "directory"))]))
                items ;;
       ret (JObj [("unique_id", JStr unique_id); ("files", JList files)]))
      (fun _ => raise (HTTPException 500 "Failed to list files"))
  end.

(** GET /download/{unique_id}/{filename}. *)
Definition download_file (unique_id filename : string) : M json :=
  match UUID unique_id with
  | None => raise (HTTPException 400 "Invalid unique_id format")
  | Some _ =>
    if char_in "/" filename || char_in "092" filename || str_in ".." filename
    then raise (HTTPException 400 "Invalid filename")
    else
    if negb (re_match_class_plus filename_class filename)
    then raise (HTTPException 400 "Filename contains invalid characters")
    else
    let work_path := joinpath WORK_DIR unique_id in
    there <- path_exists work_path ;;
    if negb there then raise (HTTPException 404 "Workspace not found")
    else
    let file_path := joinpath work_path filename in
    found <- path_exists file_path ;;
    if negb found then raise (HTTPException 404 "File not found")
    else
    is_file <- path_is_file file_path ;;
    if negb is_file then raise (HTTPException 400 "Not a file")
    else
    try_except
      (file_resolved <- path_resolve file_path ;;
       work_resolved <- path_resolve work_path ;;
       if negb (startswith (str_path file_resolved) (str_path work_resolved))
       then raise (HTTPException 403 "Access denied")
       else ret tt)
      (fun _ => raise (HTTPException 403 "Failed to resolve file path")) ;;;
    try_except
      (content <- read_text file_path ;;
       ret (JObj [("unique_id", JStr unique_id);
                  ("filename", JStr filename);
                  ("size", JNum (Z.of_nat (length (utf8_encode content))));
                  ("content", JText content)]))
      (fun e => match e with
                | UnicodeDecodeError =>
                  raise (HTTPException 400 "File is not valid UTF-8 text")
                | _ => raise (HTTPException 500 "Failed to read file")
                end)
  end.

(** DELETE /cleanup/{unique_id}. *)
Definition cleanup_workspace (unique_id : string) : M json :=
  match UUID unique_id with
  | None => raise (HTTPException 400 "Invalid unique_id format")
  | Some _ =>
    let work_path := joinpath WORK_DIR unique_id in
    there <- path_exists work_path ;;
    if negb there then raise (HTTPException 404 "Workspace not found")
    else
    try_except
      (work_resolved <- path_resolve work_path ;;
       root_resolved <- path_resolve WORK_DIR ;;
       (if negb (startswith (str_path work_resolved) (str_path root_resolved))
        then raise (HTTPException 403 "Access denied")
        else ret tt) ;;;
       shutil_rmtree work_path ;;;
       ret (JObj [("message", JStr "Workspace deleted");
                  ("unique_id", JStr unique_id)]))
      (fun _ => raise (HTTPException 500 "Failed to delete workspace"))
  end.

(** The status line the framework sends for what a handler returned or
    raised. *)
Definition status_of {A} (r : A + exn) : Z :=
  match r with
  | inl _ => 200
  | inr (HTTPException status_code _) => status_code
  | inr (RequestValidationError _) => 422
  | inr _ => 500
  end.

(* ===================================================================== *)
(** * Predicates and sample states used in the statements *)
(* ===================================================================== *)

(** Every character of [s] satisfies [P]. *)
Fixpoint all_chars (P : ascii -> bool) (s : string) : bool :=
  match s with
  | EmptyString => true
  | String c s' => P c && all_chars P s'
  end.

Definition hex_or_hyphen (c : ascii) : bool := is_hex c || Ascii.eqb c "-".

(** Every entry of the file system sits in a directory. *)
Definition well_formed (m : gmap path node) : Prop :=
  forall k, is_Some (m !! k) -> k <> [] /\ node_at m (removelast k) = Some Dir.

(** A program that prints one line and exits at once. *)
Definition quick : behaviour :=
  {| b_starts := true; b_pid := 7%nat; b_duration := Some 1;
     b_pipes_closed := Some 1;
     b_returncode := 0; b_stdout := bytes_of "chip.cha"; b_stderr := [];
     b_partial_stdout := ""; b_partial_stderr := ""; b_descendants := [] |}.

(** A program that starts a helper process and then sleeps for ever. *)
Definition sleeper : behaviour :=
  {| b_starts := true; b_pid := 7%nat; b_duration := None;
     b_pipes_closed := None;
     b_returncode := 0; b_stdout := []; b_stderr := [];
     b_partial_stdout := "partial"; b_partial_stderr := "";
     b_descendants := [8%nat] |}.

Definition world_of (m : gmap path node) (prog : behaviour) : world :=
  {| fs := m; disk_free := 1000; environ := [("SECRET", "hunter2")];
     programs := fun _ => prog; procs := ∅; log := [];
     os_refuses := fun _ _ => false |}.

Definition an_id : string := "123e4567-e89b-12d3-a456-426614174000".
Definition an_id_without_hyphens : string := "123e4567e89b12d3a456426614174000".

Definition tree (entries : list (path * node)) : gmap path node :=
  list_to_map entries.

(** The two fixed directories, one workspace, one whitelisted program. *)
Definition base_entries : list (path * node) :=
  [(["webclan"], Dir);
   (["webclan"; "work"], Dir);
   (["webclan"; "unix"], Dir);
   (["webclan"; "unix"; "bin"], Dir);
   (["webclan"; "work"; an_id], Dir);
   (["webclan"; "work"; an_id; "chip.cha"], File [97; 32; 98; 32; 99] false)].

(** The processes started according to a log. *)
Definition spawns (evs : list event) : list launch :=
  omap (fun e => match e with Spawn l => Some l | FsCall _ _ => None end) evs.

(** The one command line that [execute_command] can start for a request. *)
Definition launch_of (request : CommandRequest) : launch :=
  {| l_argv := str_path (joinpath BIN_DIR (basename (binary request)))
               :: args request;
     l_cwd := str_path (joinpath WORK_DIR (unique_id request));
     l_shell := false;
     l_env := [("PATH", str_path BIN_DIR);
               ("HOME", str_path (joinpath WORK_DIR (unique_id request)));
               ("LANG", "C.UTF-8")] |}.

(** The checks of [execute_command] that stand before the launch, read off
    the file system: the workspace is a directory, the program is there and
    executable, and the text of its resolved path starts with the text of
    the resolved binaries directory. *)
Definition admits (m : gmap path node) (request : CommandRequest) : bool :=
  let work_path := joinpath WORK_DIR (unique_id request) in
  let binary_path := joinpath BIN_DIR (basename (binary request)) in
  match follow m work_path with Some Dir => true | _ => false end
  && match follow m binary_path with
     | Some (File _ x) => x
     | Some Dir => true
     | _ => false
     end
  && match realpath m binary_path, realpath m BIN_DIR with
     | Some resolved, Some bin_dir =>
       startswith (str_path resolved) (str_path bin_dir)
     | _, _ => false
     end.

Definition set_environ (host : list (string * string)) (w : world) : world :=
  {| fs := fs w; disk_free := disk_free w; environ := host;
     programs := programs w; procs := procs w; log := log w;
     os_refuses := os_refuses w |}.

(** A whitelist directory with a link planted in it: [freq] points into the
    sibling directory [/webclan/unix/bin2]. *)
Definition planted_entries : list (path * node) :=
  base_entries ++
  [(["webclan"; "unix"; "bin"; "freq"],
    Symlink ["webclan"; "unix"; "bin2"; "freq"]);
   (["webclan"; "unix"; "bin2"], Dir);
   (["webclan"; "unix"; "bin2"; "freq"], File [35; 33] true)].

Definition whitelisted_entries : list (path * node) :=
  base_entries ++ [(["webclan"; "unix"; "bin"; "freq"], File [35; 33] true)].

Definition sample_request : CommandRequest :=
  {| unique_id := an_id; binary := "freq"; args := ["chip.cha"] |}.

Definition sleeper_world : world := world_of (tree whitelisted_entries) sleeper.
Definition planted_world : world := world_of (tree planted_entries) quick.

(** A workspace in which a link points at a file outside it. *)
Definition peek_entries : list (path * node) :=
  base_entries ++
  [(["etc"], Dir);
   (["etc"; "passwd"],
    File [114; 111; 111; 116; 58; 120; 58; 48; 58; 48; 10] false);
   (["webclan"; "work"; an_id; "peek"], Symlink ["etc"; "passwd"])].

Definition peek_world : world := world_of (tree peek_entries) quick.

(** A workspace with a link into a sibling directory whose name extends the
    workspace's own. *)
Definition sibling_entries : list (path * node) :=
  base_entries ++
  [(["webclan"; "work"; an_id +:+ "-old"], Dir);
   (["webclan"; "work"; an_id +:+ "-old"; "notes.cha"], File [104; 105] false);
   (["webclan"; "work"; an_id; "peek"],
    Symlink ["webclan"; "work"; an_id +:+ "-old"; "notes.cha"])].

Definition sibling_world : world := world_of (tree sibling_entries) quick.

Definition base_world : world := world_of (tree base_entries) quick.
Definition empty_world : world := world_of ∅ quick.

(** An empty file system on a disk with no room left. *)
Definition full_disk_world : world := set_disk_free 0 empty_world.

Definition set_os_refuses (refuses : string -> path -> bool) (w : world)
  : world :=
  {| fs := fs w; disk_free := disk_free w; environ := environ w;
     programs := programs w; procs := procs w; log := log w;
     os_refuses := refuses |}.

(** An empty file system on a system that has no file descriptor left: no
    file can be opened for writing and no tree can be walked to remove it;
    making a directory needs no descriptor. *)
Definition no_descriptors (call : string) (p : path) : bool :=
  String.eqb call "open_wb" || String.eqb call "rmtree".

Definition starved_world : world := set_os_refuses no_descriptors empty_world.

(** The workspace root is a link that leads nowhere. *)
Definition dangling_entries : list (path * node) :=
  [(["webclan"], Dir);
   (["webclan"; "work"], Symlink ["nowhere"])].

Definition dangling_world : world := world_of (tree dangling_entries) quick.

(* ===================================================================== *)
(** * The remaining handler and the start of the server *)
(* ===================================================================== *)

(** The loop of [list_binaries]: the names of the entries that are regular
    files and executable, in the order of the directory listing. *)
Fixpoint executable_names (items : list path) : M (list string) :=
  match items with
  | [] => ret []
  | item :: rest =>
    is_file <- path_is_file item ;;
    runnable <- (if is_file then os_access_X_OK item else ret false) ;;
    names <- executable_names rest ;;
    ret (if is_file && runnable then List.last item "" :: names else names)
  end.

(** [sorted(names)] for strings: ascending by code points. *)
Fixpoint insert_sorted (x : string) (l : list string) : list string :=
  match l with
  | [] => [x]
  | y :: l' => if String.leb x y then x :: l else y :: insert_sorted x l'
  end.

Definition sorted (l : list string) : list string := foldr insert_sorted [] l.

(** GET /binaries. *)
Definition list_binaries : M json :=
  try_except
    (there <- path_exists BIN_DIR ;;
     if negb there then ret (JObj [("binaries", JList [])])
     else
       items <- path_iterdir BIN_DIR ;;
       binaries <- executable_names items ;;
       ret (JObj [("binaries", JList (map JStr (sorted binaries)))]))
    (fun _ => raise (HTTPException 500 "Failed to list binaries")).

(** [p.mkdir(parents=True, exist_ok=True)]: an error is dropped when the path
    is a directory after all. *)
Definition path_mkdir_exist_ok (p : path) : M unit :=
  try_except (path_mkdir p)
    (fun e =>
       is_dir <- path_is_dir p ;;
       if is_dir then ret tt else raise e).

(** What the module does when it is loaded:
    [WORK_DIR.mkdir(parents=True, exist_ok=True)]. *)
Definition startup : M unit := path_mkdir_exist_ok WORK_DIR.

(** The characters that [int(s, 16)] can accept in ASCII text, and the
    bytes that an identifier accepted by [uuid.UUID] can hold: those
    characters, the characters of the prefixes and the braces, and the
    bytes of code points above ASCII. *)
Definition int_char (c : ascii) : bool :=
  is_hex c || is_space c || char_in c "+-_xX".

Definition uuid_char (c : ascii) : bool :=
  int_char c || char_in c "{}urnid:" || (128 <=? code c)%nat.

(** An identifier written with full-width digits: U+FF11 for the first
    digit of [an_id]. *)
Definition a_wide_id : string :=
  String (ascii_of_nat 239) (String (ascii_of_nat 188) (String (ascii_of_nat 145)
    "23e4567-e89b-12d3-a456-426614174000")).

(** The three tests [validate_args] makes on one argument. *)
Definition argument_ok (arg : string) : bool :=
  negb (existsb (fun char => char_in char arg) forbidden_chars)
  && negb (startswith arg "/" || str_in ".." arg).

(** A Unicode scalar value: a code point that is not a surrogate. *)
Definition scalar (c : Z) : bool :=
  ((0 <=? c) && (c <? 0xD800)) || ((0xE000 <=? c) && (c <=? 0x10FFFF)).

(** The whitelist directory with an executable, a data file, a directory
    and a second executable. *)
Definition bin_entries : list (path * node) :=
  [(["webclan"], Dir);
   (["webclan"; "unix"], Dir);
   (["webclan"; "unix"; "bin"], Dir);
   (["webclan"; "unix"; "bin"; "kwal"], File [35; 33] true);
   (["webclan"; "unix"; "bin"; "freq"], File [35; 33] true);
   (["webclan"; "unix"; "bin"; "README"], File [104; 105] false);
   (["webclan"; "unix"; "bin"; "lib"], Dir)].

Definition bin_world : world := world_of (tree bin_entries) quick.

(** A program that exits at once with a non-zero code. *)
Definition failing : behaviour :=
  {| b_starts := true; b_pid := 9%nat; b_duration := Some 0;
     b_pipes_closed := Some 0;
     b_returncode := 2; b_stdout := [];
     b_stderr := bytes_of "no such file" ++ [13; 10];
     b_partial_stdout := ""; b_partial_stderr := ""; b_descendants := [] |}.

(** A program that exits at once and leaves a helper that holds its output
    pipes open, and one that prints a byte that is not UTF-8. *)
Definition detaching : behaviour :=
  {| b_starts := true; b_pid := 9%nat; b_duration := Some 0;
     b_pipes_closed := None;
     b_returncode := 0; b_stdout := []; b_stderr := [];
     b_partial_stdout := ""; b_partial_stderr := "";
     b_descendants := [10%nat] |}.

Definition garbling : behaviour :=
  {| b_starts := true; b_pid := 9%nat; b_duration := Some 0;
     b_pipes_closed := Some 0;
     b_returncode := 0; b_stdout := [255]; b_stderr := [];
     b_partial_stdout := ""; b_partial_stderr := ""; b_descendants := [] |}.

Definition failing_world : world := world_of (tree whitelisted_entries) failing.

(** A program file that the system cannot start. *)
Definition broken : behaviour :=
  {| b_starts := false; b_pid := 9%nat; b_duration := None;
     b_pipes_closed := None;
     b_returncode := 0; b_stdout := []; b_stderr := [];
     b_partial_stdout := ""; b_partial_stderr := ""; b_descendants := [] |}.

Definition broken_world : world := world_of (tree whitelisted_entries) broken.
Definition detaching_world : world :=
  world_of (tree whitelisted_entries) detaching.
Definition garbling_world : world :=
  world_of (tree whitelisted_entries) garbling.

(** The second world differs from the first in the log of file-system
    calls at most: same file system, same processes, same free space, no
    process started in between. *)
Definition unchanged (w w' : world) : Prop :=
  fs w' = fs w /\ procs w' = procs w /\ disk_free w' = disk_free w
  /\ spawns (log w') = spawns (log w).

(** A computation that only looks. *)
Definition read_only {A} (m : M A) : Prop := forall w, unchanged w (snd (m w)).

(** The entries of the directory stored at [q], each as [p / name]. *)
Definition children (m : gmap path node) (q p : path) : list path :=
  omap (fun kv => (fun name => p ++ [name]) <$> child_name q kv.1)
       (map_to_list m).

(** What [list_files] reports for one entry: a regular file (links
    followed) with its size, anything else as a directory without size. *)
Definition list_entry (m : gmap path node) (item : path) : json :=
  match follow m item with
  | Some (File content _) =>
    JObj [("name", JStr (List.last item ""));
          ("size", JNum (Z.of_nat (length content)));
          ("type", JStr "file")]
  | _ =>
    JObj [("name", JStr (List.last item ""));
          ("size", JNull);
          ("type", JStr "directory")]
  end.

(** A workspace that holds a sub-directory and a dangling link. *)
Definition mixed_entries : list (path * node) :=
  base_entries ++
  [(["webclan"; "work"; an_id; "out"], Dir);
   (["webclan"; "work"; an_id; "gone"], Symlink ["nowhere"])].

Definition mixed_world : world := world_of (tree mixed_entries) quick.



(* ===================================================================== *)
(** * Facts about strings *)
(* ===================================================================== *)

Lemma app_String c (a b : string) : String c a +:+ b = String c (a +:+ b).
Proof. reflexivity. Qed.

Lemma app_empty_l (a : string) : "" +:+ a = a.
Proof. reflexivity. Qed.

Lemma app_empty_r (a : string) : a +:+ "" = a.
Proof. induction a as [|c a IH]; [reflexivity | rewrite app_String; now f_equal]. Qed.

Lemma app_assoc_str (a b c : string) : (a +:+ b) +:+ c = a +:+ (b +:+ c).
Proof. induction a as [|x a IH]; [reflexivity | rewrite !app_String; now f_equal]. Qed.

Lemma length_app_str (a b : string) :
  String.length (a +:+ b) = (String.length a + String.length b)%nat.
Proof.
  induction a as [|x a IH]; [reflexivity|].
  rewrite app_String. simpl. now rewrite IH.
Qed.

Lemma all_chars_app P (a b : string) :
  all_chars P (a +:+ b) = all_chars P a && all_chars P b.
Proof.
  induction a as [|x a IH]; [reflexivity|].
  rewrite app_String. simpl. now rewrite IH, andb_assoc.
Qed.

Lemma all_chars_weaken (P Q : ascii -> bool) (s : string) :
  (forall c, P c = true -> Q c = true) ->
  all_chars P s = true -> all_chars Q s = true.
Proof.
  intros HPQ. induction s as [|c s IH]; simpl; [reflexivity|].
  intros [Hc Hs]%andb_true_iff. rewrite (HPQ _ Hc). now apply IH.
Qed.

Lemma char_in_absent P (c : ascii) (s : string) :
  all_chars P s = true -> P c = false -> char_in c s = false.
Proof.
  intros Hs Hc. induction s as [|d s IH]; simpl in *; [reflexivity|].
  apply andb_true_iff in Hs as [Hd Hs]. rewrite (IH Hs), orb_false_r.
  destruct (Ascii.eqb_spec c d) as [->|]; [congruence | reflexivity].
Qed.

Lemma startswith_empty (s : string) : startswith s "" = true.
Proof. now destruct s. Qed.

Lemma startswith_app (a b : string) : startswith (a +:+ b) a = true.
Proof.
  induction a as [|c a IH]; [apply startswith_empty|].
  rewrite app_String. simpl. now rewrite Ascii.eqb_refl.
Qed.

(** A pattern whose first character does not occur is never found. *)
Lemma replace_absent (c : ascii) (old new s : string) :
  char_in c s = false -> replace (String c old) new s = s.
Proof.
  unfold replace. induction s as [|d s IH]; simpl; [reflexivity|].
  intros [Hd Hs]%orb_false_iff. rewrite Hd. simpl. now rewrite IH.
Qed.

(** Removing a one-character pattern works piece by piece. *)
Lemma remove_char_app (h : ascii) (a b : string) :
  replace (String h "") "" (a +:+ b)
  = replace (String h "") "" a +:+ replace (String h "") "" b.
Proof.
  unfold replace. induction a as [|c a IH]; [reflexivity|].
  rewrite app_String. cbn [replace_from startswith String.length Nat.sub].
  rewrite !startswith_empty, !andb_true_r.
  destruct (Ascii.eqb h c); cbn [andb]; rewrite ?app_empty_l, ?app_String, IH;
    reflexivity.
Qed.

Lemma remove_char_head (h : ascii) (s : string) :
  replace (String h "") "" (String h s) = replace (String h "") "" s.
Proof.
  unfold replace. cbn [replace_from startswith String.length Nat.sub].
  now rewrite Ascii.eqb_refl, startswith_empty.
Qed.

Lemma lstrip_absent P (chars s : string) :
  (forall c, P c = true -> char_in c chars = false) ->
  all_chars P s = true -> lstrip chars s = s.
Proof.
  intros HP. destruct s as [|c s]; simpl; [reflexivity|].
  intros [Hc _]%andb_true_iff. now rewrite (HP _ Hc).
Qed.

Lemma rstrip_absent P (chars s : string) :
  (forall c, P c = true -> char_in c chars = false) ->
  all_chars P s = true -> rstrip chars s = s.
Proof.
  intros HP. induction s as [|c s IH]; simpl; [reflexivity|].
  intros [Hc Hs]%andb_true_iff. rewrite (IH Hs).
  destruct s; [now rewrite (HP _ Hc) | reflexivity].
Qed.

(* ===================================================================== *)
(** * Canonical identifiers are accepted by [uuid.UUID] *)
(* ===================================================================== *)

Lemma hex_value_range (c : ascii) (d : Z) :
  hex_value c = Some d -> 0 <= d < 16.
Proof.
  unfold hex_value, is_digit, between.
  repeat match goal with
         | |- context [(?a <=? ?b)%nat] => destruct (Nat.leb_spec a b)
         end; simpl; intros [= <-]; lia.
Qed.

Lemma is_hex_value (c : ascii) :
  is_hex c = true -> exists d, hex_value c = Some d.
Proof. unfold is_hex. destruct (hex_value c); [eauto | discriminate]. Qed.

(** A character that is a hexadecimal digit is none of the characters that
    [int()] or the constructor treat specially. *)
Lemma is_hex_other (x c : ascii) :
  is_hex x = false -> is_hex c = true -> Ascii.eqb c x = false.
Proof.
  intros Hx Hc. destruct (Ascii.eqb_spec c x) as [->|]; congruence.
Qed.

Lemma is_hex_not_space (c : ascii) : is_hex c = true -> is_space c = false.
Proof.
  unfold is_hex, hex_value, is_space, is_digit, between.
  destruct (Ascii.eqb_spec c " ") as [->|_]; [vm_compute; discriminate|].
  rewrite orb_false_r.
  repeat match goal with
         | |- context [(?a <=? ?b)%nat] => destruct (Nat.leb_spec a b)
         end; simpl; try discriminate; try reflexivity; lia.
Qed.

Lemma hex_group_split (n : nat) (s r : string) :
  hex_group n s = Some r ->
  exists g, s = g +:+ r /\ String.length g = n /\ all_chars is_hex g = true.
Proof.
  revert s. induction n as [|n IH]; intros s; simpl.
  - intros [= <-]. now exists "".
  - destruct s as [|c s]; [discriminate|].
    destruct (is_hex c) eqn:Hc; [|discriminate].
    intros (g & -> & <- & Hg)%IH. exists (String c g). simpl.
    now rewrite Hc, Hg.
Qed.

Lemma hyphen_split (s r : string) : hyphen s = Some r -> s = String "-" r.
Proof.
  destruct s as [|c s]; simpl; [discriminate|].
  destruct (Ascii.eqb_spec c "-") as [->|]; [|discriminate]. now intros [= <-].
Qed.

Lemma canonical_split (s : string) :
  is_canonical_uuid s = true ->
  exists g1 g2 g3 g4 g5,
    s = g1 +:+ String "-" (g2 +:+ String "-" (g3 +:+ String "-"
          (g4 +:+ String "-" g5)))
    /\ (String.length g1 = 8 /\ String.length g2 = 4 /\ String.length g3 = 4
        /\ String.length g4 = 4 /\ String.length g5 = 12)%nat
    /\ all_chars is_hex g1 = true /\ all_chars is_hex g2 = true
    /\ all_chars is_hex g3 = true /\ all_chars is_hex g4 = true
    /\ all_chars is_hex g5 = true.
Proof.
  unfold is_canonical_uuid. cbn [hex_groups].
  destruct (hex_group 8 s) as [r1|] eqn:E1; [|discriminate].
  destruct (hyphen r1) as [r1'|] eqn:H1; [|discriminate].
  destruct (hex_group 4 r1') as [r2|] eqn:E2; [|discriminate].
  destruct (hyphen r2) as [r2'|] eqn:H2; [|discriminate].
  destruct (hex_group 4 r2') as [r3|] eqn:E3; [|discriminate].
  destruct (hyphen r3) as [r3'|] eqn:H3; [|discriminate].
  destruct (hex_group 4 r3') as [r4|] eqn:E4; [|discriminate].
  destruct (hyphen r4) as [r4'|] eqn:H4; [|discriminate].
  destruct (hex_group 12 r4') as [r5|] eqn:E5; [|discriminate].
  destruct r5; [|discriminate]. intros _.
  apply hex_group_split in E1 as (g1 & -> & L1 & A1).
  apply hex_group_split in E2 as (g2 & -> & L2 & A2).
  apply hex_group_split in E3 as (g3 & -> & L3 & A3).
  apply hex_group_split in E4 as (g4 & -> & L4 & A4).
  apply hex_group_split in E5 as (g5 & -> & L5 & A5).
  apply hyphen_split in H1 as ->. apply hyphen_split in H2 as ->.
  apply hyphen_split in H3 as ->. apply hyphen_split in H4 as ->.
  exists g1, g2, g3, g4, g5. rewrite app_empty_r. auto 10.
Qed.

Lemma canonical_chars (s : string) :
  is_canonical_uuid s = true ->
  all_chars hex_or_hyphen s = true /\ s <> "".
Proof.
  intros (g1 & g2 & g3 & g4 & g5 & -> & (L1 & _) & A1 & A2 & A3 & A4 & A5)%canonical_split.
  assert (W : forall g, all_chars is_hex g = true -> all_chars hex_or_hyphen g = true).
  { intros g. apply all_chars_weaken. intros c Hc. unfold hex_or_hyphen. now rewrite Hc. }
  split.
  - repeat (rewrite all_chars_app; cbn [all_chars]).
    rewrite !W by assumption. reflexivity.
  - destruct g1; [discriminate L1 | rewrite app_String; discriminate].
Qed.

Lemma int16_scan_hex (h : string) (seen : bool) (acc : Z) :
  all_chars is_hex h = true -> seen = true \/ h <> "" -> 0 <= acc ->
  exists v, int16_scan false seen acc h = Some v
            /\ acc * 16 ^ Z.of_nat (String.length h) <= v
               < (acc + 1) * 16 ^ Z.of_nat (String.length h).
Proof.
  revert seen acc. induction h as [|c h IH]; intros seen acc Hh Hs Hacc.
  - destruct Hs as [-> | []]; [|reflexivity]. exists acc.
    split; [reflexivity | simpl; lia].
  - simpl in Hh. apply andb_true_iff in Hh as [Hc Hh].
    destruct (is_hex_value c Hc) as [d Hd]. pose proof (hex_value_range _ _ Hd).
    cbn [int16_scan String.length]. rewrite Hd.
    destruct (IH true (16 * acc + d) Hh) as (v & Hv & Hb); [auto | lia |].
    exists v. split; [assumption|].
    rewrite Nat2Z.inj_succ, Z.pow_succ_r by lia. nia.
Qed.

Lemma int16_hex (h : string) :
  all_chars is_hex h = true -> h <> "" ->
  exists v, int16 h = Some v /\ 0 <= v < 16 ^ Z.of_nat (String.length h).
Proof.
  intros Hh Hne. destruct h as [|c h]; [congruence|].
  pose proof Hh as Hh'. simpl in Hh'. apply andb_true_iff in Hh' as [Hc Hrest].
  unfold int16. cbn [skip_space]. rewrite (is_hex_not_space c Hc).
  rewrite (is_hex_other "+" c), (is_hex_other "-" c) by (assumption || reflexivity).
  assert (Hu : int16_unsigned (String c h) = int16_scan false false 0 (String c h)).
  { unfold int16_unsigned.
    assert (Hp : match String c h with
                 | String z (String x rest) =>
                   if Ascii.eqb z "0" && (Ascii.eqb x "x" || Ascii.eqb x "X")
                   then match rest with
                        | String u rest' => if Ascii.eqb u "_" then rest' else rest
                        | EmptyString => rest
                        end
                   else String c h
                 | _ => String c h
                 end = String c h).
    { destruct h as [|x h]; [reflexivity|].
      simpl in Hrest. apply andb_true_iff in Hrest as [Hx _].
      rewrite (is_hex_other "x" x), (is_hex_other "X" x) by (assumption || reflexivity).
      now rewrite andb_false_r. }
    rewrite Hp. now rewrite (is_hex_other "_" c) by (assumption || reflexivity). }
  rewrite Hu.
  destruct (int16_scan_hex (String c h) false 0 Hh) as (v & Hv & Hb);
    [now right | lia |].
  exists v. split; [assumption | lia].
Qed.

Lemma is_hex_below (c : ascii) : is_hex c = true -> (code c < 127)%nat.
Proof.
  unfold is_hex, hex_value, is_digit, between.
  repeat match goal with
         | |- context [(?a <=? ?b)%nat] => destruct (Nat.leb_spec a b)
         end; simpl; try discriminate; intros _; lia.
Qed.

Lemma code_inverse (c : ascii) :
  ascii_of_nat (Z.to_nat (Z.of_nat (code c))) = c.
Proof. rewrite Nat2Z.id. apply ascii_nat_embedding. Qed.

(** ASCII text is its own decoding, and [int()] reads it as it is. *)
Lemma ascii_points (P : ascii -> bool) (s : string) :
  (forall c, P c = true -> (code c < 127)%nat) ->
  all_chars P s = true ->
  utf8_decode (bytes_of s) = Some (bytes_of s)
  /\ int_ascii (bytes_of s) = Some s
  /\ length (bytes_of s) = String.length s.
Proof.
  intros HP. induction s as [|c s IH]; [repeat split|].
  cbn [all_chars]. intros [Hc Hs]%andb_true_iff.
  destruct (IH Hs) as (Hd & Hi & Hl). apply HP in Hc.
  cbn [bytes_of utf8_decode int_ascii length String.length].
  rewrite Hd, Hi, Hl. unfold int_ascii_char. rewrite code_inverse.
  destruct (Z.leb_spec 0 (Z.of_nat (code c))); [|lia].
  destruct (Z.ltb_spec (Z.of_nat (code c)) 0x80); [|lia].
  destruct (Z.ltb_spec (Z.of_nat (code c)) 127); [|lia].
  repeat split.
Qed.

(** The constructor accepts every canonical identifier. *)
Lemma canonical_uuid_parses (s : string) :
  is_canonical_uuid s = true -> exists n, UUID s = Some n.
Proof.
  intros Hs. destruct (canonical_chars s Hs) as [Hall _].
  destruct (canonical_split s Hs)
    as (g1 & g2 & g3 & g4 & g5 & -> & (L1 & L2 & L3 & L4 & L5)
        & A1 & A2 & A3 & A4 & A5).
  unfold UUID.
  rewrite (replace_absent "u" "rn:") by (now apply (char_in_absent hex_or_hyphen)).
  rewrite (replace_absent "u" "uid:") by (now apply (char_in_absent hex_or_hyphen)).
  assert (Hb : forall c, hex_or_hyphen c = true -> char_in c "{}" = false).
  { intros c Hc. simpl.
    destruct (Ascii.eqb_spec c "{") as [->|]; [discriminate Hc|].
    destruct (Ascii.eqb_spec c "}") as [->|]; [discriminate Hc|].
    reflexivity. }
  unfold strip.
  rewrite (lstrip_absent hex_or_hyphen), (rstrip_absent hex_or_hyphen) by assumption.
  repeat (rewrite remove_char_app; rewrite remove_char_head).
  assert (Hg : forall g, all_chars is_hex g = true -> replace "-" "" g = g).
  { intros g Hgx. apply replace_absent. now apply (char_in_absent is_hex). }
  rewrite !Hg by assumption.
  set (h := g1 +:+ g2 +:+ g3 +:+ g4 +:+ g5).
  assert (Lh : String.length h = 32%nat).
  { unfold h. rewrite !length_app_str. lia. }
  assert (Ah : all_chars is_hex h = true).
  { unfold h. rewrite !all_chars_app, A1, A2, A3, A4, A5. reflexivity. }
  destruct (ascii_points is_hex h is_hex_below Ah) as (-> & -> & ->).
  rewrite Lh. cbn [Nat.eqb negb].
  destruct (int16_hex h Ah) as (v & -> & Hv).
  { intros E. rewrite E in Lh. discriminate. }
  rewrite Lh in Hv. change (16 ^ Z.of_nat 32) with (2 ^ 128) in Hv.
  exists v.
  destruct (Z.leb_spec 0 v); [|lia]. destruct (Z.ltb_spec v (2 ^ 128)); [|lia].
  reflexivity.
Qed.

Lemma all_chars_char_in (P : ascii -> bool) (s : string) (c : ascii) :
  all_chars P s = true -> char_in c s = true -> P c = true.
Proof.
  induction s as [|d s IH]; cbn [all_chars char_in]; [discriminate|].
  intros [Hd Hs]%andb_true_iff [Hc|Hc]%orb_true_iff; [|now apply IH].
  apply Ascii.eqb_eq in Hc as ->. assumption.
Qed.

(* ===================================================================== *)
(** * What an accepted identifier can hold *)
(* ===================================================================== *)

(** Replacing occurrences of a pattern hides only characters of the
    pattern.  [suffix] is the part of the occurrence still to be dropped. *)
Lemma replace_from_chars (P : ascii -> bool) (old new : string) :
  old <> "" -> all_chars P old = true ->
  forall s suffix,
    all_chars P suffix = true -> startswith s suffix = true ->
    all_chars P (replace_from old new (String.length suffix) s) = true ->
    all_chars P s = true.
Proof.
  intros Hne Hold. induction s as [|c s IH]; intros suffix Hsuf Hst Hr;
    [reflexivity|].
  destruct suffix as [|d suffix].
  - cbn [String.length replace_from] in Hr.
    destruct (startswith (String c s) old) eqn:Hm.
    + destruct old as [|o old']; [congruence|].
      cbn [startswith] in Hm. apply andb_true_iff in Hm as [Ho Hm].
      apply Ascii.eqb_eq in Ho as <-.
      cbn [all_chars] in Hold. apply andb_true_iff in Hold as [Po Hold'].
      rewrite all_chars_app in Hr. apply andb_true_iff in Hr as [_ Hr].
      cbn [String.length] in Hr. rewrite Nat.sub_succ, Nat.sub_0_r in Hr.
      cbn [all_chars]. rewrite Po. apply (IH old'); assumption.
    + cbn [all_chars] in Hr |- *. apply andb_true_iff in Hr as [-> Hr].
      apply (IH ""); [reflexivity | apply startswith_empty | exact Hr].
  - cbn [startswith] in Hst. apply andb_true_iff in Hst as [Hd Hst].
    apply Ascii.eqb_eq in Hd as <-.
    cbn [all_chars] in Hsuf. apply andb_true_iff in Hsuf as [Pd Hsuf].
    cbn [String.length replace_from] in Hr.
    cbn [all_chars]. rewrite Pd. apply (IH suffix); assumption.
Qed.

Lemma replace_chars (P : ascii -> bool) (old new s : string) :
  old <> "" -> all_chars P old = true ->
  all_chars P (replace old new s) = true -> all_chars P s = true.
Proof.
  intros Hne Hold H.
  apply (replace_from_chars P old new Hne Hold s "");
    [reflexivity | apply startswith_empty | exact H].
Qed.

Lemma lstrip_chars (P : ascii -> bool) (chars s : string) :
  all_chars P chars = true ->
  all_chars P (lstrip chars s) = true -> all_chars P s = true.
Proof.
  intros Hc. induction s as [|c s IH]; [reflexivity|].
  cbn [lstrip]. destruct (char_in c chars) eqn:E; [|exact (fun H => H)].
  intros H. cbn [all_chars].
  rewrite (all_chars_char_in P chars c Hc E). now apply IH.
Qed.

Lemma rstrip_chars (P : ascii -> bool) (chars s : string) :
  all_chars P chars = true ->
  all_chars P (rstrip chars s) = true -> all_chars P s = true.
Proof.
  intros Hc. induction s as [|c s IH]; [reflexivity|].
  cbn [rstrip]. destruct (rstrip chars s) as [|d r] eqn:E.
  - destruct (char_in c chars) eqn:Ec; intros H; cbn [all_chars].
    + rewrite (all_chars_char_in P chars c Hc Ec). now apply IH.
    + cbn [all_chars] in H. apply andb_true_iff in H as [-> _]. now apply IH.
  - cbn [all_chars]. intros [-> H]%andb_true_iff. now apply IH.
Qed.

Lemma skip_space_chars (P : ascii -> bool) (s : string) :
  (forall c, is_space c = true -> P c = true) ->
  all_chars P (skip_space s) = true -> all_chars P s = true.
Proof.
  intros Hsp. induction s as [|c s IH]; [reflexivity|].
  cbn [skip_space]. destruct (is_space c) eqn:E; [|exact (fun H => H)].
  intros H. cbn [all_chars]. rewrite (Hsp c E). now apply IH.
Qed.

Lemma is_hex_int_char (c : ascii) : is_hex c = true -> int_char c = true.
Proof. intros H. unfold int_char. now rewrite H. Qed.

Lemma is_space_int_char (c : ascii) : is_space c = true -> int_char c = true.
Proof. intros H. unfold int_char. now rewrite H, orb_true_r. Qed.

Lemma all_space_chars (s : string) :
  all_space s = true -> all_chars int_char s = true.
Proof.
  induction s as [|c s IH]; [reflexivity|]. cbn [all_space all_chars].
  intros [Hc Hs]%andb_true_iff. now rewrite (is_space_int_char c Hc), IH.
Qed.

Lemma int16_scan_chars (s : string) (prev_us seen : bool) (acc v : Z) :
  int16_scan prev_us seen acc s = Some v -> all_chars int_char s = true.
Proof.
  revert prev_us seen acc. induction s as [|c s IH]; intros prev_us seen acc;
    [reflexivity|].
  cbn [int16_scan all_chars]. destruct (hex_value c) as [d|] eqn:Hd.
  - intros H. apply IH in H. rewrite H, andb_true_r.
    apply is_hex_int_char. unfold is_hex. now rewrite Hd.
  - destruct (Ascii.eqb_spec c "_") as [->|_].
    + destruct prev_us; [discriminate|]. intros H. apply IH in H. now rewrite H.
    + destruct (prev_us || negb seen); [discriminate|].
      destruct (all_space (String c s)) eqn:E; [|discriminate]. intros _.
      apply all_space_chars in E. exact E.
Qed.

Lemma int16_unsigned_chars (s : string) (v : Z) :
  int16_unsigned s = Some v -> all_chars int_char s = true.
Proof.
  unfold int16_unsigned.
  assert (Hscan : forall s1, match s1 with
                             | String u _ =>
                               if Ascii.eqb u "_" then None
                               else int16_scan false false 0 s1
                             | EmptyString => None
                             end = Some v -> all_chars int_char s1 = true).
  { intros [|u s1]; [discriminate|]. destruct (Ascii.eqb u "_"); [discriminate|].
    apply int16_scan_chars. }
  destruct s as [|z [|x rest]];
    [exact (Hscan "") | exact (Hscan (String z "")) |].
  cbv zeta.
  destruct (Ascii.eqb z "0" && (Ascii.eqb x "x" || Ascii.eqb x "X")) eqn:E;
    [|exact (Hscan (String z (String x rest)))].
  apply andb_true_iff in E as [Hz Hx]. apply Ascii.eqb_eq in Hz as ->.
  assert (Px : int_char x = true).
  { apply orb_true_iff in Hx as [Hx|Hx]; apply Ascii.eqb_eq in Hx as ->;
      reflexivity. }
  cbn [all_chars]. rewrite Px. cbn [andb].
  destruct rest as [|u rest']; [exact (Hscan "")|].
  destruct (Ascii.eqb_spec u "_") as [->|_].
  - intros H. apply (Hscan rest') in H. cbn [all_chars]. now rewrite H.
  - exact (Hscan (String u rest')).
Qed.

Lemma int16_chars (s : string) (v : Z) :
  int16 s = Some v -> all_chars int_char s = true.
Proof.
  unfold int16. intros H. apply (skip_space_chars int_char);
    [apply is_space_int_char|].
  destruct (skip_space s) as [|c s']; [discriminate|].
  destruct (Ascii.eqb_spec c "+") as [->|_].
  { apply int16_unsigned_chars in H. cbn [all_chars]. now rewrite H. }
  destruct (Ascii.eqb_spec c "-") as [->|_].
  { destruct (int16_unsigned s') as [u|] eqn:E; [|discriminate].
    apply int16_unsigned_chars in E. cbn [all_chars]. now rewrite E. }
  now apply int16_unsigned_chars in H.
Qed.

(** What [int()] made of a code point below 127 is that code point. *)
Lemma int_ascii_char_below (b : Z) (a : ascii) :
  0 <= b < 0x80 -> int_ascii_char b = Some a ->
  a = ascii_of_nat (Z.to_nat b).
Proof.
  intros Hb. unfold int_ascii_char. destruct (Z.ltb_spec b 127).
  - now intros [= <-].
  - assert (b = 127) as -> by lia. vm_compute. discriminate.
Qed.

(** The bytes of a text that [int()] reads: below 128 they are characters
    that [int()] accepts. *)
Lemma decoded_digits_chars (bs points : list Z) (digits : string) :
  utf8_decode bs = Some points -> int_ascii points = Some digits ->
  all_chars int_char digits = true ->
  Forall (fun b => 128 <= b \/ int_char (ascii_of_nat (Z.to_nat b)) = true) bs.
Proof.
  assert (H : forall n bs points digits, (length bs <= n)%nat ->
            utf8_decode bs = Some points -> int_ascii points = Some digits ->
            all_chars int_char digits = true ->
            Forall (fun b => 128 <= b
                             \/ int_char (ascii_of_nat (Z.to_nat b)) = true) bs).
  { clear. induction n as [|n IH]; intros [|b0 r1] pts digits Hlen;
      cbn [utf8_decode length] in *; try (intros; constructor; fail);
      try lia.
    assert (Hstep : forall rest c,
              (length rest <= n)%nat ->
              cons c <$> utf8_decode rest = Some pts ->
              int_ascii pts = Some digits ->
              all_chars int_char digits = true ->
              exists a,
                int_ascii_char c = Some a /\ int_char a = true
                /\ Forall (fun b => 128 <= b
                                    \/ int_char (ascii_of_nat (Z.to_nat b)) = true)
                     rest).
    { intros rest c Hr Hd Hi Ha.
      destruct (utf8_decode rest) as [pts'|] eqn:Er; [|discriminate Hd].
      injection Hd as <-. cbn [int_ascii] in Hi.
      destruct (int_ascii_char c) as [a|]; [|discriminate Hi].
      destruct (int_ascii pts') as [digits'|] eqn:Ei; [|discriminate Hi].
      injection Hi as <-. cbn [all_chars] in Ha.
      apply andb_true_iff in Ha as [Ha Hrest].
      exists a. repeat split; [exact Ha|].
      exact (IH rest pts' digits' Hr Er Ei Hrest). }
    unfold cont.
    destruct ((0 <=? b0) && (b0 <? 0x80)) eqn:E1.
    { intros Hd Hi Ha.
      destruct (Hstep r1 b0 ltac:(lia) Hd Hi Ha) as (a & Hc & Pa & Hf).
      constructor; [|exact Hf]. right.
      rewrite <- (int_ascii_char_below b0 a) by (assumption || lia).
      exact Pa. }
    destruct ((0xC2 <=? b0) && (b0 <=? 0xDF)) eqn:E2.
    { destruct r1 as [|b1 r2]; [discriminate|].
      destruct ((0x80 <=? b1) && (b1 <=? 0xBF)) eqn:C1; [|discriminate].
      intros Hd Hi Ha. cbn [length] in Hlen.
      destruct (Hstep r2 _ ltac:(lia) Hd Hi Ha) as (a & _ & _ & Hf).
      repeat (constructor; [left; lia|]). exact Hf. }
    destruct ((0xE0 <=? b0) && (b0 <=? 0xEF)) eqn:E3.
    { destruct r1 as [|b1 [|b2 r3]]; try discriminate.
      match goal with
      | |- (if ?b then _ else _) = _ -> _ => destruct b eqn:C; [|discriminate]
      end.
      intros Hd Hi Ha. cbn [length] in Hlen.
      destruct (Hstep r3 _ ltac:(lia) Hd Hi Ha) as (a & _ & _ & Hf).
      repeat (constructor; [left; lia|]). exact Hf. }
    destruct ((0xF0 <=? b0) && (b0 <=? 0xF4)) eqn:E4; [|discriminate].
    destruct r1 as [|b1 [|b2 [|b3 r4]]]; try discriminate.
    match goal with
    | |- (if ?b then _ else _) = _ -> _ => destruct b eqn:C; [|discriminate]
    end.
    intros Hd Hi Ha. cbn [length] in Hlen.
    destruct (Hstep r4 _ ltac:(lia) Hd Hi Ha) as (a & _ & _ & Hf).
    repeat (constructor; [left; lia|]). exact Hf. }
  intros Hd Hi Ha. exact (H (length bs) bs points digits (le_n _) Hd Hi Ha).
Qed.

Lemma bytes_uuid_chars (s : string) :
  Forall (fun b => 128 <= b \/ int_char (ascii_of_nat (Z.to_nat b)) = true)
         (bytes_of s) ->
  all_chars uuid_char s = true.
Proof.
  induction s as [|c s IH]; [reflexivity|]. cbn [bytes_of all_chars].
  intros [Hc Hs]%Forall_cons. rewrite (IH Hs), andb_true_r.
  unfold uuid_char. destruct Hc as [Hc|Hc].
  - destruct (Nat.leb_spec 128 (code c)); [apply orb_true_r | lia].
  - rewrite code_inverse in Hc. now rewrite Hc.
Qed.

(** The bytes of an identifier that [uuid.UUID] accepts. *)
Lemma uuid_chars (id : string) :
  is_Some (UUID id) -> all_chars uuid_char id = true /\ id <> "".
Proof.
  intros [n Hn]. split; [|intros ->; discriminate Hn].
  revert Hn. unfold UUID.
  destruct (utf8_decode _) as [points|] eqn:Hd; [|discriminate].
  destruct (negb _); [discriminate|].
  destruct (int_ascii points) as [digits|] eqn:Hi; [|discriminate].
  destruct (int16 digits) as [v|] eqn:Hv; [|discriminate]. intros _.
  apply int16_chars in Hv.
  pose proof (bytes_uuid_chars _ (decoded_digits_chars _ _ _ Hd Hi Hv)) as Hw.
  apply replace_chars in Hw; [|discriminate|reflexivity].
  unfold strip in Hw.
  apply rstrip_chars in Hw; [|reflexivity].
  apply lstrip_chars in Hw; [|reflexivity].
  apply replace_chars in Hw; [|discriminate|reflexivity].
  apply replace_chars in Hw; [|discriminate|reflexivity].
  exact Hw.
Qed.

(* ===================================================================== *)
(** * Argument validation *)
(* ===================================================================== *)

Lemma validate_args_loop_rejects (v : list string) (arg : string) (c : ascii) :
  In arg v -> In c forbidden_chars -> char_in c arg = true ->
  exists msg, validate_args_loop v = Some (ValueError msg).
Proof.
  intros Harg Hc Hin. induction v as [|a v IH]; [destruct Harg|].
  cbn [validate_args_loop].
  destruct (existsb (fun char => char_in char a) forbidden_chars) eqn:E; [eauto|].
  destruct (startswith a "/" || str_in ".." a); [eauto|].
  destruct Harg as [->|Harg]; [|now apply IH].
  assert (existsb (fun char => char_in char arg) forbidden_chars = true)
    by (apply existsb_exists; eauto).
  congruence.
Qed.

(** C5.  An argument list with an element that holds one of [;], [&], [|],
    backtick, [$], newline or carriage return is rejected as a whole,
    whatever its other elements are: [validate_args] raises, and the execute
    endpoint answers with a validation error without touching anything. *)
Theorem forbidden_character_rejects_arguments
    (v : list string) (arg : string) (c : ascii) :
  In arg v ->
  In c [";"; "&"; "|"; "`"; "$"; LF; CR]%char ->
  char_in c arg = true ->
  (exists msg, validate_args v = inr (ValueError msg))
  /\ forall id bin w, exists errors,
       execute {| unique_id := id; binary := bin; args := v |} w
       = (inr (RequestValidationError errors), w).
Proof.
  intros Harg Hc Hin.
  destruct (validate_args_loop_rejects v arg c Harg Hc Hin) as [msg Hmsg].
  split.
  - exists msg. unfold validate_args. now rewrite Hmsg.
  - intros id bin w. unfold execute, validate_request, bind.
    cbn [unique_id binary args]. unfold validate_args at 1. rewrite Hmsg.
    cbn [error_of].
    destruct (error_of (validate_unique_id id) ++ error_of (validate_binary bin) ++ [msg])
      as [|e errors] eqn:E.
    + apply (f_equal (@length string)) in E. rewrite !length_app in E.
      simpl in E. lia.
    + exists (e :: errors). reflexivity.
Qed.

Lemma forbidden_character_rejects_arguments_witness :
  (exists msg, validate_args ["chip.cha"; "a;rm"] = inr (ValueError msg))
  /\ forall id bin w, exists errors,
       execute {| unique_id := id; binary := bin; args := ["chip.cha"; "a;rm"] |} w
       = (inr (RequestValidationError errors), w).
Proof.
  apply (forbidden_character_rejects_arguments ["chip.cha"; "a;rm"] "a;rm" ";"%char).
  - right; left; reflexivity.
  - left; reflexivity.
  - reflexivity.
Defined.

(* ===================================================================== *)
(** * Stepping through a handler *)
(* ===================================================================== *)

Ltac unfold_os :=
  cbv beta iota delta
      [bind ret raise try_except modify get_world fs_call path_exists
       path_is_dir path_is_file os_access_X_OK path_resolve stat_st_size
       path_iterdir path_mkdir write_bytes read_text shutil_rmtree
       subprocess_run];
  cbn [fs log procs disk_free environ programs os_refuses add_log set_fs
       set_procs set_disk_free set_environ fst snd negb orb andb].

Ltac known :=
  repeat match goal with
         | H : follow ?m ?p = _ |- context [follow ?m ?p] =>
           rewrite H; unfold_os
         | H : realpath ?m ?p = _ |- context [realpath ?m ?p] =>
           rewrite H; unfold_os
         | H : lrealpath ?m ?p = _ |- context [lrealpath ?m ?p] =>
           rewrite H; unfold_os
         | H : startswith ?a ?b = _ |- context [startswith ?a ?b] =>
           rewrite H; unfold_os
         | H : UUID ?a = _ |- context [UUID ?a] =>
           rewrite H; unfold_os
         end.

Ltac case_on x := destruct x eqn:?; unfold_os; known.

Ltac branch :=
  match goal with
  | |- context [match follow ?m ?p with _ => _ end] => case_on (follow m p)
  | |- context [match realpath ?m ?p with _ => _ end] => case_on (realpath m p)
  | |- context [match lrealpath ?m ?p with _ => _ end] => case_on (lrealpath m p)
  | |- context [negb (startswith ?a ?b)] => case_on (startswith a b)
  | |- context [match node_at ?m ?p with _ => _ end] => case_on (node_at m p)
  | |- context [match ?m !! ?k with _ => _ end] => case_on (m !! k)
  | |- context [match ?n with Dir => _ | File _ _ => _ | Symlink _ => _ end] =>
    is_var n; destruct n; unfold_os; known
  | |- context [if negb ?b then _ else _] => case_on b
  | |- context [if ?b then _ else _] => case_on b
  end.

Lemma spawns_app (a b : list event) : spawns (a ++ b) = spawns a ++ spawns b.
Proof. unfold spawns. apply omap_app. Qed.

(* ===================================================================== *)
(** * Identifier validation *)
(* ===================================================================== *)

Lemma validate_args_loop_message (v : list string) (e : exn) :
  validate_args_loop v = Some e -> exists tail, e = ValueError (String "a" tail).
Proof.
  induction v as [|arg v IH]; [discriminate|]. cbn [validate_args_loop].
  destruct (existsb _ forbidden_chars);
    [intros [= <-]; eexists; rewrite app_String; reflexivity|].
  destruct (startswith arg "/" || str_in ".." arg);
    [intros [= <-]; eexists; rewrite app_String; reflexivity|].
  exact IH.
Qed.

(** The messages that the validators of the program name and of the
    arguments give are not the message of the identifier validator. *)
Lemma other_validators_messages (bin : string) (a : list string) :
  ~ In "unique_id must be a valid UUID"
       (error_of (validate_binary bin) ++ error_of (validate_args a)).
Proof.
  intros [H|H]%in_app_iff.
  - unfold validate_binary in H.
    destruct (negb _); cbn [error_of In] in H; [|exact H].
    destruct H as [H|[]]. discriminate H.
  - unfold validate_args in H.
    destruct (validate_args_loop a) as [e|] eqn:E; cbn [error_of In] in H;
      [|exact H].
    apply validate_args_loop_message in E as [tail ->].
    cbn [error_of In] in H. destruct H as [H|[]]. discriminate H.
Qed.

(** C2, as the code has it.  Identifier validation is the constructor
    [uuid.UUID].  It accepts every canonical hyphenated identifier.  A
    string that the constructor rejects makes list, read and destroy answer
    400 "Invalid unique_id format" and execute answer with a
    request-validation error that carries the validator's message, and none
    of them makes a call to the file system or starts a process first: the
    world is returned as it was.  A string that the constructor accepts is
    never answered in that way: whatever list, read and destroy answer, it
    is not that 400, and the errors of a rejected execute request do not
    hold the identifier's message. *)
Theorem identifier_validation (s : string) :
  (is_canonical_uuid s = true -> is_Some (UUID s))
  /\ (UUID s = None ->
      forall (filename bin : string) (a : list string) (w : world),
        list_files s w
        = (inr (HTTPException 400 "Invalid unique_id format"), w)
        /\ download_file s filename w
           = (inr (HTTPException 400 "Invalid unique_id format"), w)
        /\ cleanup_workspace s w
           = (inr (HTTPException 400 "Invalid unique_id format"), w)
        /\ exists errors,
             execute {| unique_id := s; binary := bin; args := a |} w
             = (inr (RequestValidationError errors), w)
             /\ In "unique_id must be a valid UUID" errors)
  /\ (is_Some (UUID s) ->
      forall (filename bin : string) (a : list string) (w : world),
        fst (list_files s w)
        <> inr (HTTPException 400 "Invalid unique_id format")
        /\ fst (download_file s filename w)
           <> inr (HTTPException 400 "Invalid unique_id format")
        /\ fst (cleanup_workspace s w)
           <> inr (HTTPException 400 "Invalid unique_id format")
        /\ forall errors w',
             validate_request {| unique_id := s; binary := bin; args := a |} w
             = (inr (RequestValidationError errors), w') ->
             ~ In "unique_id must be a valid UUID" errors).
Proof.
  split; [|split].
  - intros [n Hn]%canonical_uuid_parses. now exists n.
  - intros Hs filename bin a w.
    unfold list_files, download_file, cleanup_workspace. rewrite Hs.
    repeat split.
    unfold execute, validate_request, bind, validate_unique_id.
    cbn [unique_id binary args]. rewrite Hs. cbn [error_of app].
    eexists. split; [reflexivity | now left].
  - intros [n Hn] filename bin a w. split; [|split; [|split]].
    + unfold list_files. rewrite Hn. unfold_os.
      repeat branch; cbn [fst]; try discriminate.
      all: match goal with
           | |- context [match ?t with _ => _ end] =>
             destruct t as [[r|e] w2]; cbn [fst]; discriminate
           end.
    + unfold download_file. rewrite Hn.
      destruct (char_in "/" filename || char_in "092" filename
                || str_in ".." filename); [discriminate|].
      destruct (negb (re_match_class_plus filename_class filename));
        [discriminate|].
      unfold_os. repeat branch; cbn [fst]; try discriminate.
      all: destruct (utf8_decode _); cbn [fst]; discriminate.
    + unfold cleanup_workspace. rewrite Hn. unfold_os.
      repeat branch; cbn [fst]; discriminate.
    + intros errors w'. unfold validate_request, validate_unique_id.
      cbn [unique_id binary args]. rewrite Hn. cbn [error_of app].
      pose proof (other_validators_messages bin a) as Hno.
      destruct (error_of (validate_binary bin) ++ error_of (validate_args a))
        as [|e l]; [discriminate|].
      intros [= <- _]. exact Hno.
Qed.

Lemma identifier_validation_witness :
  is_Some (UUID an_id)
  /\ (forall w,
        cleanup_workspace "../../etc" w
        = (inr (HTTPException 400 "Invalid unique_id format"), w))
  /\ (forall w,
        fst (list_files a_wide_id w)
        <> inr (HTTPException 400 "Invalid unique_id format")).
Proof.
  split; [|split].
  - apply (identifier_validation an_id). reflexivity.
  - intros w.
    destruct (identifier_validation "../../etc") as (_ & H & _).
    destruct (H eq_refl "chip.cha" "freq" [] w) as (_ & _ & Hc & _).
    exact Hc.
  - intros w.
    destruct (identifier_validation a_wide_id) as (_ & _ & H).
    destruct (H ltac:(eexists; vm_compute; reflexivity) "chip.cha" "freq" [] w)
      as (Hl & _).
    exact Hl.
Defined.

(** C2, as the specification words it, does not hold: the 32 hexadecimal
    digits of an identifier written without hyphens are not the canonical
    form, yet they pass identifier validation, and list goes on to ask the
    file system for the workspace. *)
Lemma identifier_without_hyphens_accepted :
  is_canonical_uuid an_id_without_hyphens = false
  /\ validate_unique_id an_id_without_hyphens = inl an_id_without_hyphens
  /\ fst (list_files an_id_without_hyphens (world_of ∅ quick))
     = inr (HTTPException 404 "Workspace not found")
  /\ log (snd (list_files an_id_without_hyphens (world_of ∅ quick)))
     = [FsCall "stat" ["webclan"; "work"; an_id_without_hyphens]].
Proof. vm_compute. repeat split. Qed.

(** The constructor counts code points and reads the digits of any script:
    an identifier whose first digit is the full-width digit one is not
    canonical either, is accepted, and list goes on to ask the file system
    for it. *)
Example wide_digit_accepted :
  is_canonical_uuid a_wide_id = false
  /\ validate_unique_id a_wide_id = inl a_wide_id
  /\ list_files a_wide_id (world_of ∅ quick)
     = (inr (HTTPException 404 "Workspace not found"),
        add_log (FsCall "stat" ["webclan"; "work"; a_wide_id])
          (world_of ∅ quick)).
Proof. vm_compute. repeat split. Qed.

(* ===================================================================== *)
(** * The execution sandbox *)
(* ===================================================================== *)

(** What [execute_command] starts: nothing, unless the checks before the
    launch pass, and then the one command line of the request. *)
Lemma execute_command_spawns (request : CommandRequest) (w : world) :
  spawns (log (snd (execute_command request w)))
  = spawns (log w)
    ++ (if admits (fs w) request then [launch_of request] else []).
Proof.
  unfold execute_command, admits, launch_of. unfold_os.
  set (l := Build_launch _ _ _ _).
  repeat branch.
  all: repeat (match goal with
               | |- context [utf8_decode ?x] => destruct (utf8_decode x)
               end; unfold_os).
  all: rewrite ?spawns_app; cbn [spawns omap]; rewrite ?app_nil_r; reflexivity.
Qed.


(** Validation either lets the request through as it is or rejects it; it
    touches nothing. *)
Lemma validate_request_cases (request : CommandRequest) (w : world) :
  validate_request request w = (inl request, w)
  \/ exists errors,
       validate_request request w = (inr (RequestValidationError errors), w).
Proof.
  unfold validate_request.
  destruct (error_of (validate_unique_id (unique_id request))
            ++ error_of (validate_binary (binary request))
            ++ error_of (validate_args (args request))); [now left|].
  right. eexists. reflexivity.
Qed.

(** C9.  Whatever an execute call starts, it starts directly (no shell),
    with the program's path under the binaries directory followed by the
    arguments as they came, in the workspace directory, and with an
    environment of exactly three variables that replaces the server's own;
    so the command lines started are the same for any two environments of
    the server. *)
Theorem subprocess_invocation_fixed (request : CommandRequest) (w : world) :
  (exists started,
      spawns (log (snd (execute request w))) = spawns (log w) ++ started
      /\ (started = [] \/
          started =
          [{| l_argv := str_path (joinpath BIN_DIR (basename (binary request)))
                        :: args request;
              l_cwd := str_path (joinpath WORK_DIR (unique_id request));
              l_shell := false;
              l_env := [("PATH", "/webclan/unix/bin");
                        ("HOME", str_path (joinpath WORK_DIR (unique_id request)));
                        ("LANG", "C.UTF-8")] |}]))
  /\ forall host1 host2,
       spawns (log (snd (execute request (set_environ host1 w))))
       = spawns (log (snd (execute request (set_environ host2 w)))).
Proof.
  assert (Hrun : forall w0,
             spawns (log (snd (execute request w0)))
             = spawns (log w0)
               ++ (if match validate_request request w0 with
                      | (inl _, _) => admits (fs w0) request
                      | (inr _, _) => false
                      end
                   then [launch_of request] else [])).
  { intros w0. unfold execute, bind.
    destruct (validate_request_cases request w0) as [->|[errors ->]].
    - apply execute_command_spawns.
    - cbn [snd]. now rewrite app_nil_r. }
  split.
  - rewrite Hrun.
    match goal with |- context [if ?c then _ else _] => destruct c end.
    + exists [launch_of request]. split; [reflexivity | right; reflexivity].
    + exists []. split; [reflexivity | left; reflexivity].
  - intros host1 host2. rewrite !Hrun.
    destruct (validate_request_cases request (set_environ host1 w)) as [H1|[e1 H1]];
      destruct (validate_request_cases request (set_environ host2 w)) as [H2|[e2 H2]];
      rewrite H1, H2; try reflexivity.
    + exfalso. revert H1 H2. unfold validate_request.
      destruct (_ ++ _); discriminate.
    + exfalso. revert H1 H2. unfold validate_request.
      destruct (_ ++ _); discriminate.
Qed.

(** C6, as the code has it.  When the checks before the launch pass and the
    child has not exited within 300 seconds, [execute_command] answers 408
    with a fixed message (the output read so far is dropped), the child is
    no longer running, and the processes the child started are left as they
    are: nothing signals them. *)
Theorem timeout_kills_the_child_only (request : CommandRequest) (w : world) :
  admits (fs w) request = true ->
  b_starts (programs w (launch_of request)) = true ->
  match b_duration (programs w (launch_of request)) with
  | Some d => COMMAND_TIMEOUT < d
  | None => True
  end ->
  exists w',
    execute_command request w
    = (inr (HTTPException 408 "Command timed out after 300 seconds"), w')
    /\ fs w' = fs w
    /\ procs w'
       = (procs w ∪ {[b_pid (programs w (launch_of request))]}
          ∪ list_to_set (b_descendants (programs w (launch_of request))))
         ∖ {[b_pid (programs w (launch_of request))]}.
Proof.
  unfold admits, launch_of, execute_command.
  set (l := Build_launch _ _ _ _).
  intros [[Hws Hbin]%andb_true_iff Hpre]%andb_true_iff Hstart Hlate.
  assert (Hd : match b_duration (programs w l), b_pipes_closed (programs w l) with
               | Some d, Some c => (d <=? COMMAND_TIMEOUT) && (c <=? COMMAND_TIMEOUT)
               | _, _ => false
               end = false).
  { destruct (b_duration (programs w l)) as [d|]; [|reflexivity].
    destruct (b_pipes_closed (programs w l)); [|reflexivity].
    apply andb_false_iff. left. apply Z.leb_gt. lia. }
  destruct (follow (fs w) (joinpath WORK_DIR (unique_id request)))
    as [[]|] eqn:?; try discriminate.
  destruct (realpath (fs w) (joinpath BIN_DIR (basename (binary request))))
    eqn:?; try discriminate.
  destruct (realpath (fs w) BIN_DIR) eqn:?; try discriminate.
  destruct (follow (fs w) (joinpath BIN_DIR (basename (binary request))))
    as [[| ? x |]|] eqn:?; try discriminate; subst.
  all: unfold_os; known; fold l; rewrite Hstart; unfold_os; rewrite Hd.
  all: eexists; repeat split.
Qed.

Lemma timeout_kills_the_child_only_witness :
  admits (fs sleeper_world) sample_request = true
  /\ exists w',
       execute_command sample_request sleeper_world
       = (inr (HTTPException 408 "Command timed out after 300 seconds"), w')
       /\ fs w' = fs sleeper_world
       /\ procs w'
          = (procs sleeper_world
             ∪ {[b_pid (programs sleeper_world (launch_of sample_request))]}
             ∪ list_to_set
                 (b_descendants (programs sleeper_world (launch_of sample_request))))
            ∖ {[b_pid (programs sleeper_world (launch_of sample_request))]}.
Proof.
  split; [vm_compute; reflexivity|].
  apply (timeout_kills_the_child_only sample_request sleeper_world).
  - vm_compute. reflexivity.
  - reflexivity.
  - exact I.
Defined.

(** C6, as the specification words it, does not hold: a program that
    starts a helper and then sleeps past the budget is reported as timed
    out, and the helper (process 8) is still running afterwards. *)
Lemma descendant_survives_timeout :
  8%nat ∈ b_descendants (programs sleeper_world (launch_of sample_request))
  /\ fst (execute_command sample_request sleeper_world)
     = inr (HTTPException 408 "Command timed out after 300 seconds")
  /\ elements (procs (snd (execute_command sample_request sleeper_world)))
     = [8%nat].
Proof.
  split; [|split].
  - apply list_elem_of_In. left. reflexivity.
  - vm_compute. reflexivity.
  - vm_compute. reflexivity.
Qed.

(** C1 at the failing input.  The whitelist entry [freq] is a link to
    [/webclan/unix/bin2/freq]: the resolved path is not below the binaries
    directory, but its text starts with the text [/webclan/unix/bin], the
    prefix test passes, and the program is started. *)
Lemma planted_link_is_executed :
  validate_binary "freq" = inl "freq"
  /\ realpath (fs planted_world) (joinpath BIN_DIR "freq")
     = Some ["webclan"; "unix"; "bin2"; "freq"]
  /\ realpath (fs planted_world) BIN_DIR = Some BIN_DIR
  /\ under BIN_DIR ["webclan"; "unix"; "bin2"; "freq"] = false
  /\ status_of (fst (execute sample_request planted_world)) = 200
  /\ spawns (log (snd (execute sample_request planted_world)))
     = [launch_of sample_request].
Proof. vm_compute. repeat split. Qed.

(** The check does what its text says: a resolved path whose text does not
    start with the text of the resolved binaries directory is refused with
    403 and nothing is started. *)
Lemma binary_outside_prefix_refused (request : CommandRequest) (w : world)
    (resolved bin_dir : path) :
  follow (fs w) (joinpath WORK_DIR (unique_id request)) = Some Dir ->
  match follow (fs w) (joinpath BIN_DIR (basename (binary request))) with
  | Some (File _ x) => x
  | Some Dir => true
  | _ => false
  end = true ->
  realpath (fs w) (joinpath BIN_DIR (basename (binary request))) = Some resolved ->
  realpath (fs w) BIN_DIR = Some bin_dir ->
  startswith (str_path resolved) (str_path bin_dir) = false ->
  fst (execute_command request w)
  = inr (HTTPException 403 "Failed to resolve binary path")
  /\ spawns (log (snd (execute_command request w))) = spawns (log w).
Proof.
  intros Hw Hx Hr Hb Hp. split.
  - destruct (follow (fs w) (joinpath BIN_DIR (basename (binary request))))
      as [[| ? x |]|] eqn:?; try discriminate; subst;
      unfold execute_command; unfold_os; known; reflexivity.
  - rewrite execute_command_spawns. unfold admits. rewrite Hw, Hr, Hb, Hp.
    rewrite andb_false_r. apply app_nil_r.
Qed.

(* ===================================================================== *)
(** * Path resolution *)
(* ===================================================================== *)

Section Resolution.
Variable m : gmap path node.

Lemma realpath_from_nil fl n (done : path) :
  realpath_from m fl n done [] = Some done.
Proof. now destruct n. Qed.

Lemma realpath_from_cons fl n (done : path) c rest :
  realpath_from m fl n done (c :: rest)
  = match m !! (done ++ [c]) with
    | Some (Symlink target) =>
      match rest, fl with
      | [], false => Some (done ++ [c])
      | _, _ =>
        match n with
        | O => None
        | S n' => realpath_from m fl n' [] (target ++ rest)
        end
      end
    | _ => realpath_from m fl n (done ++ [c]) rest
    end.
Proof. now destruct n. Qed.

(** Without following the last component, a non-empty path resolves to a
    non-empty path. *)
Lemma lrealpath_from_nonempty n (done : path) todo q :
  realpath_from m false n done todo = Some q ->
  todo <> [] \/ done <> [] -> q <> [].
Proof.
  revert done todo. induction n as [|n IHn]; intros done todo; revert done;
    (induction todo as [|c rest IH]; intros done;
     [rewrite realpath_from_nil; intros [= <-] [[]|]; auto|]);
    rewrite realpath_from_cons;
    (destruct (m !! (done ++ [c])) as [[| |t]|];
     try (intros H _; apply (IH _ H); right; now destruct done)).
  - destruct rest; [intros [= <-] _; now destruct done | discriminate].
  - destruct rest as [|c' rest].
    + intros [= <-] _. now destruct done.
    + intros H _. apply (IHn _ _ H). left. now destruct t.
Qed.

(** Where nothing is stored, the walk keeps the components as they are. *)
Lemma realpath_from_under (q : path) :
  (forall k, q `prefix_of` k -> m !! k = None) ->
  forall fl n todo done,
    q `prefix_of` done ->
    realpath_from m fl n done todo = Some (done ++ todo).
Proof.
  intros Hnone fl n todo. induction todo as [|c rest IH]; intros done Hq.
  - now rewrite realpath_from_nil, app_nil_r.
  - rewrite realpath_from_cons, Hnone by now apply prefix_app_r.
    rewrite IH by now apply prefix_app_r. now rewrite <- app_assoc.
Qed.

(** If the path resolves to [q] and nothing at [q ++ [c]] is a link, the
    path extended by [c] resolves to [q ++ [c]]. *)
Lemma realpath_from_snoc fl n (done : path) todo q c :
  realpath_from m true n done todo = Some q ->
  (forall t, m !! (q ++ [c]) <> Some (Symlink t)) ->
  realpath_from m fl n done (todo ++ [c]) = Some (q ++ [c]).
Proof.
  intros H Hc. revert done todo H.
  induction n as [|n IHn]; intros done todo; revert done;
    (induction todo as [|d rest IH]; intros done;
     [ rewrite realpath_from_nil; intros [= <-]; cbn [app];
       rewrite realpath_from_cons;
       destruct (m !! (done ++ [c])) as [[| |t]|] eqn:E;
       try (now rewrite realpath_from_nil); now destruct (Hc t) |]);
    cbn [app]; rewrite !realpath_from_cons;
    (destruct (m !! (done ++ [d])) as [[| |t]|]; try apply IH).
  - destruct rest; discriminate.
  - intros H. assert (Hn : realpath_from m true n [] (t ++ rest) = Some q)
      by (destruct rest; exact H).
    apply IHn in Hn. rewrite <- app_assoc in Hn.
    destruct rest; cbn [app]; [destruct fl|]; exact Hn.
Qed.

(** A path that resolves without following its last component, to an
    entry that is not a link, resolves to the same place with it. *)
Lemma lrealpath_realpath n (done : path) todo q :
  realpath_from m false n done todo = Some q ->
  (forall t, m !! q <> Some (Symlink t)) ->
  realpath_from m true n done todo = Some q.
Proof.
  intros H Hq. revert done todo H.
  induction n as [|n IHn]; intros done todo; revert done;
    (induction todo as [|d rest IH]; intros done;
     [now rewrite !realpath_from_nil|]);
    rewrite !realpath_from_cons;
    (destruct (m !! (done ++ [d])) as [[| |t]|] eqn:E; try apply IH).
  - destruct rest; [intros [= <-]; now destruct (Hq t) | discriminate].
  - destruct rest; [intros [= <-]; now destruct (Hq t) | apply IHn].
Qed.
End Resolution.

(** Resolution only looks at which entries are links. *)
Lemma realpath_from_ext (m m' : gmap path node) :
  (forall k t, m !! k = Some (Symlink t) <-> m' !! k = Some (Symlink t)) ->
  forall fl n done todo,
    realpath_from m fl n done todo = realpath_from m' fl n done todo.
Proof.
  intros Hlinks fl n.
  induction n as [|n IHn]; intros done todo; revert done;
    (induction todo as [|c rest IH]; intros done;
     [now rewrite !realpath_from_nil|]);
    rewrite !realpath_from_cons;
    destruct (m !! (done ++ [c])) as [[| |t]|] eqn:E;
    destruct (m' !! (done ++ [c])) as [[| |t']|] eqn:E';
    try (apply Hlinks in E; congruence);
    try (apply Hlinks in E'; congruence);
    try apply IH.
  all: apply Hlinks in E; rewrite E in E'; injection E' as <-.
  all: destruct rest, fl; try reflexivity; apply IHn.
Qed.

(** The same facts for whole paths. *)
Lemma realpath_ext (m m' : gmap path node) (p : path) :
  (forall k t, m !! k = Some (Symlink t) <-> m' !! k = Some (Symlink t)) ->
  realpath m p = realpath m' p /\ lrealpath m p = lrealpath m' p.
Proof.
  intros H. unfold realpath, lrealpath.
  split; apply realpath_from_ext; exact H.
Qed.

Lemma realpath_snoc (m : gmap path node) (p q : path) (c : string) :
  realpath m p = Some q ->
  (forall t, m !! (q ++ [c]) <> Some (Symlink t)) ->
  realpath m (p ++ [c]) = Some (q ++ [c]).
Proof. unfold realpath. apply realpath_from_snoc. Qed.

Lemma lrealpath_to_realpath (m : gmap path node) (p q : path) :
  lrealpath m p = Some q ->
  (forall t, m !! q <> Some (Symlink t)) ->
  realpath m p = Some q.
Proof. unfold realpath, lrealpath. apply lrealpath_realpath. Qed.

Lemma lrealpath_nonempty (m : gmap path node) (p q : path) :
  lrealpath m p = Some q -> p <> [] -> q <> [].
Proof.
  unfold lrealpath. intros H Hp.
  apply (lrealpath_from_nonempty m _ _ _ _ H). now left.
Qed.

Lemma lrealpath_root (m : gmap path node) : lrealpath m [] = Some [].
Proof. unfold lrealpath. apply realpath_from_nil. Qed.

(* ===================================================================== *)
(** * Destroying a workspace *)
(* ===================================================================== *)

(** A string that starts with a slash is not accepted by [uuid.UUID]. *)
Lemma uuid_not_absolute (id : string) :
  is_Some (UUID id) -> startswith id "/" = false.
Proof.
  intros [Hc _]%uuid_chars. destruct id as [|c id]; [reflexivity|].
  cbn [startswith]. destruct (Ascii.eqb_spec "/" c) as [<-|]; [|reflexivity].
  cbn [all_chars] in Hc. apply andb_true_iff in Hc as [Hc _].
  discriminate Hc.
Qed.

Lemma workspace_path_nonempty (id : string) :
  is_Some (UUID id) -> joinpath WORK_DIR id <> [].
Proof.
  intros H. unfold joinpath. rewrite (uuid_not_absolute id H). discriminate.
Qed.

Section AfterRmtree.
Variables (m : gmap path node) (q : path).

Lemma removed_below k : q `prefix_of` k -> remove_tree q m !! k = None.
Proof.
  intros Hk. unfold remove_tree. apply map_lookup_filter_None. right. intros x _. cbn.
  unfold under. rewrite bool_decide_eq_true_2 by assumption. discriminate.
Qed.

Lemma kept_elsewhere k : ~ q `prefix_of` k -> remove_tree q m !! k = m !! k.
Proof.
  intros Hk. unfold remove_tree. destruct (m !! k) as [x|] eqn:E.
  - apply map_lookup_filter_Some. split; [assumption|]. cbn.
    unfold under. now rewrite bool_decide_eq_false_2.
  - apply map_lookup_filter_None. now left.
Qed.

(** Once everything at and below [q] is gone, a path that used to lead to
    [q] leads to a place at or below [q]. *)
Lemma realpath_after_rmtree n (done : path) todo :
  realpath_from m false n done todo = Some q ->
  exists r, realpath_from (remove_tree q m) true n done todo = Some r /\ q `prefix_of` r.
Proof.
  revert done todo.
  induction n as [|n IHn]; intros done todo; revert done;
    (induction todo as [|c rest IH]; intros done;
     [rewrite !realpath_from_nil; intros [= <-]; now exists done|]);
    rewrite !realpath_from_cons;
    (destruct (decide (q `prefix_of` done ++ [c])) as [Hq|Hq];
     [ intros _; rewrite removed_below by assumption;
       rewrite (realpath_from_under (remove_tree q m) q removed_below) by assumption;
       eexists; split; [reflexivity | now apply prefix_app_r]
     | rewrite kept_elsewhere by assumption;
       destruct (m !! (done ++ [c])) as [[| |t]|]; try apply IH ]).
  - destruct rest; [intros [= <-]; now destruct Hq | discriminate].
  - destruct rest; [intros [= <-]; now destruct Hq | apply IHn].
Qed.

Lemma follow_after_rmtree (p : path) :
  p <> [] -> lrealpath m p = Some q -> follow (remove_tree q m) p = None.
Proof.
  intros Hp Hl. unfold follow, realpath.
  destruct (realpath_after_rmtree _ _ _ Hl) as (r & -> & Hr).
  assert (Hq : q <> []) by (now apply (lrealpath_nonempty m p)).
  destruct r as [|c r]; [apply prefix_nil_inv in Hr; congruence|].
  cbn [node_at]. now rewrite removed_below.
Qed.
End AfterRmtree.



(* ===================================================================== *)
(** * Reading and listing *)
(* ===================================================================== *)

Ltac no_open H :=
  cbn [log add_log] in H; rewrite ?in_app_iff in H; cbn [In] in H;
  intuition discriminate.

(** C4 at the failing input.  [peek] in the workspace is a link to
    [notes.cha] in the sibling directory whose name is the workspace's
    followed by [-old]: the resolved path is not below the workspace, but
    its text starts with the text of the workspace's path, the prefix test
    passes, the foreign file is opened and its content is returned. *)
Lemma sibling_link_is_read :
  fs sibling_world !! ["webclan"; "work"; an_id; "peek"]
  = Some (Symlink ["webclan"; "work"; an_id +:+ "-old"; "notes.cha"])
  /\ realpath (fs sibling_world) (joinpath (joinpath WORK_DIR an_id) "peek")
     = Some ["webclan"; "work"; an_id +:+ "-old"; "notes.cha"]
  /\ realpath (fs sibling_world) (joinpath WORK_DIR an_id)
     = Some ["webclan"; "work"; an_id]
  /\ under ["webclan"; "work"; an_id]
           ["webclan"; "work"; an_id +:+ "-old"; "notes.cha"] = false
  /\ startswith
       (str_path ["webclan"; "work"; an_id +:+ "-old"; "notes.cha"])
       (str_path ["webclan"; "work"; an_id]) = true
  /\ fst (download_file an_id "peek" sibling_world)
     = inl (JObj [("unique_id", JStr an_id); ("filename", JStr "peek");
                  ("size", JNum 2); ("content", JText [104; 105])])
  /\ In (FsCall "open_r" ["webclan"; "work"; an_id; "peek"])
        (log (snd (download_file an_id "peek" sibling_world))).
Proof.
  do 6 (split; [vm_compute; reflexivity|]).
  vm_compute. do 5 right. left. reflexivity.
Qed.

(** The check does what its text says: when the text of the resolved file
    path does not start with the text of the resolved workspace path (as
    for a link in the workspace that leads to [/etc/passwd]), read fails
    with an HTTP error, changes nothing and never opens the file. *)
Lemma read_refuses_outside_prefix
    (id filename : string) (w : world) (file_resolved work_resolved : path) :
  realpath (fs w) (joinpath (joinpath WORK_DIR id) filename) = Some file_resolved ->
  realpath (fs w) (joinpath WORK_DIR id) = Some work_resolved ->
  startswith (str_path file_resolved) (str_path work_resolved) = false ->
  exists status detail w',
    download_file id filename w = (inr (HTTPException status detail), w')
    /\ fs w' = fs w
    /\ forall p, In (FsCall "open_r" p) (log w') -> In (FsCall "open_r" p) (log w).
Proof.
  intros Hf Hw Hp. unfold download_file.
  destruct (UUID id); [|do 3 eexists; repeat split; eauto].
  destruct (char_in "/" filename || char_in "092" filename || str_in ".." filename);
    [do 3 eexists; repeat split; eauto|].
  destruct (negb (re_match_class_plus filename_class filename));
    [do 3 eexists; repeat split; eauto|].
  unfold_os. known.
  repeat branch.
  all: do 3 eexists; split; [reflexivity|]; split; [reflexivity|].
  all: intros p H; no_open H.
Qed.

(** For the link to [/etc/passwd] the answer is 403. *)
Example read_link_to_passwd :
  fst (download_file an_id "peek" peek_world)
  = inr (HTTPException 403 "Failed to resolve file path").
Proof. vm_compute. reflexivity. Qed.

(** List makes no containment check at all.  For the link [peek] to
    [/etc/passwd] it calls [stat] through the link, on a path that resolves
    outside the workspace, and reports the size of the foreign file. *)
Lemma list_follows_link_out_of_workspace :
  In (FsCall "stat" ["webclan"; "work"; an_id; "peek"])
     (log (snd (list_files an_id peek_world)))
  /\ realpath (fs peek_world) ["webclan"; "work"; an_id; "peek"]
     = Some ["etc"; "passwd"]
  /\ realpath (fs peek_world) (joinpath WORK_DIR an_id)
     = Some ["webclan"; "work"; an_id]
  /\ under ["webclan"; "work"; an_id] ["etc"; "passwd"] = false
  /\ exists files,
       fst (list_files an_id peek_world)
       = inl (JObj [("unique_id", JStr an_id); ("files", JList files)])
       /\ In (JObj [("name", JStr "peek"); ("size", JNum 11);
                    ("type", JStr "file")]) files.
Proof.
  split; [vm_compute; right; right; left; reflexivity|].
  do 3 (split; [vm_compute; reflexivity|]).
  eexists. split; [vm_compute; reflexivity|].
  left. reflexivity.
Qed.

(* ===================================================================== *)
(** * Plain names *)
(* ===================================================================== *)

Lemma split_on_absent (sep : ascii) (s : string) :
  char_in sep s = false -> split_on sep s = [s].
Proof.
  induction s as [|c s IH]; [reflexivity|].
  cbn [char_in split_on]. intros [Hc Hs]%orb_false_iff.
  rewrite Ascii.eqb_sym, Hc, (IH Hs). reflexivity.
Qed.

Lemma joinpath_plain (p : path) (s : string) :
  char_in "/" s = false -> s <> "" -> s <> "." -> joinpath p s = p ++ [s].
Proof.
  intros Hs Hne Hdot. unfold joinpath, parts.
  rewrite (split_on_absent _ _ Hs). cbn [List.filter]. unfold is_part.
  apply String.eqb_neq in Hne, Hdot. rewrite Hne, Hdot. cbn [negb andb].
  destruct s as [|c s]; [reflexivity|].
  cbn [char_in] in Hs. apply orb_false_iff in Hs as [Hc _].
  cbn [startswith]. now rewrite Hc.
Qed.

Lemma validate_filename_plain (f : string) :
  validate_filename f = true ->
  char_in "/" f = false /\ f <> "" /\ f <> "."
  /\ char_in "/" f || char_in "092" f || str_in ".." f = false
  /\ re_match_class_plus filename_class f = true.
Proof.
  unfold validate_filename.
  destruct (negb (endswith (lower f) ALLOWED_EXTENSION)) eqn:E1; [discriminate|].
  destruct (char_in "/" f || char_in "092" f || str_in ".." f) eqn:E2; [discriminate|].
  destruct (re_match_class_plus filename_class f) eqn:E3; [|discriminate].
  intros _. apply orb_false_iff in E2 as [[H1 _]%orb_false_iff _].
  repeat split; try assumption.
  - intros ->. discriminate E3.
  - intros ->. discriminate E1.
Qed.

Lemma canonical_plain (s : string) :
  is_canonical_uuid s = true -> char_in "/" s = false /\ s <> "" /\ s <> ".".
Proof.
  intros Hs. destruct (canonical_chars s Hs) as [Hall Hne].
  repeat split; [|assumption|intros ->; discriminate Hs].
  now apply (char_in_absent hex_or_hyphen).
Qed.

Lemma fold_path_snoc (l : path) (c : string) :
  fold_right (fun c acc => "/" +:+ c +:+ acc) "" (l ++ [c])
  = fold_right (fun c acc => "/" +:+ c +:+ acc) "" l +:+ "/" +:+ c.
Proof.
  induction l as [|x l IH]; cbn [app fold_right].
  - now rewrite app_empty_r.
  - rewrite IH. now rewrite !app_assoc_str.
Qed.

Lemma str_path_snoc (q : path) (c : string) :
  q <> [] -> str_path (q ++ [c]) = str_path q +:+ "/" +:+ c.
Proof.
  intros Hq. destruct q as [|d q]; [congruence|].
  unfold str_path. rewrite <- fold_path_snoc. reflexivity.
Qed.

(* ===================================================================== *)
(** * What the calls do to the file system *)
(* ===================================================================== *)

Lemma node_at_lookup (m : gmap path node) (k : path) :
  k <> [] -> node_at m k = m !! k.
Proof. destruct k; [congruence | reflexivity]. Qed.

Lemma make_dir_keeps (a : path) (m : gmap path node) k x :
  m !! k = Some x -> make_dir a m !! k = Some x.
Proof.
  intros Hk. unfold make_dir. destruct (node_at m a) eqn:E; [assumption|].
  rewrite lookup_insert_ne; [assumption|]. intros ->.
  destruct k; [discriminate E | cbn in E; congruence].
Qed.

Lemma make_dir_new (a : path) (m : gmap path node) k x :
  make_dir a m !! k = Some x ->
  m !! k = Some x \/ (x = Dir /\ k = a /\ m !! k = None).
Proof.
  unfold make_dir. destruct (node_at m a) eqn:E; [auto|].
  destruct (decide (a = k)) as [->|Hne].
  - rewrite lookup_insert_eq. intros [= <-]. right. repeat split.
    destruct k; [discriminate E | exact E].
  - rewrite lookup_insert_ne by assumption. auto.
Qed.

Lemma make_dirs_keep (ps : list path) (m : gmap path node) k x :
  m !! k = Some x -> foldr make_dir m ps !! k = Some x.
Proof.
  intros Hk. induction ps as [|a ps IH]; [assumption|].
  now apply make_dir_keeps.
Qed.

Lemma make_dirs_new (ps : list path) (m : gmap path node) k x :
  foldr make_dir m ps !! k = Some x ->
  m !! k = Some x \/ (x = Dir /\ In k ps /\ m !! k = None).
Proof.
  induction ps as [|a ps IH]; [auto|]. cbn [foldr].
  intros [H|(-> & -> & H)]%make_dir_new.
  - destruct (IH H) as [|(? & ? & ?)]; [auto|]. right. repeat split; auto.
    now right.
  - right. repeat split; [now left|].
    destruct (m !! a) eqn:E; [|reflexivity].
    apply (make_dirs_keep ps) in E. congruence.
Qed.

Lemma make_dir_self (k : path) (m : gmap path node) :
  k <> [] ->
  make_dir k m !! k = match m !! k with Some x => Some x | None => Some Dir end.
Proof.
  intros Hk. unfold make_dir. destruct k as [|c k]; [congruence|].
  cbn [node_at]. destruct (m !! (c :: k)) eqn:E; [assumption|].
  apply lookup_insert_eq.
Qed.

Lemma make_dirs_made (ps : list path) (m : gmap path node) k :
  In k ps -> k <> [] -> m !! k = None -> foldr make_dir m ps !! k = Some Dir.
Proof.
  intros Hin Hk Hm. induction ps as [|a ps IH]; [destruct Hin|].
  cbn [foldr]. destruct Hin as [->|Hin].
  - rewrite make_dir_self by assumption.
    destruct (foldr make_dir m ps !! k) as [x|] eqn:E; [|reflexivity].
    apply make_dirs_new in E as [E|(-> & _)]; [congruence | reflexivity].
  - apply make_dir_keeps. now apply IH.
Qed.

Lemma make_dirs_links (ps : list path) (m : gmap path node) k t :
  m !! k = Some (Symlink t) <-> foldr make_dir m ps !! k = Some (Symlink t).
Proof.
  split; [apply make_dirs_keep|].
  intros [H|(? & _)]%make_dirs_new; [assumption | discriminate].
Qed.

Lemma prefixes_from_last (done : path) (todo : list string) :
  todo <> [] -> In (done ++ todo) (prefixes_from done todo).
Proof.
  revert done. induction todo as [|c rest IH]; intros done Hne; [congruence|].
  cbn [prefixes_from]. destruct rest as [|d rest]; [now left|].
  right. change (done ++ c :: d :: rest) with (done ++ [c] ++ d :: rest).
  rewrite (app_assoc done [c] (d :: rest)). now apply IH.
Qed.

Lemma prefixes_from_length (done : path) (todo : list string) k :
  In k (prefixes_from done todo) -> (length k <= length done + length todo)%nat.
Proof.
  revert done. induction todo as [|c rest IH]; intros done; [intros []|].
  cbn [prefixes_from In length]. intros [<-|H].
  - rewrite length_app. cbn. lia.
  - apply IH in H. rewrite length_app in H. cbn in H. lia.
Qed.

Ltac outcome H :=
  let Hfst := fresh "Hfst" in
  let Hsnd := fresh "Hsnd" in
  pose proof (f_equal fst H) as Hfst; cbn [fst] in Hfst;
  try discriminate Hfst;
  pose proof (f_equal snd H) as Hsnd; cbn [snd] in Hsnd.

Lemma path_mkdir_ok (p : path) (w w1 : world) :
  path_mkdir p w = (inl tt, w1) ->
  exists q, lrealpath (fs w) p = Some q /\ node_at (fs w) q = None
            /\ w1 = set_fs (foldr make_dir (fs w) (ancestors_and_self q))
                      (add_log (FsCall "mkdir" p) w).
Proof.
  unfold path_mkdir. unfold_os.
  destruct (lrealpath (fs w) p) as [q|]; unfold_os; [|intros H; outcome H].
  destruct (node_at (fs w) q) eqn:E; unfold_os; [intros H; outcome H|].
  destruct (forallb _ _); unfold_os; [|intros H; outcome H].
  destruct (existsb _ _); unfold_os; intros H; outcome H.
  exists q. auto.
Qed.

(** A directory made by [mkdir] is there, is found again by resolution, and
    is empty when it was made in a well-formed file system. *)
Lemma made_directory (m : gmap path node) (p q : path) :
  lrealpath m p = Some q -> node_at m q = None ->
  let m1 := foldr make_dir m (ancestors_and_self q) in
  q <> [] /\ m1 !! q = Some Dir
  /\ (forall k t, m !! k = Some (Symlink t) <-> m1 !! k = Some (Symlink t))
  /\ (forall c, m !! (q ++ [c]) = None -> m1 !! (q ++ [c]) = None).
Proof.
  intros Hl Hq m1.
  assert (Hne : q <> []) by (intros ->; discriminate Hq).
  assert (Hmq : m !! q = None) by (destruct q; [congruence | exact Hq]).
  repeat split; [assumption| | | |].
  - apply make_dirs_made; [|assumption..].
    apply (prefixes_from_last [] q Hne).
  - apply make_dirs_links.
  - apply make_dirs_links.
  - intros c Hc. destruct (m1 !! (q ++ [c])) as [x|] eqn:E; [|reflexivity].
    apply make_dirs_new in E as [E|(_ & Hin & _)]; [congruence|].
    apply prefixes_from_length in Hin. rewrite length_app in Hin. cbn in Hin. lia.
Qed.

(** Storing a file where there was none, or a file, changes no link. *)
Lemma insert_file_links (m : gmap path node) (t : path) (f : node) :
  (forall tgt, f <> Symlink tgt) ->
  (forall tgt, m !! t <> Some (Symlink tgt)) ->
  forall k tgt,
    m !! k = Some (Symlink tgt) <-> <[t := f]> m !! k = Some (Symlink tgt).
Proof.
  intros Hf Hm k tgt. destruct (decide (t = k)) as [<-|Hk].
  - rewrite lookup_insert_eq. split; [intros H; now destruct (Hm tgt)|].
    intros [= ->]. now destruct (Hf tgt).
  - now rewrite lookup_insert_ne.
Qed.

Lemma write_bytes_cases (p : path) (content : list Z) (w : world) r w2 :
  write_bytes p content w = (r, w2) ->
  (exists e, r = inr e /\ fs w2 = fs w)
  \/ exists t stored x,
       realpath (fs w) p = Some t
       /\ node_at (fs w) (removelast t) = Some Dir
       /\ (fs w !! t = None \/ exists c0 x0, fs w !! t = Some (File c0 x0))
       /\ fs w2 = <[t := File stored x]> (fs w)
       /\ (forall u, r = inl u -> stored = content).
Proof.
  unfold write_bytes. unfold_os.
  destruct (os_refuses w "open_wb" p); unfold_os;
    [intros H; outcome H; left; subst; eauto|].
  destruct (realpath (fs w) p) as [t|]; unfold_os;
    [|intros H; outcome H; left; subst; eauto].
  destruct (node_at (fs w) (removelast t)) as [[]|] eqn:Ep; unfold_os;
    try (intros H; outcome H; left; subst; eauto; fail).
  destruct (fs w !! t) as [[]|] eqn:Et; unfold_os;
    try (intros H; outcome H; left; subst; eauto; fail).
  all: destruct (Z.of_nat (length content) <=? disk_free w); unfold_os;
    intros H; outcome H; right; subst; do 3 eexists;
    (split; [reflexivity|]); (split; [exact Ep|]);
    (split; [eauto|]); (split; [reflexivity|]);
    intros u; try discriminate; reflexivity.
Qed.

Lemma shutil_rmtree_ok (p q : path) (w : world) :
  os_refuses w "rmtree" p = false ->
  lrealpath (fs w) p = Some q -> fs w !! q = Some Dir ->
  shutil_rmtree p w
  = (inl tt, set_fs (remove_tree q (fs w)) (add_log (FsCall "rmtree" p) w)).
Proof.
  intros Hr Hl Hq. unfold shutil_rmtree. unfold_os. rewrite Hr, Hl. unfold_os.
  now rewrite Hq.
Qed.

Lemma shutil_rmtree_refused (p : path) (w : world) :
  os_refuses w "rmtree" p = true ->
  shutil_rmtree p w = (inr OSError, add_log (FsCall "rmtree" p) w).
Proof.
  intros Hr. unfold shutil_rmtree. unfold_os. now rewrite Hr.
Qed.

(** The calls change neither what the system refuses nor, apart from the
    write, the free space. *)
Lemma path_mkdir_refuses (p : path) (w : world) :
  os_refuses (snd (path_mkdir p w)) = os_refuses w.
Proof.
  unfold path_mkdir. unfold_os.
  destruct (lrealpath (fs w) p); unfold_os; [|reflexivity].
  destruct (node_at (fs w) _); unfold_os; [reflexivity|].
  destruct (forallb _ _); [|reflexivity].
  destruct (existsb _ _); reflexivity.
Qed.

Lemma write_bytes_refuses (p : path) (content : list Z) (w : world) :
  os_refuses (snd (write_bytes p content w)) = os_refuses w.
Proof.
  unfold write_bytes. unfold_os.
  destruct (os_refuses w "open_wb" p); unfold_os; [reflexivity|].
  destruct (realpath (fs w) p) as [t|]; unfold_os; [|reflexivity].
  destruct (node_at (fs w) (removelast t)) as [[]|]; unfold_os;
    try reflexivity.
  destruct (fs w !! t) as [[]|]; unfold_os; try reflexivity.
  all: destruct (Z.of_nat (length content) <=? disk_free w); reflexivity.
Qed.

(* ===================================================================== *)
(** * The UTF-8 codec *)
(* ===================================================================== *)

Lemma cont_range (b : Z) : cont b = true -> 0x80 <= b <= 0xBF.
Proof. unfold cont. lia. Qed.

Lemma encode_one (c : Z) : 0 <= c < 0x80 -> utf8_encode_char c = [c].
Proof.
  intros H. unfold utf8_encode_char.
  destruct (Z.ltb_spec c 0x80); [reflexivity | lia].
Qed.

Lemma encode_two (b0 b1 : Z) :
  0xC2 <= b0 <= 0xDF -> 0x80 <= b1 <= 0xBF ->
  utf8_encode_char ((b0 - 0xC0) * 64 + (b1 - 0x80)) = [b0; b1].
Proof.
  intros H0 H1. unfold utf8_encode_char.
  set (c := (b0 - 0xC0) * 64 + (b1 - 0x80)).
  destruct (Z.ltb_spec c 0x80); [lia|].
  destruct (Z.ltb_spec c 0x800); [|lia].
  assert (c / 64 = b0 - 0xC0 /\ c mod 64 = b1 - 0x80) as [-> ->]
    by (unfold c; Z.div_mod_to_equations; lia).
  f_equal; [lia | f_equal; lia].
Qed.

Lemma encode_three (b0 b1 b2 : Z) :
  0xE0 <= b0 <= 0xEF -> 0x80 <= b1 <= 0xBF -> 0x80 <= b2 <= 0xBF ->
  (b0 = 0xE0 -> 0xA0 <= b1) ->
  utf8_encode_char (((b0 - 0xE0) * 64 + (b1 - 0x80)) * 64 + (b2 - 0x80))
  = [b0; b1; b2].
Proof.
  intros H0 H1 H2 Hlow. unfold utf8_encode_char.
  set (c := ((b0 - 0xE0) * 64 + (b1 - 0x80)) * 64 + (b2 - 0x80)).
  destruct (Z.ltb_spec c 0x80); [lia|].
  destruct (Z.ltb_spec c 0x800); [lia|].
  destruct (Z.ltb_spec c 0x10000); [|lia].
  assert (c / 4096 = b0 - 0xE0 /\ (c / 64) mod 64 = b1 - 0x80
          /\ c mod 64 = b2 - 0x80) as (-> & -> & ->)
    by (unfold c; Z.div_mod_to_equations; lia).
  repeat (f_equal; try lia).
Qed.

Lemma encode_four (b0 b1 b2 b3 : Z) :
  0xF0 <= b0 <= 0xF4 -> 0x80 <= b1 <= 0xBF -> 0x80 <= b2 <= 0xBF ->
  0x80 <= b3 <= 0xBF -> (b0 = 0xF0 -> 0x90 <= b1) ->
  utf8_encode_char
    ((((b0 - 0xF0) * 64 + (b1 - 0x80)) * 64 + (b2 - 0x80)) * 64 + (b3 - 0x80))
  = [b0; b1; b2; b3].
Proof.
  intros H0 H1 H2 H3 Hlow. unfold utf8_encode_char.
  set (c := (((b0 - 0xF0) * 64 + (b1 - 0x80)) * 64 + (b2 - 0x80)) * 64
            + (b3 - 0x80)).
  destruct (Z.ltb_spec c 0x80); [lia|].
  destruct (Z.ltb_spec c 0x800); [lia|].
  destruct (Z.ltb_spec c 0x10000); [lia|].
  assert (c / 262144 = b0 - 0xF0 /\ (c / 4096) mod 64 = b1 - 0x80
          /\ (c / 64) mod 64 = b2 - 0x80 /\ c mod 64 = b3 - 0x80)
    as (-> & -> & -> & ->)
    by (unfold c; Z.div_mod_to_equations; lia).
  repeat (f_equal; try lia).
Qed.

(** The shape of a successful decoding: the first code point with the
    bytes it was read from, and the rest. *)
Lemma utf8_decode_step (bs : list Z) (text : list Z) :
  utf8_decode bs = Some text ->
  bs = [] /\ text = []
  \/ exists c chunk rest text',
       bs = chunk ++ rest /\ text = c :: text' /\ chunk <> []
       /\ utf8_decode rest = Some text'
       /\ utf8_encode_char c = chunk
       /\ (c = 13 -> chunk = [13]).
Proof.
  destruct bs as [|b0 r1]; [intros [= <-]; now left|].
  cbn [utf8_decode]. intros H. right.
  destruct ((0 <=? b0) && (b0 <? 0x80)) eqn:E1.
  { destruct (utf8_decode r1) as [t'|] eqn:Er; [|discriminate].
    injection H as <-. exists b0, [b0], r1, t'.
    repeat split; try easy; [apply encode_one; lia | now intros ->]. }
  destruct ((0xC2 <=? b0) && (b0 <=? 0xDF)) eqn:E2.
  { destruct r1 as [|b1 r2]; [discriminate|].
    destruct (cont b1) eqn:C1; [|discriminate]. apply cont_range in C1.
    destruct (utf8_decode r2) as [t'|] eqn:Er; [|discriminate].
    injection H as <-. eexists _, [b0; b1], r2, t'.
    repeat split; try easy; [apply encode_two; lia | lia]. }
  destruct ((0xE0 <=? b0) && (b0 <=? 0xEF)) eqn:E3.
  { destruct r1 as [|b1 [|b2 r3]]; try discriminate.
    destruct (cont b1 && cont b2 && (negb (b0 =? 0xE0) || (0xA0 <=? b1))
              && (negb (b0 =? 0xED) || (b1 <=? 0x9F))) eqn:C; [|discriminate].
    apply andb_true_iff in C as [[[C1 C2]%andb_true_iff L]%andb_true_iff _].
    apply cont_range in C1, C2.
    destruct (utf8_decode r3) as [t'|] eqn:Er; [|discriminate].
    injection H as <-. eexists _, [b0; b1; b2], r3, t'.
    repeat split; try easy; [apply encode_three; lia | lia]. }
  destruct ((0xF0 <=? b0) && (b0 <=? 0xF4)) eqn:E4; [|discriminate].
  destruct r1 as [|b1 [|b2 [|b3 r4]]]; try discriminate.
  destruct (cont b1 && cont b2 && cont b3
            && (negb (b0 =? 0xF0) || (0x90 <=? b1))
            && (negb (b0 =? 0xF4) || (b1 <=? 0x8F))) eqn:C; [|discriminate].
  apply andb_true_iff in C
    as [[[[C1 C2]%andb_true_iff C3]%andb_true_iff L]%andb_true_iff _].
  apply cont_range in C1, C2, C3.
  destruct (utf8_decode r4) as [t'|] eqn:Er; [|discriminate].
  injection H as <-. eexists _, [b0; b1; b2; b3], r4, t'.
  repeat split; try easy; [apply encode_four; lia | lia].
Qed.

(** Encoding a decoded text gives the bytes back, and a carriage return in
    the text comes from a carriage-return byte. *)
Lemma utf8_decode_encode (bs text : list Z) :
  utf8_decode bs = Some text ->
  utf8_encode text = bs /\ (In 13 text -> In 13 bs).
Proof.
  remember (length bs) as n eqn:Hn. revert bs text Hn.
  induction n as [n IH] using lt_wf_ind. intros bs text -> H.
  destruct (utf8_decode_step bs text H)
    as [[-> ->]|(c & chunk & rest & text' & -> & -> & Hne & Hr & Hc & H13)].
  - split; [reflexivity | intros []].
  - assert (Hlen : (length rest < length (chunk ++ rest))%nat).
    { rewrite length_app. destruct chunk; [congruence | cbn; lia]. }
    destruct (IH _ Hlen rest text' eq_refl Hr) as [He Hin].
    split.
    + unfold utf8_encode in *. cbn [map concat]. now rewrite Hc, He.
    + intros [->|Hi]; apply in_or_app.
      * left. rewrite (H13 eq_refl). now left.
      * right. now apply Hin.
Qed.

Lemma universal_newlines_without_cr (text : list Z) :
  ~ In 13 text -> universal_newlines text = text.
Proof.
  induction text as [|c text IH]; [reflexivity|].
  intros Hn. cbn [universal_newlines].
  destruct (Z.eqb_spec c 13) as [->|_]; [destruct Hn; now left|].
  rewrite IH; [reflexivity|]. intros Hi. apply Hn. now right.
Qed.

(* ===================================================================== *)
(** * Creating a workspace *)
(* ===================================================================== *)

(** [upload_file] on an input that passes its three checks, in terms of the
    calls it makes. *)
Lemma upload_file_valid (fresh filename : string) (body : list Z) (w : world) :
  validate_filename filename = true ->
  Z.of_nat (length body) <= MAX_FILE_SIZE ->
  validate_file_content body = true ->
  upload_file fresh filename body w
  = match path_mkdir (joinpath WORK_DIR fresh) w with
    | (inl _, w1) =>
      match write_bytes (joinpath (joinpath WORK_DIR fresh) filename) body w1 with
      | (inl _, w2) =>
        (inl (JObj [("unique_id", JStr fresh);
                    ("filename", JStr filename);
                    ("size", JNum (Z.of_nat (length body)));
                    ("path", JStr (str_path (joinpath (joinpath WORK_DIR fresh)
                                                      filename)))]), w2)
      | (inr _, w2) =>
        (inr (HTTPException 500 "Failed to save file"),
         snd (shutil_rmtree (joinpath WORK_DIR fresh) w2))
      end
    | (inr FileExistsError, w1) =>
      (inr (HTTPException 500 "Failed to create unique workspace"), w1)
    | (inr e, w1) => (inr e, w1)
    end.
Proof.
  intros Hf Hs Hc. unfold upload_file.
  destruct (validate_filename_plain filename Hf) as (_ & Hne & _).
  apply String.eqb_neq in Hne. rewrite Hne, Hf, Hc. cbn [negb orb].
  destruct (Z.gtb_spec (Z.of_nat (length body)) MAX_FILE_SIZE); [lia|].
  unfold bind, try_except, ret, raise.
  destruct (path_mkdir (joinpath WORK_DIR fresh) w) as [[[]|e] w1];
    [|destruct e; reflexivity].
  destruct (write_bytes _ body w1) as [[[]|e] w2]; [reflexivity|].
  destruct (shutil_rmtree (joinpath WORK_DIR fresh) w2) as [[[]|e'] w3];
    reflexivity.
Qed.

Lemma upload_file_ok_valid (fresh filename : string) (body : list Z)
    (w w' : world) (resp : json) :
  upload_file fresh filename body w = (inl resp, w') ->
  validate_filename filename = true
  /\ Z.of_nat (length body) <= MAX_FILE_SIZE
  /\ validate_file_content body = true.
Proof.
  unfold upload_file.
  destruct (String.eqb filename "" || negb (validate_filename filename)) eqn:E1;
    [intros Hrun; outcome Hrun|].
  destruct (Z.gtb_spec (Z.of_nat (length body)) MAX_FILE_SIZE);
    [intros Hrun; outcome Hrun|].
  destruct (validate_file_content body); [|intros Hrun; outcome Hrun].
  apply orb_false_iff in E1 as [_ E1]. apply negb_false_iff in E1.
  intros _. repeat split; [assumption | lia].
Qed.

(** C10.  A successful upload answers with the identifier, the file name,
    the size, and the path of the stored file on the server: the workspace
    root joined with the identifier and the file name. *)
Theorem upload_response_has_server_path (fresh filename : string)
    (body : list Z) (w w' : world) (resp : json) :
  upload_file fresh filename body w = (inl resp, w') ->
  resp = JObj [("unique_id", JStr fresh);
               ("filename", JStr filename);
               ("size", JNum (Z.of_nat (length body)));
               ("path", JStr (str_path (joinpath (joinpath WORK_DIR fresh)
                                                 filename)))]
  /\ (is_canonical_uuid fresh = true ->
      str_path (joinpath (joinpath WORK_DIR fresh) filename)
      = "/webclan/work/" +:+ fresh +:+ "/" +:+ filename).
Proof.
  intros H. destruct (upload_file_ok_valid _ _ _ _ _ _ H) as (Hf & Hs & Hc).
  split.
  - rewrite (upload_file_valid _ _ _ _ Hf Hs Hc) in H.
    destruct (path_mkdir _ w) as [[[]|e] w1]; [|destruct e; outcome H].
    destruct (write_bytes _ body w1) as [[[]|e] w2]; outcome H. congruence.
  - intros Hid.
    destruct (canonical_plain fresh Hid) as (H1 & H2 & H3).
    destruct (validate_filename_plain filename Hf) as (H4 & H5 & H6 & _).
    rewrite !joinpath_plain by assumption.
    unfold str_path, WORK_DIR. cbn [app fold_right].
    now rewrite app_empty_r.
Qed.

Lemma upload_response_has_server_path_witness :
  upload_file an_id "chip.cha" [97; 32; 98] empty_world
  = (inl (JObj [("unique_id", JStr an_id);
                ("filename", JStr "chip.cha");
                ("size", JNum 3);
                ("path", JStr "/webclan/work/123e4567-e89b-12d3-a456-426614174000/chip.cha")]),
     snd (upload_file an_id "chip.cha" [97; 32; 98] empty_world))
  /\ JObj [("unique_id", JStr an_id);
           ("filename", JStr "chip.cha");
           ("size", JNum 3);
           ("path", JStr "/webclan/work/123e4567-e89b-12d3-a456-426614174000/chip.cha")]
     = JObj [("unique_id", JStr an_id);
             ("filename", JStr "chip.cha");
             ("size", JNum (Z.of_nat (length [97; 32; 98])));
             ("path", JStr (str_path (joinpath (joinpath WORK_DIR an_id)
                                               "chip.cha")))]
  /\ (is_canonical_uuid an_id = true ->
      str_path (joinpath (joinpath WORK_DIR an_id) "chip.cha")
      = "/webclan/work/" +:+ an_id +:+ "/" +:+ "chip.cha").
Proof.
  assert (Hrun : upload_file an_id "chip.cha" [97; 32; 98] empty_world
                 = (inl (JObj [("unique_id", JStr an_id);
                               ("filename", JStr "chip.cha");
                               ("size", JNum 3);
                               ("path", JStr "/webclan/work/123e4567-e89b-12d3-a456-426614174000/chip.cha")]),
                    snd (upload_file an_id "chip.cha" [97; 32; 98] empty_world))).
  { rewrite (surjective_pairing (upload_file _ _ _ _)) at 1.
    f_equal; vm_compute; reflexivity. }
  split; [exact Hrun|].
  exact (upload_response_has_server_path _ _ _ _ _ _ Hrun).
Defined.

(** C7, as the code has it.  When the directory was made and writing the
    file into it fails, [upload_file] calls [rmtree] on the directory,
    ignoring its errors, before it answers 500.  When the system does not
    refuse the removal nothing is left of the workspace: its path does not
    exist, and no entry at or below the place where it was made remains.
    When the system refuses the removal too, the error is dropped and the
    directory stays as the write left it. *)
Theorem failed_write_rolls_back (fresh filename : string) (body : list Z)
    (w w1 w2 : world) (e : exn) :
  validate_filename filename = true ->
  Z.of_nat (length body) <= MAX_FILE_SIZE ->
  validate_file_content body = true ->
  path_mkdir (joinpath WORK_DIR fresh) w = (inl tt, w1) ->
  write_bytes (joinpath (joinpath WORK_DIR fresh) filename) body w1 = (inr e, w2) ->
  exists w',
    upload_file fresh filename body w
    = (inr (HTTPException 500 "Failed to save file"), w')
    /\ In (FsCall "rmtree" (joinpath WORK_DIR fresh)) (log w')
    /\ (os_refuses w "rmtree" (joinpath WORK_DIR fresh) = false ->
        follow (fs w') (joinpath WORK_DIR fresh) = None
        /\ forall q, lrealpath (fs w) (joinpath WORK_DIR fresh) = Some q ->
                     forall k, q `prefix_of` k -> fs w' !! k = None)
    /\ (os_refuses w "rmtree" (joinpath WORK_DIR fresh) = true ->
        fs w' = fs w2
        /\ follow (fs w') (joinpath WORK_DIR fresh) = Some Dir).
Proof.
  intros Hf Hs Hc Hmk Hwr.
  rewrite (upload_file_valid _ _ _ _ Hf Hs Hc), Hmk, Hwr.
  set (work := joinpath WORK_DIR fresh) in *.
  assert (Hsame : os_refuses w2 = os_refuses w).
  { pose proof (write_bytes_refuses (joinpath work filename) body w1) as H2.
    pose proof (path_mkdir_refuses work w) as H1.
    rewrite Hwr in H2. rewrite Hmk in H1. cbn [snd] in H1, H2.
    rewrite H2. exact H1. }
  destruct (path_mkdir_ok _ _ _ Hmk) as (q & Hl & Hq & ->).
  destruct (made_directory _ _ _ Hl Hq) as (Hne & Hdir & Hres & _).
  set (m1 := foldr make_dir (fs w) (ancestors_and_self q)) in *.
  assert (Hl1 : lrealpath m1 work = Some q)
    by (rewrite <- (proj2 (realpath_ext _ _ work Hres)); exact Hl).
  assert (Hl2 : lrealpath (fs w2) work = Some q /\ fs w2 !! q = Some Dir).
  { destruct (write_bytes_cases _ _ _ _ _ Hwr)
      as [(e' & _ & ->)|(t & stored & x & Ht & _ & Hold & -> & _)];
      cbn [fs set_fs add_log] in *.
    - split; assumption.
    - assert (Htq : t <> q)
        by (intros ->; destruct Hold as [Ho|(? & ? & Ho)]; congruence).
      split; [|now rewrite lookup_insert_ne].
      rewrite <- Hl1. symmetry. apply realpath_ext.
      apply insert_file_links; [discriminate|].
      intros tgt. destruct Hold as [Ho|(? & ? & Ho)]; rewrite Ho; discriminate. }
  destruct Hl2 as [Hl2 Hq2].
  destruct (os_refuses w "rmtree" work) eqn:Hr.
  - rewrite (shutil_rmtree_refused work w2) by (rewrite Hsame; exact Hr).
    cbn [snd]. eexists. split; [reflexivity|]. cbn [fs log add_log].
    split; [apply in_or_app; right; now left|].
    split; [discriminate|]. intros _. split; [reflexivity|].
    unfold follow. rewrite (lrealpath_to_realpath _ _ q Hl2).
    + rewrite node_at_lookup by exact Hne. now rewrite Hq2.
    + rewrite Hq2. discriminate.
  - rewrite (shutil_rmtree_ok work q w2) by
      (first [rewrite Hsame; exact Hr | exact Hl2 | exact Hq2]).
    cbn [snd]. eexists. split; [reflexivity|]. cbn [fs log set_fs add_log].
    split; [apply in_or_app; right; now left|].
    split; [|discriminate]. intros _. split.
    + apply follow_after_rmtree; [|exact Hl2].
      intros Hw. rewrite Hw, lrealpath_root in Hl. congruence.
    + intros q' Hq' k Hk. assert (q' = q) as -> by congruence.
      now apply removed_below.
Qed.

Lemma failed_write_rolls_back_witness :
  exists w',
    upload_file an_id "chip.cha" [97; 32; 98] full_disk_world
    = (inr (HTTPException 500 "Failed to save file"), w')
    /\ In (FsCall "rmtree" (joinpath WORK_DIR an_id)) (log w')
    /\ (os_refuses full_disk_world "rmtree" (joinpath WORK_DIR an_id) = false ->
        follow (fs w') (joinpath WORK_DIR an_id) = None
        /\ forall q, lrealpath (fs full_disk_world) (joinpath WORK_DIR an_id)
                     = Some q ->
                     forall k, q `prefix_of` k -> fs w' !! k = None)
    /\ (os_refuses full_disk_world "rmtree" (joinpath WORK_DIR an_id) = true ->
        fs w'
        = fs (snd (write_bytes (joinpath (joinpath WORK_DIR an_id) "chip.cha")
                     [97; 32; 98]
                     (snd (path_mkdir (joinpath WORK_DIR an_id) full_disk_world))))
        /\ follow (fs w') (joinpath WORK_DIR an_id) = Some Dir).
Proof.
  apply (failed_write_rolls_back an_id "chip.cha" [97; 32; 98] full_disk_world
           (snd (path_mkdir (joinpath WORK_DIR an_id) full_disk_world))
           (snd (write_bytes (joinpath (joinpath WORK_DIR an_id) "chip.cha")
                   [97; 32; 98]
                   (snd (path_mkdir (joinpath WORK_DIR an_id) full_disk_world))))
           OSError).
  - reflexivity.
  - vm_compute. discriminate.
  - reflexivity.
  - rewrite (surjective_pairing (path_mkdir _ _)) at 1.
    f_equal; vm_compute; reflexivity.
  - rewrite (surjective_pairing (write_bytes _ _ _)) at 1.
    f_equal; vm_compute; reflexivity.
Defined.

(** C7, as the specification words it, does not hold: on a system with no
    file descriptor left the write fails and so does the removal, whose
    error is ignored; the answer is 500 and the workspace that was made is
    still there, and list shows it. *)
Lemma failed_rollback_leaves_workspace :
  fst (upload_file an_id "chip.cha" [97; 32; 98] starved_world)
  = inr (HTTPException 500 "Failed to save file")
  /\ follow (fs (snd (upload_file an_id "chip.cha" [97; 32; 98] starved_world)))
            (joinpath WORK_DIR an_id) = Some Dir
  /\ fst (list_files an_id
            (snd (upload_file an_id "chip.cha" [97; 32; 98] starved_world)))
     = inl (JObj [("unique_id", JStr an_id); ("files", JList [])]).
Proof. vm_compute. repeat split. Qed.

(* ===================================================================== *)
(** * Upload, then read *)
(* ===================================================================== *)

(** C3, as the code has it.  After a successful upload of [body] under a
    valid file name, reading that name from the new workspace succeeds and
    returns the text that [body] decodes to, with every [\r\n] and every
    lone [\r] turned into [\n] (the file is read in text mode).  The bytes
    of the decoded text are [body], so the returned text is byte-identical
    to [body] whenever [body] holds no carriage-return byte. *)
Theorem upload_then_read (fresh filename : string) (body : list Z)
    (w w' : world) (resp : json) :
  well_formed (fs w) ->
  is_canonical_uuid fresh = true ->
  upload_file fresh filename body w = (inl resp, w') ->
  exists text w'',
    utf8_decode body = Some text
    /\ utf8_encode text = body
    /\ download_file fresh filename w'
       = (inl (JObj [("unique_id", JStr fresh);
                     ("filename", JStr filename);
                     ("size", JNum (Z.of_nat (length
                        (utf8_encode (universal_newlines text)))));
                     ("content", JText (universal_newlines text))]), w'')
    /\ (~ In 13 body -> utf8_encode (universal_newlines text) = body).
Proof.
  intros Hwf Hid Hup.
  destruct (upload_file_ok_valid _ _ _ _ _ _ Hup) as (Hf & Hs & Hc).
  rewrite (upload_file_valid _ _ _ _ Hf Hs Hc) in Hup.
  destruct (path_mkdir _ w) as [[[]|e] w1] eqn:Hmk; [|destruct e; outcome Hup].
  destruct (write_bytes _ body w1) as [[[]|e] w2] eqn:Hwr; outcome Hup.
  subst w2. clear Hup Hfst.
  destruct (canonical_plain fresh Hid) as (P1 & P2 & P3).
  destruct (validate_filename_plain filename Hf) as (P4 & P5 & P6 & Hsep & Hre).
  pose proof (joinpath_plain (joinpath WORK_DIR fresh) filename P4 P5 P6) as Hfile.
  set (work := joinpath WORK_DIR fresh) in *.
  set (file := joinpath work filename) in *.
  destruct (path_mkdir_ok _ _ _ Hmk) as (q & Hl & Hq & ->).
  destruct (made_directory _ _ _ Hl Hq) as (Hne & Hdir & Hres & Hempty).
  set (m1 := foldr make_dir (fs w) (ancestors_and_self q)) in *.
  (* the new directory is empty and is where the path leads *)
  assert (Hnone : m1 !! (q ++ [filename]) = None).
  { apply Hempty. destruct (fs w !! (q ++ [filename])) eqn:E; [|reflexivity].
    destruct (Hwf (q ++ [filename])) as [_ Hpar]; [eauto|].
    rewrite removelast_last in Hpar. congruence. }
  assert (Hw1 : realpath m1 work = Some q).
  { apply lrealpath_to_realpath; [|rewrite Hdir; discriminate].
    rewrite <- (proj2 (realpath_ext _ _ work Hres)). exact Hl. }
  assert (Hf1 : realpath m1 file = Some (q ++ [filename])).
  { rewrite Hfile. apply realpath_snoc; [exact Hw1|].
    rewrite Hnone. discriminate. }
  (* the write stored the body there *)
  destruct (write_bytes_cases _ _ _ _ _ Hwr)
    as [(e' & He & _)|(t & stored & x & Ht & _ & _ & Hfs & Hst)];
    [discriminate He|].
  cbn [fs set_fs add_log] in Ht, Hfs. rewrite Hf1 in Ht. injection Ht as <-.
  rewrite (Hst tt eq_refl) in Hfs. clear Hst stored.
  assert (Hsame : forall k tgt,
             m1 !! k = Some (Symlink tgt) <-> fs w' !! k = Some (Symlink tgt)).
  { rewrite Hfs. apply insert_file_links; [discriminate|].
    rewrite Hnone. discriminate. }
  assert (Hrw : realpath (fs w') work = Some q)
    by (rewrite <- (proj1 (realpath_ext _ _ work Hsame)); exact Hw1).
  assert (Hrf : realpath (fs w') file = Some (q ++ [filename]))
    by (rewrite <- (proj1 (realpath_ext _ _ file Hsame)); exact Hf1).
  assert (Hfw : follow (fs w') work = Some Dir).
  { unfold follow. rewrite Hrw. destruct q as [|c q]; [congruence|].
    cbn [node_at]. rewrite Hfs, lookup_insert_ne, Hdir; [reflexivity|].
    intros E. apply (f_equal (@length string)) in E.
    rewrite length_app in E. cbn in E. lia. }
  assert (Hff : follow (fs w') file = Some (File body x)).
  { unfold follow. rewrite Hrf.
    assert (node_at (fs w') (q ++ [filename]) = fs w' !! (q ++ [filename]))
      as -> by (destruct q; reflexivity).
    rewrite Hfs, lookup_insert_eq. reflexivity. }
  assert (Hpre : startswith (str_path (q ++ [filename])) (str_path q) = true).
  { rewrite str_path_snoc by assumption. apply startswith_app. }
  (* reading *)
  unfold validate_file_content in Hc.
  destruct (utf8_decode body) as [text|] eqn:Hdec; [|discriminate].
  destruct (utf8_decode_encode _ _ Hdec) as [Henc Hcr].
  destruct (canonical_uuid_parses fresh Hid) as [n Hn].
  exists text. eexists. split; [reflexivity|]. split; [exact Henc|]. split.
  - unfold download_file. rewrite Hn, Hsep, Hre. cbn [negb].
    fold work. fold file. unfold_os. known. rewrite Hdec. unfold_os.
    reflexivity.
  - intros Hno. rewrite universal_newlines_without_cr; [exact Henc|].
    intros Hi. apply Hno. apply Hcr. exact Hi.
Qed.

Lemma upload_then_read_witness :
  exists text w'',
    utf8_decode [97; 32; 98] = Some text
    /\ utf8_encode text = [97; 32; 98]
    /\ download_file an_id "chip.cha"
         (snd (upload_file an_id "chip.cha" [97; 32; 98] empty_world))
       = (inl (JObj [("unique_id", JStr an_id);
                     ("filename", JStr "chip.cha");
                     ("size", JNum (Z.of_nat (length
                        (utf8_encode (universal_newlines text)))));
                     ("content", JText (universal_newlines text))]), w'')
    /\ (~ In 13 [97; 32; 98] -> utf8_encode (universal_newlines text) = [97; 32; 98]).
Proof.
  apply (upload_then_read an_id "chip.cha" [97; 32; 98] empty_world
           (snd (upload_file an_id "chip.cha" [97; 32; 98] empty_world))
           (JObj [("unique_id", JStr an_id);
                  ("filename", JStr "chip.cha");
                  ("size", JNum 3);
                  ("path", JStr "/webclan/work/123e4567-e89b-12d3-a456-426614174000/chip.cha")])).
  - intros k [x Hx]. cbn in Hx. rewrite lookup_empty in Hx. discriminate.
  - reflexivity.
  - rewrite (surjective_pairing (upload_file _ _ _ _)) at 1.
    f_equal; vm_compute; reflexivity.
Defined.

(** C3, as the specification words it, does not hold: the bytes of
    [a\r\nb] pass content validation, are stored as they are, and are read
    back as the text [a\nb], whose bytes differ from what was uploaded. *)
Lemma carriage_return_not_round_tripped :
  validate_file_content [97; 13; 10; 98] = true
  /\ validate_filename "chip.cha" = true
  /\ status_of (fst (upload_file an_id "chip.cha" [97; 13; 10; 98] empty_world))
     = 200
  /\ fst (download_file an_id "chip.cha"
            (snd (upload_file an_id "chip.cha" [97; 13; 10; 98] empty_world)))
     = inl (JObj [("unique_id", JStr an_id);
                  ("filename", JStr "chip.cha");
                  ("size", JNum 3);
                  ("content", JText [97; 10; 98])])
  /\ utf8_encode [97; 10; 98] <> [97; 13; 10; 98].
Proof. vm_compute. repeat split. discriminate. Qed.

(* ===================================================================== *)
(** * What the validators let through *)
(* ===================================================================== *)

Lemma class_star_dollar_cases (cls : ascii -> bool) (s : string) :
  class_star_dollar cls s = true <->
  all_chars cls s = true
  \/ exists g, s = g +:+ String LF "" /\ all_chars cls g = true.
Proof.
  induction s as [|c s IH]; cbn [class_star_dollar all_chars].
  - split; [now left | reflexivity].
  - destruct (cls c) eqn:Hc; cbn [andb].
    + rewrite IH. split.
      * intros [H|(g & -> & Hg)]; [now left|]. right.
        exists (String c g). rewrite app_String. cbn [all_chars].
        now rewrite Hc.
      * intros [H|(g & E & Hg)]; [now left|].
        destruct g as [|d g].
        -- rewrite app_empty_l in E. injection E as -> ->. now left.
        -- rewrite app_String in E. injection E as -> ->.
           cbn [all_chars] in Hg. apply andb_true_iff in Hg as [_ Hg].
           right. now exists g.
    + split.
      * intros [Hlf Hs]%andb_true_iff. apply Ascii.eqb_eq in Hlf as ->.
        destruct s; [|discriminate]. right. exists "". now rewrite app_empty_l.
      * intros [H|(g & E & Hg)]; [discriminate|].
        destruct g as [|d g].
        -- rewrite app_empty_l in E. injection E as -> ->. reflexivity.
        -- rewrite app_String in E. injection E as -> ->.
           cbn [all_chars] in Hg. now rewrite Hc in Hg.
Qed.

(** [re.match(r'^[cls]+$', s)] spelled out: a non-empty run of the class,
    possibly followed by one newline. *)
Lemma re_match_class_plus_cases (cls : ascii -> bool) (s : string) :
  re_match_class_plus cls s = true <->
  exists g, g <> "" /\ all_chars cls g = true
            /\ (s = g \/ s = g +:+ String LF "").
Proof.
  destruct s as [|c s]; cbn [re_match_class_plus].
  - split; [discriminate|]. intros (g & Hne & _ & [E|E]); [congruence|].
    destruct g; [congruence | rewrite app_String in E; discriminate].
  - rewrite andb_true_iff, class_star_dollar_cases. split.
    + intros [Hc [H|(g & -> & Hg)]].
      * exists (String c s). cbn [all_chars]. rewrite Hc, H. auto.
      * exists (String c g). cbn [all_chars]. rewrite Hc, Hg, app_String.
        repeat split; [discriminate | now right].
    + intros (g & Hne & Hg & [E|E]); destruct g as [|d g]; try congruence.
      * injection E as -> ->. cbn [all_chars] in Hg.
        apply andb_true_iff in Hg as [Hd Hg]. auto.
      * rewrite app_String in E. injection E as -> ->. cbn [all_chars] in Hg.
        apply andb_true_iff in Hg as [Hd Hg]. split; [assumption|].
        right. now exists g.
Qed.

Lemma char_in_app (c : ascii) (a b : string) :
  char_in c (a +:+ b) = char_in c a || char_in c b.
Proof.
  induction a as [|d a IH]; [reflexivity|].
  rewrite app_String. cbn [char_in]. now rewrite IH, orb_assoc.
Qed.

Lemma basename_plain (s : string) : char_in "/" s = false -> basename s = s.
Proof. intros H. unfold basename. now rewrite (split_on_absent _ _ H). Qed.

(** X1.  A binary name passes validation exactly when it is a non-empty run
    of letters, digits, [_] and [-], possibly followed by one newline
    (Python's [$] matches before a final newline). *)
Theorem validate_binary_accepts (v : string) :
  validate_binary v = inl v <->
  exists g, g <> "" /\ all_chars binary_class g = true
            /\ (v = g \/ v = g +:+ String LF "").
Proof.
  rewrite <- re_match_class_plus_cases. unfold validate_binary.
  destruct (re_match_class_plus binary_class v); cbn [negb];
    split; try reflexivity; discriminate.
Qed.

Lemma plain_of_class (cls : ascii -> bool) (s : string) (c : ascii) :
  re_match_class_plus cls s = true ->
  cls c = false -> c <> LF -> char_in c s = false.
Proof.
  intros (g & _ & Hg & Hs)%re_match_class_plus_cases Hc Hlf.
  assert (Hcg : char_in c g = false) by now apply (char_in_absent cls).
  destruct Hs as [->| ->]; [assumption|].
  rewrite char_in_app, Hcg. cbn [char_in orb].
  rewrite orb_false_r. now apply Ascii.eqb_neq.
Qed.

(** X2.  A binary name that passed validation holds no path separator and
    is not [.], so the path that execute builds for it is an entry of the
    binaries directory itself: the directory's components followed by the
    name. *)
Theorem validated_binary_in_bin_dir (v : string) :
  validate_binary v = inl v ->
  char_in "/" v = false
  /\ basename v = v
  /\ joinpath BIN_DIR (basename v) = BIN_DIR ++ [v].
Proof.
  unfold validate_binary.
  destruct (re_match_class_plus binary_class v) eqn:Hre; [|discriminate].
  intros _.
  assert (Hs : char_in "/" v = false)
    by (apply (plain_of_class _ _ _ Hre); [reflexivity | discriminate]).
  assert (Hd : char_in "." v = false)
    by (apply (plain_of_class _ _ _ Hre); [reflexivity | discriminate]).
  split; [assumption|]. rewrite (basename_plain v Hs). split; [reflexivity|].
  apply joinpath_plain; [assumption| |]; intros ->; discriminate.
Qed.

Lemma validated_binary_in_bin_dir_witness :
  char_in "/" "freq" = false
  /\ basename "freq" = "freq"
  /\ joinpath BIN_DIR (basename "freq") = BIN_DIR ++ ["freq"].
Proof. apply (validated_binary_in_bin_dir "freq"). reflexivity. Defined.

Lemma str_rev_onto_app (a b acc : string) :
  str_rev_onto (a +:+ b) acc = str_rev_onto b (str_rev_onto a acc).
Proof.
  revert acc. induction a as [|c a IH]; intros acc; [reflexivity|].
  rewrite app_String. cbn [str_rev_onto]. apply IH.
Qed.

Lemma lower_app (a b : string) : lower (a +:+ b) = lower a +:+ lower b.
Proof.
  induction a as [|c a IH]; [reflexivity|].
  rewrite app_String. cbn [lower]. now rewrite IH.
Qed.

(** A name that ends in a newline does not end in the extension. *)
Lemma newline_not_extension (g : string) :
  endswith (lower (g +:+ String LF "")) ALLOWED_EXTENSION = false.
Proof.
  unfold endswith, str_rev. rewrite lower_app, str_rev_onto_app. reflexivity.
Qed.

(** X3.  A file name accepted for upload consists of letters, digits, [_],
    [.] and [-] only (no newline gets through, whatever [$] allows), ends in
    [.cha] in some letter case, holds no [/], no backslash and no [..], and
    joined to a directory it names an entry of that directory. *)
Theorem validate_filename_safe (f : string) :
  validate_filename f = true ->
  all_chars filename_class f = true
  /\ endswith (lower f) ".cha" = true
  /\ char_in "/" f = false /\ char_in "092" f = false /\ str_in ".." f = false
  /\ forall dir, joinpath dir f = dir ++ [f].
Proof.
  intros Hf. pose proof (validate_filename_plain f Hf) as (H1 & H2 & H3 & Hsep & Hre).
  assert (Hext : endswith (lower f) ALLOWED_EXTENSION = true).
  { revert Hf. unfold validate_filename.
    destruct (endswith (lower f) ALLOWED_EXTENSION); [reflexivity | discriminate]. }
  apply orb_false_iff in Hsep as [[_ Hb]%orb_false_iff Hdd].
  repeat split; try assumption.
  - apply re_match_class_plus_cases in Hre as (g & _ & Hg & [->| ->]);
      [assumption|].
    rewrite newline_not_extension in Hext. discriminate.
  - intros dir. now apply joinpath_plain.
Qed.

Lemma validate_filename_safe_witness :
  all_chars filename_class "chip.CHA" = true
  /\ endswith (lower "chip.CHA") ".cha" = true
  /\ char_in "/" "chip.CHA" = false /\ char_in "092" "chip.CHA" = false
  /\ str_in ".." "chip.CHA" = false
  /\ forall dir, joinpath dir "chip.CHA" = dir ++ ["chip.CHA"].
Proof. apply (validate_filename_safe "chip.CHA"). reflexivity. Defined.

Lemma validate_args_loop_none (v : list string) :
  validate_args_loop v = None <-> forallb argument_ok v = true.
Proof.
  induction v as [|a v IH]; [split; reflexivity|].
  cbn [validate_args_loop forallb]. unfold argument_ok at 1.
  destruct (existsb (fun char => char_in char a) forbidden_chars);
    cbn [negb andb]; [split; discriminate|].
  destruct (startswith a "/" || str_in ".." a); cbn [negb];
    [split; discriminate | exact IH].
Qed.

(** X4.  [validate_args] accepts a list exactly when every element is free
    of the seven forbidden characters, does not start with [/] and does not
    contain [..]; otherwise it raises [ValueError], so one bad element
    rejects the whole list. *)
Theorem validate_args_accepts (v : list string) :
  (validate_args v = inl v <->
   forall arg, In arg v ->
     (forall c, In c [";"; "&"; "|"; "`"; "$"; LF; CR]%char -> char_in c arg = false)
     /\ startswith arg "/" = false /\ str_in ".." arg = false)
  /\ (validate_args v <> inl v -> exists msg, validate_args v = inr (ValueError msg)).
Proof.
  assert (Hok : forall arg, argument_ok arg = true <->
            (forall c, In c forbidden_chars -> char_in c arg = false)
            /\ startswith arg "/" = false /\ str_in ".." arg = false).
  { intros arg. unfold argument_ok.
    rewrite andb_true_iff, !negb_true_iff, orb_false_iff.
    split; intros [Hf Hp]; (split; [|exact Hp]).
    - intros c Hc. destruct (char_in c arg) eqn:E; [|reflexivity].
      assert (existsb (fun char => char_in char arg) forbidden_chars = true)
        by (apply existsb_exists; eauto).
      congruence.
    - destruct (existsb _ forbidden_chars) eqn:E; [|reflexivity].
      apply existsb_exists in E as (c & Hc & Hin). rewrite (Hf c Hc) in Hin.
      discriminate. }
  split.
  - unfold validate_args. destruct (validate_args_loop v) as [e|] eqn:E.
    + split; [discriminate|]. intros H.
      assert (forallb argument_ok v = true)
        by (apply forallb_forall; intros arg Harg; apply Hok; now apply H).
      apply validate_args_loop_none in H0. congruence.
    + split; [|reflexivity]. intros _ arg Harg.
      apply validate_args_loop_none in E.
      apply Hok. rewrite forallb_forall in E. now apply E.
  - unfold validate_args. intros Hne.
    destruct (validate_args_loop v) as [e|] eqn:E; [|congruence].
    clear Hne. induction v as [|a v IH]; [discriminate|].
    cbn [validate_args_loop] in E.
    destruct (existsb _ forbidden_chars); [injection E as <-; eauto|].
    destruct (startswith a "/" || str_in ".." a); [injection E as <-; eauto|].
    now apply IH.
Qed.

(* ===================================================================== *)
(** * Where an accepted identifier leads *)
(* ===================================================================== *)

(** X5.  An identifier that passes validation holds no [/] and no [.]: it
    cannot name a parent directory or a nested path, and the workspace path
    built from it is an entry of the workspace root itself. *)
Theorem validated_identifier_in_work_dir (id : string) :
  is_Some (UUID id) ->
  char_in "/" id = false /\ char_in "." id = false
  /\ joinpath WORK_DIR id = WORK_DIR ++ [id].
Proof.
  intros [Hc Hne]%uuid_chars.
  assert (Hs : char_in "/" id = false)
    by now apply (char_in_absent uuid_char).
  assert (Hd : char_in "." id = false)
    by now apply (char_in_absent uuid_char).
  repeat split; try assumption.
  apply joinpath_plain; [assumption | assumption |].
  intros ->. discriminate Hd.
Qed.

Lemma validated_identifier_in_work_dir_witness :
  char_in "/" an_id = false /\ char_in "." an_id = false
  /\ joinpath WORK_DIR an_id = WORK_DIR ++ [an_id].
Proof.
  apply (validated_identifier_in_work_dir an_id).
  eexists. vm_compute. reflexivity.
Defined.

(* ===================================================================== *)
(** * Upload: what is refused, and when *)
(* ===================================================================== *)

(** X6.  An upload whose file name is not valid, whose body is over the
    size limit or whose body is not UTF-8 is answered with 400 and the world
    is returned as it was: no identifier is used, nothing is created. *)
Theorem upload_rejects_before_touching (fresh filename : string)
    (body : list Z) (w : world) :
  validate_filename filename = false
  \/ MAX_FILE_SIZE < Z.of_nat (length body)
  \/ validate_file_content body = false ->
  exists detail,
    upload_file fresh filename body w = (inr (HTTPException 400 detail), w).
Proof.
  intros H. unfold upload_file.
  destruct (String.eqb filename "" || negb (validate_filename filename)) eqn:E1;
    [eexists; reflexivity|].
  apply orb_false_iff in E1 as [_ E1]. apply negb_false_iff in E1.
  destruct (Z.gtb_spec (Z.of_nat (length body)) MAX_FILE_SIZE);
    [eexists; reflexivity|].
  destruct (validate_file_content body) eqn:E3; cbn [negb];
    [|eexists; reflexivity].
  destruct H as [H|[H|H]]; [congruence | lia | congruence].
Qed.

Lemma upload_rejects_before_touching_witness :
  exists detail,
    upload_file an_id "../chip.cha" [97] base_world
    = (inr (HTTPException 400 detail), base_world).
Proof.
  apply (upload_rejects_before_touching an_id "../chip.cha" [97] base_world).
  left. reflexivity.
Defined.

(** X7.  When anything at all is already stored under the drawn identifier
    (a directory, a file, even a dangling link), a valid upload is answered
    with 500 "Failed to create unique workspace" and the file system is
    left as it was: an existing workspace is never written into. *)
Theorem upload_never_reuses_a_workspace (fresh filename : string)
    (body : list Z) (w : world) (q : path) (existing : node) :
  validate_filename filename = true ->
  Z.of_nat (length body) <= MAX_FILE_SIZE ->
  validate_file_content body = true ->
  lrealpath (fs w) (joinpath WORK_DIR fresh) = Some q ->
  node_at (fs w) q = Some existing ->
  exists w',
    upload_file fresh filename body w
    = (inr (HTTPException 500 "Failed to create unique workspace"), w')
    /\ fs w' = fs w /\ disk_free w' = disk_free w.
Proof.
  intros Hf Hs Hc Hl Hq.
  rewrite (upload_file_valid _ _ _ _ Hf Hs Hc).
  unfold path_mkdir. unfold_os. rewrite Hl. unfold_os. rewrite Hq. unfold_os.
  eexists. repeat split.
Qed.

Lemma upload_never_reuses_a_workspace_witness :
  exists w',
    upload_file an_id "chip.cha" [97] base_world
    = (inr (HTTPException 500 "Failed to create unique workspace"), w')
    /\ fs w' = fs base_world /\ disk_free w' = disk_free base_world.
Proof.
  apply (upload_never_reuses_a_workspace an_id "chip.cha" [97] base_world
           ["webclan"; "work"; an_id] Dir).
  - reflexivity.
  - vm_compute. discriminate.
  - reflexivity.
  - vm_compute. reflexivity.
  - vm_compute. reflexivity.
Defined.

(** Nor is a workspace made through a link that leads nowhere: when the
    workspace root is such a link, [mkdir] raises [FileExistsError], the
    answer is the same 500 and nothing is created. *)
Example upload_through_dangling_link :
  fst (upload_file an_id "chip.cha" [97] dangling_world)
  = inr (HTTPException 500 "Failed to create unique workspace")
  /\ fs (snd (upload_file an_id "chip.cha" [97] dangling_world))
     = fs dangling_world.
Proof. vm_compute. split; reflexivity. Qed.

(* ===================================================================== *)
(** * Execute: the checks before the launch and the outcomes after it *)
(* ===================================================================== *)



(** X9.  When the checks pass and the program exits within the 300 seconds:
    if the output pipes are closed within that time too and what was
    written to them is UTF-8, the answer is a success that carries the
    program's return code, whatever it is (a non-zero exit is reported, not
    turned into an error), and the decoded output with [\r\n] and [\r]
    turned into [\n], and the child is no longer running; if some output is
    not UTF-8 the answer is 500; if a helper keeps the pipes open past the
    300 seconds the answer is 408 although the program itself has exited. *)
Theorem execute_reports_the_exit (request : CommandRequest) (w : world)
    (d : Z) :
  admits (fs w) request = true ->
  b_starts (programs w (launch_of request)) = true ->
  b_duration (programs w (launch_of request)) = Some d ->
  d <= COMMAND_TIMEOUT ->
  (forall c stdout stderr,
      b_pipes_closed (programs w (launch_of request)) = Some c ->
      c <= COMMAND_TIMEOUT ->
      utf8_decode (b_stdout (programs w (launch_of request))) = Some stdout ->
      utf8_decode (b_stderr (programs w (launch_of request))) = Some stderr ->
      exists w',
        execute_command request w
        = (inl (JObj [("unique_id", JStr (unique_id request));
                      ("binary", JStr (basename (binary request)));
                      ("returncode",
                       JNum (b_returncode (programs w (launch_of request))));
                      ("stdout", JText (universal_newlines stdout));
                      ("stderr", JText (universal_newlines stderr))]),
           w')
        /\ b_pid (programs w (launch_of request)) ∉ procs w')
  /\ (forall c,
        b_pipes_closed (programs w (launch_of request)) = Some c ->
        c <= COMMAND_TIMEOUT ->
        utf8_decode (b_stdout (programs w (launch_of request))) = None
        \/ utf8_decode (b_stderr (programs w (launch_of request))) = None ->
        fst (execute_command request w)
        = inr (HTTPException 500 "Command execution failed"))
  /\ (match b_pipes_closed (programs w (launch_of request)) with
      | Some c => COMMAND_TIMEOUT < c
      | None => True
      end ->
      fst (execute_command request w)
      = inr (HTTPException 408 "Command timed out after 300 seconds")).
Proof.
  unfold admits, launch_of, execute_command.
  set (l := Build_launch _ _ _ _).
  intros [[Hws Hbin]%andb_true_iff Hpre]%andb_true_iff Hstart Hdur Hd.
  apply Z.leb_le in Hd.
  destruct (follow (fs w) (joinpath WORK_DIR (unique_id request)))
    as [[]|] eqn:?; try discriminate.
  destruct (realpath (fs w) (joinpath BIN_DIR (basename (binary request))))
    eqn:?; try discriminate.
  destruct (realpath (fs w) BIN_DIR) eqn:?; try discriminate.
  destruct (follow (fs w) (joinpath BIN_DIR (basename (binary request))))
    as [[| ? x |]|] eqn:?; try discriminate; subst.
  all: split; [|split].
  all: try (intros c stdout stderr Hc Hle%Z.leb_le Ho He;
            unfold_os; known; fold l; rewrite Hstart, Hdur, Hc, Hd, Hle;
            unfold_os; rewrite Ho, He; unfold_os;
            eexists; split; [reflexivity|]; cbn [procs set_procs add_log];
            apply not_elem_of_difference; right; now apply elem_of_singleton).
  all: try (intros c Hc Hle%Z.leb_le Hbad;
            unfold_os; known; fold l; rewrite Hstart, Hdur, Hc, Hd, Hle;
            unfold_os;
            destruct Hbad as [Hbad|Hbad]; rewrite Hbad;
            [|destruct (utf8_decode (b_stdout (programs w l)))];
            reflexivity).
  all: intros Hlate; unfold_os; known; fold l; rewrite Hstart, Hdur;
    destruct (b_pipes_closed (programs w l)) as [c|]; unfold_os;
    [rewrite (proj2 (Z.leb_gt c COMMAND_TIMEOUT)) by lia;
     rewrite andb_false_r|]; reflexivity.
Qed.

Lemma execute_reports_the_exit_witness :
  (exists w',
      execute_command sample_request failing_world
      = (inl (JObj [("unique_id", JStr an_id);
                    ("binary", JStr "freq");
                    ("returncode", JNum 2);
                    ("stdout", JText []);
                    ("stderr", JText (universal_newlines
                                        (bytes_of "no such file" ++ [13; 10])))]),
         w')
      /\ b_pid (programs failing_world (launch_of sample_request)) ∉ procs w')
  /\ fst (execute_command sample_request garbling_world)
     = inr (HTTPException 500 "Command execution failed")
  /\ fst (execute_command sample_request detaching_world)
     = inr (HTTPException 408 "Command timed out after 300 seconds").
Proof.
  split; [|split].
  - destruct (execute_reports_the_exit sample_request failing_world 0
                ltac:(vm_compute; reflexivity) eq_refl eq_refl
                ltac:(vm_compute; discriminate)) as (H & _ & _).
    apply (H 0 [] (bytes_of "no such file" ++ [13; 10])).
    + reflexivity.
    + vm_compute. discriminate.
    + reflexivity.
    + vm_compute. reflexivity.
  - destruct (execute_reports_the_exit sample_request garbling_world 0
                ltac:(vm_compute; reflexivity) eq_refl eq_refl
                ltac:(vm_compute; discriminate)) as (_ & H & _).
    apply (H 0).
    + reflexivity.
    + vm_compute. discriminate.
    + left. reflexivity.
  - destruct (execute_reports_the_exit sample_request detaching_world 0
                ltac:(vm_compute; reflexivity) eq_refl eq_refl
                ltac:(vm_compute; discriminate)) as (_ & _ & H).
    apply H. exact I.
Defined.

(** X10.  When the checks pass but the program cannot be started, the
    answer is 500 "Command execution failed", and no process is left. *)
Theorem execute_launch_failure (request : CommandRequest) (w : world) :
  admits (fs w) request = true ->
  b_starts (programs w (launch_of request)) = false ->
  exists w',
    execute_command request w
    = (inr (HTTPException 500 "Command execution failed"), w')
    /\ procs w' = procs w /\ fs w' = fs w.
Proof.
  unfold admits, launch_of, execute_command.
  set (l := Build_launch _ _ _ _).
  intros [[Hws Hbin]%andb_true_iff Hpre]%andb_true_iff Hstart.
  destruct (follow (fs w) (joinpath WORK_DIR (unique_id request)))
    as [[]|] eqn:?; try discriminate.
  destruct (realpath (fs w) (joinpath BIN_DIR (basename (binary request))))
    eqn:?; try discriminate.
  destruct (realpath (fs w) BIN_DIR) eqn:?; try discriminate.
  destruct (follow (fs w) (joinpath BIN_DIR (basename (binary request))))
    as [[| ? x |]|] eqn:?; try discriminate; subst.
  all: unfold_os; known; fold l; rewrite Hstart; unfold_os.
  all: eexists; repeat split.
Qed.

Lemma execute_launch_failure_witness :
  exists w',
    execute_command sample_request broken_world
    = (inr (HTTPException 500 "Command execution failed"), w')
    /\ procs w' = procs broken_world /\ fs w' = fs broken_world.
Proof.
  apply (execute_launch_failure sample_request broken_world).
  - vm_compute. reflexivity.
  - reflexivity.
Defined.

(* ===================================================================== *)
(** * Computations that only look *)
(* ===================================================================== *)

Lemma unchanged_refl (w : world) : unchanged w w.
Proof. now repeat split. Qed.

Lemma unchanged_trans (w1 w2 w3 : world) :
  unchanged w1 w2 -> unchanged w2 w3 -> unchanged w1 w3.
Proof.
  intros (A1 & A2 & A3 & A4) (B1 & B2 & B3 & B4).
  repeat split; congruence.
Qed.

Lemma read_only_ret {A} (a : A) : read_only (ret a).
Proof. intros w. apply unchanged_refl. Qed.

Lemma read_only_raise {A} (e : exn) : read_only (@raise A e).
Proof. intros w. apply unchanged_refl. Qed.

Lemma read_only_get_world : read_only get_world.
Proof. intros w. apply unchanged_refl. Qed.

Lemma read_only_fs_call (call : string) (p : path) : read_only (fs_call call p).
Proof.
  intros w. unfold fs_call, modify, unchanged. cbn.
  repeat split. rewrite spawns_app. apply app_nil_r.
Qed.

Lemma read_only_bind {A B} (m : M A) (k : A -> M B) :
  read_only m -> (forall a, read_only (k a)) -> read_only (bind m k).
Proof.
  intros Hm Hk w. unfold bind. specialize (Hm w).
  destruct (m w) as [[a|e] w1]; cbn [snd] in *; [|assumption].
  eapply unchanged_trans; [exact Hm | apply Hk].
Qed.

Lemma read_only_try_except {A} (m : M A) (h : exn -> M A) :
  read_only m -> (forall e, read_only (h e)) -> read_only (try_except m h).
Proof.
  intros Hm Hh w. unfold try_except. specialize (Hm w).
  destruct (m w) as [[a|e] w1]; cbn [snd] in *; [assumption|].
  eapply unchanged_trans; [exact Hm | apply Hh].
Qed.

Lemma read_only_mapM {A B} (f : A -> M B) (l : list A) :
  (forall a, read_only (f a)) -> read_only (mapM f l).
Proof.
  intros Hf. induction l as [|a l IH]; cbn [mapM]; [apply read_only_ret|].
  apply read_only_bind; [apply Hf|]. intros b.
  apply read_only_bind; [apply IH|]. intros bs. apply read_only_ret.
Qed.

(** Splits a goal [read_only m] along the structure of [m]. *)
Ltac look :=
  repeat first
    [ apply read_only_ret
    | apply read_only_raise
    | apply read_only_get_world
    | apply read_only_fs_call
    | apply read_only_bind; [|intros ?]
    | apply read_only_try_except; [|intros ?]
    | apply read_only_mapM; intros ?
    | match goal with
      | |- read_only (if ?b then _ else _) => destruct b
      | |- read_only (match ?x with _ => _ end) => destruct x
      | |- read_only (let '(_, _) := ?x in _) => destruct x
      end ].

Lemma read_only_path_exists p : read_only (path_exists p).
Proof. unfold path_exists. look. Qed.

Lemma read_only_path_is_dir p : read_only (path_is_dir p).
Proof. unfold path_is_dir. look. Qed.

Lemma read_only_path_is_file p : read_only (path_is_file p).
Proof. unfold path_is_file. look. Qed.

Lemma read_only_os_access p : read_only (os_access_X_OK p).
Proof. unfold os_access_X_OK. look. Qed.

Lemma read_only_path_resolve p : read_only (path_resolve p).
Proof. unfold path_resolve. look. Qed.

Lemma read_only_stat_st_size p : read_only (stat_st_size p).
Proof. unfold stat_st_size. look. Qed.

Lemma read_only_path_iterdir p : read_only (path_iterdir p).
Proof. unfold path_iterdir. look. Qed.

Lemma read_only_read_text p : read_only (read_text p).
Proof. unfold read_text. look. Qed.

Ltac look_os :=
  repeat first
    [ apply read_only_path_exists | apply read_only_path_is_dir
    | apply read_only_path_is_file | apply read_only_os_access
    | apply read_only_path_resolve | apply read_only_stat_st_size
    | apply read_only_path_iterdir | apply read_only_read_text
    | progress look ].

Lemma read_only_executable_names (items : list path) :
  read_only (executable_names items).
Proof.
  induction items as [|item items IH]; cbn [executable_names]; [look|].
  apply read_only_bind; [look_os | intros is_file].
  apply read_only_bind; [look_os | intros runnable].
  apply read_only_bind; [exact IH | intros names]. look.
Qed.

(** X11.  List, read and the listing of the binaries are read-only: whatever
    the identifier, the file name and the state, they leave the file system,
    the processes and the free disk space as they were and start no
    process. *)
Theorem listing_and_reading_change_nothing (id filename : string) :
  read_only (list_files id)
  /\ read_only (download_file id filename)
  /\ read_only list_binaries.
Proof.
  split; [|split].
  - unfold list_files. look_os.
  - unfold download_file. look_os.
  - unfold list_binaries. look_os. apply read_only_executable_names.
Qed.

(* ===================================================================== *)
(** * What list and read answer *)
(* ===================================================================== *)

Lemma mapM_pure {A B} (f : A -> M B) (g : gmap path node -> A -> B) :
  (forall a w, exists w', f a w = (inl (g (fs w) a), w') /\ fs w' = fs w) ->
  forall l w,
    exists w', mapM f l w = (inl (map (g (fs w)) l), w') /\ fs w' = fs w.
Proof.
  intros Hf. induction l as [|a l IH]; intros w.
  - exists w. split; reflexivity.
  - cbn [mapM map]. unfold bind, ret.
    destruct (Hf a w) as (w1 & -> & H1).
    destruct (IH w1) as (w2 & -> & H2).
    rewrite H1. exists w2. split; [reflexivity | congruence].
Qed.

Lemma list_loop_result (items : list path) (w : world) :
  exists w',
    mapM (fun item : path =>
            is_file <- path_is_file item ;;
            size <- (if is_file
                     then (n <- stat_st_size item ;; ret (JNum n))
                     else ret JNull) ;;
            is_file' <- path_is_file item ;;
            ret (JObj [("name", JStr (List.last item ""));
                       ("size", size);
                       ("type", JStr (if is_file' then "file"
                                      else "directory"))]))
         items w
    = (inl (map (list_entry (fs w)) items), w')
    /\ fs w' = fs w.
Proof.
  apply mapM_pure. clear. intros item w. unfold list_entry. unfold_os.
  destruct (follow (fs w) item) as [[]|] eqn:E; unfold_os; known;
    eexists; split; reflexivity.
Qed.

Lemma bind_run {A B} (m : M A) (k : A -> M B) (w : world) :
  bind m k w
  = match m w with
    | (inl a, w') => k a w'
    | (inr e, w') => (inr e, w')
    end.
Proof. reflexivity. Qed.

Lemma try_except_run {A} (m : M A) (h : exn -> M A) (w : world) :
  try_except m h w
  = match m w with
    | (inl a, w') => (inl a, w')
    | (inr e, w') => h e w'
    end.
Proof. reflexivity. Qed.

Lemma path_exists_run (p : path) (w : world) :
  path_exists p w
  = (inl (match follow (fs w) p with Some _ => true | None => false end),
     add_log (FsCall "stat" p) w).
Proof. reflexivity. Qed.

Lemma path_iterdir_run (p q : path) (w : world) :
  follow (fs w) p = Some Dir -> realpath (fs w) p = Some q ->
  path_iterdir p w
  = (inl (children (fs w) q p), add_log (FsCall "listdir" p) w).
Proof.
  intros Hf Hr. unfold path_iterdir. unfold_os. now rewrite Hf, Hr.
Qed.



(** In that state, in some order: the sub-directory, the dangling link and
    the file. *)
Example list_of_mixed_workspace :
  map (list_entry (fs mixed_world))
      (children (fs mixed_world) ["webclan"; "work"; an_id]
                (joinpath WORK_DIR an_id))
  ≡ₚ [JObj [("name", JStr "out"); ("size", JNull); ("type", JStr "directory")];
      JObj [("name", JStr "gone"); ("size", JNull); ("type", JStr "directory")];
      JObj [("name", JStr "chip.cha"); ("size", JNum 5); ("type", JStr "file")]].
Proof. vm_compute. reflexivity. Qed.



Lemma universal_newlines_no_cr (text : list Z) :
  ~ In 13 (universal_newlines text).
Proof.
  assert (H : forall n text, (length text <= n)%nat ->
                             ~ In 13 (universal_newlines text)).
  { clear text. induction n as [|n IH]; intros [|c rest] Hlen;
      cbn [universal_newlines]; try (intros []); cbn [length] in Hlen;
      try lia.
    destruct (Z.eqb_spec c 13) as [->|Hc].
    - destruct rest as [|d rest'].
      + intros [Hd|[]]. lia.
      + cbn [length] in Hlen. destruct (d =? 10).
        * intros [Hd|Hin]; [lia|]. revert Hin. apply IH. lia.
        * intros [Hd|Hin]; [lia|]. revert Hin. apply IH.
          cbn [length]. lia.
    - intros [Hd|Hin]; [congruence|]. revert Hin. apply IH. lia. }
  apply (H (length text)). lia.
Qed.

(** X14.  When read succeeds, the path named a regular file (links
    followed) whose bytes are UTF-8, and the answer carries the decoded text
    with the newlines translated, the number of bytes of that text, the
    identifier and the name as given; the text holds no carriage return. *)
Theorem read_returns_the_stored_text (id filename : string) (w w' : world)
    (body : json) :
  download_file id filename w = (inl body, w') ->
  exists content x text,
    follow (fs w) (joinpath (joinpath WORK_DIR id) filename)
    = Some (File content x)
    /\ utf8_decode content = Some text
    /\ body = JObj [("unique_id", JStr id);
                    ("filename", JStr filename);
                    ("size", JNum (Z.of_nat (length
                       (utf8_encode (universal_newlines text)))));
                    ("content", JText (universal_newlines text))]
    /\ ~ In 13 (universal_newlines text).
Proof.
  unfold download_file. destruct (UUID id); [|intros Hrun; outcome Hrun].
  destruct (char_in "/" filename || char_in "092" filename || str_in ".." filename);
    [intros Hrun; outcome Hrun|].
  destruct (negb (re_match_class_plus filename_class filename));
    [intros Hrun; outcome Hrun|].
  unfold_os. repeat branch; try (intros Hrun; outcome Hrun; fail).
  all: destruct (utf8_decode _) as [text|] eqn:Hdec; unfold_os;
    intros Hrun; outcome Hrun.
  all: injection Hfst as <-; do 3 eexists;
    (split; [reflexivity|]); (split; [exact Hdec|]); (split; [reflexivity|]);
    apply universal_newlines_no_cr.
Qed.

Lemma read_returns_the_stored_text_witness :
  exists content x text,
    follow (fs base_world) (joinpath (joinpath WORK_DIR an_id) "chip.cha")
    = Some (File content x)
    /\ utf8_decode content = Some text
    /\ JObj [("unique_id", JStr an_id); ("filename", JStr "chip.cha");
             ("size", JNum 5); ("content", JText [97; 32; 98; 32; 99])]
       = JObj [("unique_id", JStr an_id);
               ("filename", JStr "chip.cha");
               ("size", JNum (Z.of_nat (length
                  (utf8_encode (universal_newlines text)))));
               ("content", JText (universal_newlines text))]
    /\ ~ In 13 (universal_newlines text).
Proof.
  apply (read_returns_the_stored_text an_id "chip.cha" base_world
           (snd (download_file an_id "chip.cha" base_world))).
  rewrite (surjective_pairing (download_file _ _ _)) at 1.
  f_equal; vm_compute; reflexivity.
Defined.



(* ===================================================================== *)
(** * Destroying a workspace *)
(* ===================================================================== *)

(** The two ways [cleanup_workspace] can end. *)
Lemma cleanup_cases (id : string) (w : world) r w' :
  cleanup_workspace id w = (r, w') ->
  procs w' = procs w /\ spawns (log w') = spawns (log w)
  /\ ((exists q,
         r = inl (JObj [("message", JStr "Workspace deleted");
                        ("unique_id", JStr id)])
         /\ is_Some (UUID id)
         /\ lrealpath (fs w) (joinpath WORK_DIR id) = Some q
         /\ fs w !! q = Some Dir
         /\ fs w' = remove_tree q (fs w))
      \/ (fs w' = fs w
          /\ exists status detail,
               r = inr (HTTPException status detail)
               /\ (status = 400 \/ status = 404 \/ status = 500))).
Proof.
  unfold cleanup_workspace.
  destruct (UUID id) as [n|] eqn:Hn; unfold_os.
  2: { intros H; outcome H. subst. repeat split. right.
       split; [reflexivity|]. do 2 eexists. split; [reflexivity|]. auto. }
  repeat branch; intros H; outcome H; subst r w';
    cbn [fs procs log set_fs add_log];
    (split; [reflexivity|]);
    (split; [rewrite ?spawns_app; cbn [spawns omap]; rewrite ?app_nil_r;
             reflexivity|]).
  all: try (right; split; [reflexivity|]; do 2 eexists;
            split; [reflexivity|]; auto; fail).
  left. eexists. repeat split; eauto.
Qed.


Lemma prefix_removelast (q k : path) :
  q `prefix_of` removelast k -> q `prefix_of` k.
Proof.
  intros [t Ht]. destruct k as [|c k] using rev_ind.
  - cbn in Ht. exists t. exact Ht.
  - rewrite removelast_last in Ht. exists (t ++ [c]).
    rewrite Ht. now rewrite <- app_assoc.
Qed.

Lemma remove_tree_well_formed (m : gmap path node) (q : path) :
  q <> [] -> well_formed m -> well_formed (remove_tree q m).
Proof.
  intros Hq Hwf k [x Hk].
  destruct (decide (q `prefix_of` k)) as [Hpre|Hpre];
    [rewrite removed_below in Hk by assumption; discriminate|].
  rewrite kept_elsewhere in Hk by assumption.
  destruct (Hwf k) as [Hne Hpar]; [eauto|]. split; [assumption|].
  destruct (removelast k) as [|c p] eqn:E; [reflexivity|].
  cbn [node_at] in *. rewrite kept_elsewhere; [assumption|].
  rewrite <- E. intros H. apply Hpre. now apply prefix_removelast.
Qed.

Lemma base_world_well_formed : well_formed (fs base_world).
Proof.
  intros k [x Hk]. apply elem_of_list_to_map_2 in Hk.
  unfold base_entries in Hk.
  repeat (apply elem_of_cons in Hk as [[= -> ->]|Hk];
          [split; [discriminate | vm_compute; reflexivity]|]).
  now apply elem_of_nil in Hk.
Qed.

(** X17.  Destroy keeps the file system well formed: when every entry sat
    in a directory before, every entry that is left sits in a directory
    afterwards, whatever destroy answered. *)
Theorem destroy_keeps_well_formed (id : string) (w : world) :
  well_formed (fs w) -> well_formed (fs (snd (cleanup_workspace id w))).
Proof.
  intros Hwf.
  destruct (cleanup_cases id w _ _ (surjective_pairing _))
    as (_ & _ & [(q & _ & _ & Hl & Hq & ->)|(-> & _)]); [|assumption].
  apply remove_tree_well_formed; [|assumption].
  intros ->. destruct (Hwf []) as [Hne _]; [eauto | congruence].
Qed.

Lemma destroy_keeps_well_formed_witness :
  well_formed (fs (snd (cleanup_workspace an_id base_world))).
Proof.
  apply (destroy_keeps_well_formed an_id base_world).
  exact base_world_well_formed.
Defined.

(* ===================================================================== *)
(** * The state after an upload *)
(* ===================================================================== *)

(** Below an absent place of a well-formed file system there is nothing. *)
Lemma nothing_below_absent (m : gmap path node) (q : path) :
  well_formed m -> node_at m q = None ->
  forall t, m !! (q ++ t) = None.
Proof.
  intros Hwf Hq t. induction t as [|c t IH] using rev_ind.
  - rewrite app_nil_r. destruct q; [discriminate Hq | exact Hq].
  - destruct (m !! (q ++ t ++ [c])) as [x|] eqn:E; [|reflexivity].
    destruct (Hwf (q ++ t ++ [c])) as [_ Hpar]; [eauto|].
    rewrite app_assoc, removelast_last in Hpar.
    destruct (q ++ t) eqn:Eq; [|cbn [node_at] in Hpar; congruence].
    apply app_eq_nil in Eq as [-> _]. discriminate Hq.
Qed.

Lemma path_mkdir_ok_dirs (p : path) (w w1 : world) :
  path_mkdir p w = (inl tt, w1) ->
  exists q, lrealpath (fs w) p = Some q /\ node_at (fs w) q = None
            /\ forallb (may_hold_dir (fs w)) (ancestors_and_self q) = true
            /\ w1 = set_fs (foldr make_dir (fs w) (ancestors_and_self q))
                      (add_log (FsCall "mkdir" p) w).
Proof.
  unfold path_mkdir. unfold_os.
  destruct (lrealpath (fs w) p) as [q|]; unfold_os; [|intros H; outcome H].
  destruct (node_at (fs w) q) eqn:E; unfold_os; [intros H; outcome H|].
  destruct (forallb _ _) eqn:Hall; unfold_os; [|intros H; outcome H].
  destruct (existsb _ _); unfold_os; intros H; outcome H.
  exists q. auto.
Qed.

Lemma write_bytes_ok_disk (p : path) (content : list Z) (w w2 : world) :
  write_bytes p content w = (inl tt, w2) ->
  procs w2 = procs w
  /\ disk_free w2 = disk_free w - Z.of_nat (length content)
  /\ Z.of_nat (length content) <= disk_free w.
Proof.
  unfold write_bytes. unfold_os.
  destruct (os_refuses w "open_wb" p); unfold_os; [intros H; outcome H|].
  destruct (realpath (fs w) p) as [t|]; unfold_os; [|intros H; outcome H].
  destruct (node_at (fs w) (removelast t)) as [[]|]; unfold_os;
    try (intros H; outcome H; fail).
  destruct (fs w !! t) as [[]|]; unfold_os; try (intros H; outcome H; fail).
  all: destruct (Z.leb_spec (Z.of_nat (length content)) (disk_free w)) as [Hle|Hlt];
    unfold_os; intros H; outcome H; subst w2; cbn; auto.
Qed.

Lemma child_name_Some (q k : path) (name : string) :
  child_name q k = Some name <-> k = q ++ [name].
Proof.
  revert k. induction q as [|d q IH]; intros k.
  - destruct k as [|c [|c' k]]; cbn; split; intros H; try discriminate;
      congruence.
  - destruct k as [|c k]; cbn [child_name app]; [split; discriminate|].
    destruct (String.eqb_spec d c) as [->|Hne].
    + rewrite IH. split; [now intros -> | now intros [= ->]].
    + split; [discriminate | intros [= -> _]; congruence].
Qed.

Lemma omap_all_None {A B} (f : A -> option B) (l : list A) :
  (forall a, a ∈ l -> f a = None) -> omap f l = [].
Proof.
  induction l as [|a l IH]; [reflexivity|]. intros H. csimpl.
  rewrite (H a) by (apply elem_of_cons; now left). apply IH.
  intros b Hb. apply H. apply elem_of_cons. now right.
Qed.

(** A directory with one entry lists that entry. *)
Lemma children_single (m : gmap path node) (q p : path) (name : string) v :
  m !! (q ++ [name]) = Some v ->
  (forall c, c <> name -> m !! (q ++ [c]) = None) ->
  children m q p = [p ++ [name]].
Proof.
  intros Hin Hothers. unfold children. apply Permutation_singleton_r.
  rewrite <- (map_to_list_delete m _ _ Hin). csimpl.
  rewrite (proj2 (child_name_Some q (q ++ [name]) name) eq_refl). csimpl.
  rewrite omap_all_None; [reflexivity|].
  intros [k x] Hk. apply elem_of_map_to_list in Hk. cbn [fst].
  destruct (child_name q k) as [c|] eqn:E; [|reflexivity].
  apply child_name_Some in E as ->. exfalso.
  destruct (decide (c = name)) as [->|Hc].
  - now rewrite lookup_delete_eq in Hk.
  - rewrite lookup_delete_ne in Hk by (intros [= ?]%app_inv_head; congruence).
    rewrite Hothers in Hk by assumption. discriminate.
Qed.

Lemma prefixes_from_parent (done : path) (todo : list string) (k : path) :
  In k (prefixes_from done todo) ->
  k <> [] /\ (exists t, done ++ todo = k ++ t)
  /\ (removelast k = done \/ In (removelast k) (prefixes_from done todo)).
Proof.
  revert done. induction todo as [|c rest IH]; intros done; [intros []|].
  cbn [prefixes_from In]. intros [<-|H].
  - split; [now destruct done|]. split.
    + exists rest. now rewrite <- app_assoc.
    + left. apply removelast_last.
  - apply IH in H as (Hne & [t Ht] & Hpar). split; [assumption|]. split.
    + exists t. rewrite <- Ht. now rewrite <- app_assoc.
    + right. destruct Hpar as [->|Hpar]; [now left | now right].
Qed.

Lemma make_dirs_well_formed (m : gmap path node) (q : path) :
  well_formed m ->
  forallb (may_hold_dir m) (ancestors_and_self q) = true ->
  well_formed (foldr make_dir m (ancestors_and_self q)).
Proof.
  intros Hwf Hall k [x Hk].
  assert (Hkeep : forall p, node_at m p = Some Dir ->
            node_at (foldr make_dir m (ancestors_and_self q)) p = Some Dir).
  { intros [|c p]; [reflexivity|]. cbn [node_at]. apply make_dirs_keep. }
  apply make_dirs_new in Hk as [Hk|(-> & Hin & Hk)].
  - destruct (Hwf k) as [Hne Hpar]; [eauto|]. split; [assumption|].
    now apply Hkeep.
  - apply prefixes_from_parent in Hin as (Hne & _ & Hpar).
    split; [assumption|]. destruct Hpar as [->|Hpar]; [reflexivity|].
    pose proof (proj1 (forallb_forall _ _) Hall _ Hpar) as Hmay.
    unfold may_hold_dir in Hmay.
    destruct (node_at m (removelast k)) as [[]|] eqn:E; try discriminate.
    + now apply Hkeep.
    + destruct (removelast k) as [|c p] eqn:Er; [discriminate E|].
      cbn [node_at] in *. apply make_dirs_made; [exact Hpar | discriminate |
                                                 exact E].
Qed.

Lemma insert_file_well_formed (m : gmap path node) (q : path) name f :
  well_formed m -> q <> [] -> m !! q = Some Dir -> m !! (q ++ [name]) = None ->
  well_formed (<[q ++ [name] := f]> m).
Proof.
  intros Hwf Hq Hdir Hnone k [x Hk].
  assert (Hqn : q ++ [name] <> q).
  { intros E. apply (f_equal (@length string)) in E.
    rewrite length_app in E. cbn in E. lia. }
  destruct (decide (q ++ [name] = k)) as [<-|Hne].
  - split; [now destruct q|]. rewrite removelast_last.
    rewrite node_at_lookup by assumption.
    now rewrite lookup_insert_ne.
  - rewrite lookup_insert_ne in Hk by assumption.
    destruct (Hwf k) as [Hk0 Hpar]; [eauto|]. split; [assumption|].
    destruct (removelast k) as [|c p] eqn:Er; [reflexivity|].
    cbn [node_at] in *. rewrite lookup_insert_ne; [assumption|].
    intros E. rewrite <- E in Hpar. congruence.
Qed.

Lemma path_mkdir_failed (p : path) (w w1 : world) (e : exn) :
  path_mkdir p w = (inr e, w1) -> fs w1 = fs w.
Proof.
  unfold path_mkdir. unfold_os.
  destruct (lrealpath (fs w) p) as [q|]; unfold_os;
    [|intros H; outcome H; now subst].
  destruct (node_at (fs w) q); unfold_os; [intros H; outcome H; now subst|].
  destruct (forallb _ _); unfold_os; [|intros H; outcome H; now subst].
  destruct (existsb _ _); unfold_os; intros H; outcome H; now subst.
Qed.

Lemma shutil_rmtree_cases (p : path) (w : world) :
  fs (snd (shutil_rmtree p w)) = fs w
  \/ exists q, fs w !! q = Some Dir
               /\ fs (snd (shutil_rmtree p w)) = remove_tree q (fs w).
Proof.
  unfold shutil_rmtree. unfold_os.
  destruct (os_refuses w "rmtree" p); unfold_os; [now left|].
  destruct (lrealpath (fs w) p) as [q|]; unfold_os; [|now left].
  destruct (fs w !! q) as [[]|] eqn:E; unfold_os; try (now left).
  right. now exists q.
Qed.

(** The state between the [mkdir] and the write of an upload: the
    directories down to the place [q] the workspace path leads to are
    there, [q] is empty, and the file path leads into [q]. *)
Lemma after_mkdir (fresh filename : string) (w w1 : world) :
  well_formed (fs w) ->
  validate_filename filename = true ->
  path_mkdir (joinpath WORK_DIR fresh) w = (inl tt, w1) ->
  exists q,
    lrealpath (fs w) (joinpath WORK_DIR fresh) = Some q
    /\ node_at (fs w) q = None
    /\ q <> []
    /\ fs w1 = foldr make_dir (fs w) (ancestors_and_self q)
    /\ procs w1 = procs w /\ disk_free w1 = disk_free w
    /\ well_formed (fs w1)
    /\ fs w1 !! q = Some Dir
    /\ (forall c, fs w1 !! (q ++ [c]) = None)
    /\ realpath (fs w1) (joinpath WORK_DIR fresh) = Some q
    /\ joinpath (joinpath WORK_DIR fresh) filename
       = joinpath WORK_DIR fresh ++ [filename]
    /\ realpath (fs w1) (joinpath WORK_DIR fresh ++ [filename])
       = Some (q ++ [filename]).
Proof.
  intros Hwf Hf Hmk.
  destruct (validate_filename_plain filename Hf) as (P4 & P5 & P6 & _ & _).
  pose proof (joinpath_plain (joinpath WORK_DIR fresh) filename P4 P5 P6) as Hfile.
  set (work := joinpath WORK_DIR fresh) in *.
  destruct (path_mkdir_ok_dirs _ _ _ Hmk) as (q & Hl & Hq & Hall & ->).
  destruct (made_directory _ _ _ Hl Hq) as (Hne & Hdir & Hres & Hempty).
  cbn [fs procs disk_free set_fs add_log].
  set (m1 := foldr make_dir (fs w) (ancestors_and_self q)) in *.
  assert (Hnone : forall c, m1 !! (q ++ [c]) = None).
  { intros c. apply Hempty. apply (nothing_below_absent _ _ Hwf Hq [c]). }
  assert (Hw1 : realpath m1 work = Some q).
  { apply lrealpath_to_realpath; [|rewrite Hdir; discriminate].
    rewrite <- (proj2 (realpath_ext _ _ work Hres)). exact Hl. }
  exists q. repeat (split; [first [assumption | reflexivity]|]).
  split; [now apply make_dirs_well_formed|].
  repeat (split; [first [assumption | reflexivity]|]).
  apply realpath_snoc; [exact Hw1|]. rewrite Hnone. discriminate.
Qed.

(** What a successful upload leaves behind. *)
Lemma upload_file_ok_state (fresh filename : string) (body : list Z)
    (w w' : world) (resp : json) :
  well_formed (fs w) ->
  upload_file fresh filename body w = (inl resp, w') ->
  exists q x,
    lrealpath (fs w) (joinpath WORK_DIR fresh) = Some q
    /\ node_at (fs w) q = None
    /\ q <> []
    /\ foldr make_dir (fs w) (ancestors_and_self q) !! q = Some Dir
    /\ (forall c, foldr make_dir (fs w) (ancestors_and_self q) !! (q ++ [c])
                  = None)
    /\ well_formed (foldr make_dir (fs w) (ancestors_and_self q))
    /\ fs w' = <[q ++ [filename] := File body x]>
                 (foldr make_dir (fs w) (ancestors_and_self q))
    /\ realpath (fs w') (joinpath WORK_DIR fresh) = Some q
    /\ realpath (fs w') (joinpath WORK_DIR fresh ++ [filename])
       = Some (q ++ [filename])
    /\ procs w' = procs w
    /\ disk_free w' = disk_free w - Z.of_nat (length body).
Proof.
  intros Hwf Hup.
  destruct (upload_file_ok_valid _ _ _ _ _ _ Hup) as (Hf & Hs & Hc).
  rewrite (upload_file_valid _ _ _ _ Hf Hs Hc) in Hup.
  destruct (path_mkdir _ w) as [[[]|e] w1] eqn:Hmk; [|destruct e; outcome Hup].
  destruct (write_bytes _ body w1) as [[[]|e] w2] eqn:Hwr; outcome Hup.
  subst w2. clear Hup Hfst.
  destruct (after_mkdir _ _ _ _ Hwf Hf Hmk)
    as (q & Hl & Hq & Hne & Hm1 & Hp1 & Hd1 & Hwf1 & Hdir & Hnone & Hw1
        & Hfile & Hf1).
  rewrite Hfile in Hwr.
  set (work := joinpath WORK_DIR fresh) in *.
  destruct (write_bytes_ok_disk _ _ _ _ Hwr) as (Hprocs & Hdisk & _).
  destruct (write_bytes_cases _ _ _ _ _ Hwr)
    as [(e' & He & _)|(t & stored & x & Ht & _ & _ & Hfs & Hst)];
    [discriminate He|].
  rewrite Hf1 in Ht. injection Ht as <-.
  rewrite (Hst tt eq_refl) in Hfs. clear Hst stored.
  assert (Hsame : forall k tgt,
             fs w1 !! k = Some (Symlink tgt) <-> fs w' !! k = Some (Symlink tgt)).
  { rewrite Hfs. apply insert_file_links; [discriminate|].
    rewrite Hnone. discriminate. }
  exists q, x. rewrite <- Hm1.
  split; [exact Hl|]. split; [exact Hq|]. split; [exact Hne|].
  split; [exact Hdir|]. split; [exact Hnone|]. split; [exact Hwf1|].
  split; [exact Hfs|].
  split; [rewrite <- (proj1 (realpath_ext _ _ work Hsame)); exact Hw1|].
  split; [rewrite <- (proj1 (realpath_ext _ _ (work ++ [filename]) Hsame));
          exact Hf1|].
  split; [rewrite Hprocs; exact Hp1 | rewrite Hdisk, Hd1; reflexivity].
Qed.

(** X18.  Upload then list: in a well-formed file system, the workspace a
    successful upload made lists exactly one entry, the uploaded file, as a
    file whose size is the number of bytes sent. *)
Theorem upload_then_list (fresh filename : string) (body : list Z)
    (w w' : world) (resp : json) :
  well_formed (fs w) ->
  is_Some (UUID fresh) ->
  upload_file fresh filename body w = (inl resp, w') ->
  exists w'',
    list_files fresh w'
    = (inl (JObj [("unique_id", JStr fresh);
                  ("files",
                   JList [JObj [("name", JStr filename);
                                ("size", JNum (Z.of_nat (length body)));
                                ("type", JStr "file")]])]), w'').
Proof.
  intros Hwf [n Hn] Hup.
  destruct (upload_file_ok_state _ _ _ _ _ _ Hwf Hup)
    as (q & x & Hl & Hq & Hne & Hdir & Hnone & _ & Hfs & Hrw & Hrf & _).
  set (work := joinpath WORK_DIR fresh) in *.
  assert (Hqf : q ++ [filename] <> q).
  { intros E. apply (f_equal (@length string)) in E.
    rewrite length_app in E. cbn in E. lia. }
  assert (Hfw : follow (fs w') work = Some Dir).
  { unfold follow. rewrite Hrw, node_at_lookup by assumption.
    rewrite Hfs, lookup_insert_ne, Hdir by assumption. reflexivity. }
  assert (Hff : follow (fs w') (work ++ [filename]) = Some (File body x)).
  { unfold follow. rewrite Hrf, node_at_lookup by (now destruct q).
    rewrite Hfs, lookup_insert_eq. reflexivity. }
  assert (Hch : children (fs w') q work = [work ++ [filename]]).
  { apply (children_single _ _ _ _ (File body x)).
    - rewrite Hfs. apply lookup_insert_eq.
    - intros c Hc. rewrite Hfs, lookup_insert_ne
        by (intros [= ?]%app_inv_head; congruence).
      apply Hnone. }
  unfold list_files. rewrite Hn. cbv zeta. fold work.
  rewrite bind_run, path_exists_run, Hfw. cbn [negb].
  rewrite try_except_run, bind_run.
  rewrite (path_iterdir_run _ q) by assumption.
  rewrite bind_run.
  match goal with
  | |- context [mapM ?b ?items ?w1] =>
    destruct (list_loop_result items w1) as (w'' & Hrun & _)
  end.
  rewrite Hrun. cbn [fs add_log]. rewrite Hch. cbn [map].
  unfold list_entry. rewrite Hff, List.last_last. eexists. reflexivity.
Qed.

Lemma upload_then_list_witness :
  exists w'',
    list_files an_id (snd (upload_file an_id "chip.cha" [97; 32; 98] empty_world))
    = (inl (JObj [("unique_id", JStr an_id);
                  ("files",
                   JList [JObj [("name", JStr "chip.cha");
                                ("size", JNum (Z.of_nat (length [97; 32; 98])));
                                ("type", JStr "file")]])]), w'').
Proof.
  apply (upload_then_list an_id "chip.cha" [97; 32; 98] empty_world
           (snd (upload_file an_id "chip.cha" [97; 32; 98] empty_world))
           (JObj [("unique_id", JStr an_id);
                  ("filename", JStr "chip.cha");
                  ("size", JNum 3);
                  ("path", JStr "/webclan/work/123e4567-e89b-12d3-a456-426614174000/chip.cha")])).
  - intros k [x Hx]. cbn in Hx. rewrite lookup_empty in Hx. discriminate.
  - eexists. vm_compute. reflexivity.
  - rewrite (surjective_pairing (upload_file _ _ _ _)) at 1.
    f_equal; vm_compute; reflexivity.
Defined.

(** X19.  What a successful upload changes, in a well-formed file system:
    every entry that was there is kept as it was; what is new is the file,
    holding the bytes sent, in the place [q] the workspace path led to, and
    directories on the way down to [q]; the free space goes down by the
    size of the body and no process is touched. *)
Theorem upload_only_adds (fresh filename : string) (body : list Z)
    (w w' : world) (resp : json) :
  well_formed (fs w) ->
  upload_file fresh filename body w = (inl resp, w') ->
  exists q x,
    lrealpath (fs w) (joinpath WORK_DIR fresh) = Some q
    /\ fs w' !! (q ++ [filename]) = Some (File body x)
    /\ (forall k v, fs w !! k = Some v -> fs w' !! k = Some v)
    /\ (forall k v, fs w' !! k = Some v ->
          fs w !! k = Some v
          \/ (v = Dir /\ k `prefix_of` q)
          \/ k = q ++ [filename])
    /\ procs w' = procs w
    /\ disk_free w' = disk_free w - Z.of_nat (length body).
Proof.
  intros Hwf Hup.
  destruct (upload_file_ok_state _ _ _ _ _ _ Hwf Hup)
    as (q & x & Hl & Hq & Hne & Hdir & Hnone & _ & Hfs & _ & _ & Hp & Hd).
  exists q, x. split; [exact Hl|].
  split; [rewrite Hfs; apply lookup_insert_eq|].
  split; [|split; [|split; [exact Hp | exact Hd]]].
  - intros k v Hk. apply (make_dirs_keep (ancestors_and_self q)) in Hk.
    rewrite Hfs, lookup_insert_ne; [exact Hk|].
    intros <-. rewrite Hnone in Hk. discriminate Hk.
  - intros k v. rewrite Hfs.
    destruct (decide (q ++ [filename] = k)) as [<-|Hk]; [auto|].
    rewrite lookup_insert_ne by assumption.
    intros [H|(-> & Hin & _)]%make_dirs_new; [now left|].
    right. left. split; [reflexivity|].
    apply prefixes_from_parent in Hin as (_ & [t Ht] & _).
    exists t. exact Ht.
Qed.

Lemma upload_only_adds_witness :
  exists q x,
    lrealpath (fs base_world) (joinpath WORK_DIR an_id_without_hyphens) = Some q
    /\ fs (snd (upload_file an_id_without_hyphens "chip.cha" [97; 32; 98]
                  base_world)) !! (q ++ ["chip.cha"])
       = Some (File [97; 32; 98] x)
    /\ (forall k v,
          fs base_world !! k = Some v ->
          fs (snd (upload_file an_id_without_hyphens "chip.cha" [97; 32; 98]
                     base_world)) !! k = Some v)
    /\ (forall k v,
          fs (snd (upload_file an_id_without_hyphens "chip.cha" [97; 32; 98]
                     base_world)) !! k = Some v ->
          fs base_world !! k = Some v
          \/ (v = Dir /\ k `prefix_of` q)
          \/ k = q ++ ["chip.cha"])
    /\ procs (snd (upload_file an_id_without_hyphens "chip.cha" [97; 32; 98]
                     base_world)) = procs base_world
    /\ disk_free (snd (upload_file an_id_without_hyphens "chip.cha"
                         [97; 32; 98] base_world))
       = disk_free base_world - Z.of_nat (length [97; 32; 98]).
Proof.
  apply (upload_only_adds an_id_without_hyphens "chip.cha" [97; 32; 98]
           base_world
           (snd (upload_file an_id_without_hyphens "chip.cha" [97; 32; 98]
                   base_world))
           (JObj [("unique_id", JStr an_id_without_hyphens);
                  ("filename", JStr "chip.cha");
                  ("size", JNum 3);
                  ("path", JStr "/webclan/work/123e4567e89b12d3a456426614174000/chip.cha")])).
  - exact base_world_well_formed.
  - rewrite (surjective_pairing (upload_file _ _ _ _)) at 1.
    f_equal; vm_compute; reflexivity.
Defined.

Lemma upload_file_invalid_state (fresh filename : string) (body : list Z)
    (w : world) :
  validate_filename filename = false
  \/ MAX_FILE_SIZE < Z.of_nat (length body)
  \/ validate_file_content body = false ->
  snd (upload_file fresh filename body w) = w.
Proof.
  intros H. unfold upload_file.
  destruct (String.eqb filename "" || negb (validate_filename filename)) eqn:E1;
    [reflexivity|].
  apply orb_false_iff in E1 as [_ E1]. apply negb_false_iff in E1.
  destruct (Z.gtb_spec (Z.of_nat (length body)) MAX_FILE_SIZE); [reflexivity|].
  destruct (validate_file_content body) eqn:E3; cbn [negb]; [|reflexivity].
  destruct H as [H|[H|H]]; [congruence | lia | congruence].
Qed.

(** X20.  Upload keeps the file system well formed, whatever it answers:
    refused, workspace not made, write failed and rolled back, or stored. *)
Theorem upload_keeps_well_formed (fresh filename : string) (body : list Z)
    (w : world) :
  well_formed (fs w) ->
  well_formed (fs (snd (upload_file fresh filename body w))).
Proof.
  intros Hwf.
  destruct (validate_filename filename) eqn:Hf;
    [|rewrite upload_file_invalid_state by auto; exact Hwf].
  destruct (Z.le_gt_cases (Z.of_nat (length body)) MAX_FILE_SIZE) as [Hs|Hs];
    [|rewrite upload_file_invalid_state by auto; exact Hwf].
  destruct (validate_file_content body) eqn:Hc;
    [|rewrite upload_file_invalid_state by auto; exact Hwf].
  rewrite (upload_file_valid _ _ _ _ Hf Hs Hc).
  destruct (path_mkdir _ w) as [[[]|e] w1] eqn:Hmk.
  2: { apply path_mkdir_failed in Hmk.
       destruct e; cbn [snd]; rewrite Hmk; exact Hwf. }
  destruct (after_mkdir _ _ _ _ Hwf Hf Hmk)
    as (q & _ & _ & Hne & _ & _ & _ & Hwf1 & Hdir & Hnone & _ & Hfile & Hf1).
  rewrite Hfile.
  destruct (write_bytes _ body w1) as [r w2] eqn:Hwr.
  assert (Hwf2 : well_formed (fs w2)).
  { destruct (write_bytes_cases _ _ _ _ _ Hwr)
      as [(e' & _ & ->)|(t & stored & x & Ht & _ & _ & -> & _)];
      [exact Hwf1|].
    rewrite Hf1 in Ht. injection Ht as <-.
    apply insert_file_well_formed; [exact Hwf1 | exact Hne | exact Hdir |
                                    apply Hnone]. }
  destruct r as [[]|e]; cbn [snd]; [exact Hwf2|].
  destruct (shutil_rmtree_cases (joinpath WORK_DIR fresh) w2)
    as [->|(q' & Hq' & ->)]; [exact Hwf2|].
  apply remove_tree_well_formed; [|exact Hwf2].
  intros ->. destruct (Hwf2 []) as [Hn _]; [eauto | congruence].
Qed.

Lemma upload_keeps_well_formed_witness :
  well_formed (fs (snd (upload_file an_id_without_hyphens "chip.cha"
                          [97; 32; 98] base_world))).
Proof.
  apply (upload_keeps_well_formed an_id_without_hyphens "chip.cha"
           [97; 32; 98] base_world).
  exact base_world_well_formed.
Defined.

(* ===================================================================== *)
(** * The list of binaries *)
(* ===================================================================== *)









(** In that state the two executables, in order; the data file and the
    directory are left out. *)
Example binaries_of_bin_world :
  fst (list_binaries bin_world)
  = inl (JObj [("binaries", JList [JStr "freq"; JStr "kwal"])]).
Proof. vm_compute. reflexivity. Qed.



(* ===================================================================== *)
(** * The start of the server *)
(* ===================================================================== *)

(** X23.  When the module-level [WORK_DIR.mkdir(parents=True,
    exist_ok=True)] returns, the workspace root is a directory; every entry
    that was there is kept as it was, every new entry is a directory, and a
    well-formed file system stays well formed. *)
Theorem startup_makes_work_dir (w w' : world) :
  startup w = (inl tt, w') ->
  follow (fs w') WORK_DIR = Some Dir
  /\ (forall k v, fs w !! k = Some v -> fs w' !! k = Some v)
  /\ (forall k v, fs w' !! k = Some v -> fs w !! k = Some v \/ v = Dir)
  /\ (well_formed (fs w) -> well_formed (fs w')).
Proof.
  unfold startup, path_mkdir_exist_ok. rewrite try_except_run.
  destruct (path_mkdir WORK_DIR w) as [[[]|e] w1] eqn:Hmk.
  - intros H. outcome H. subst w'. clear H Hfst.
    destruct (path_mkdir_ok_dirs _ _ _ Hmk) as (q & Hl & Hq & Hall & ->).
    destruct (made_directory _ _ _ Hl Hq) as (Hne & Hdir & Hres & _).
    cbn [fs set_fs add_log].
    split; [|split; [|split]].
    + unfold follow. rewrite (lrealpath_to_realpath _ _ q).
      * rewrite node_at_lookup by exact Hne. now rewrite Hdir.
      * rewrite <- (proj2 (realpath_ext _ _ WORK_DIR Hres)). exact Hl.
      * rewrite Hdir. discriminate.
    + intros k v. apply make_dirs_keep.
    + intros k v [H|(-> & _)]%make_dirs_new; [now left | now right].
    + intros Hwf. now apply make_dirs_well_formed.
  - apply path_mkdir_failed in Hmk. rewrite bind_run.
    unfold path_is_dir. unfold_os. rewrite Hmk.
    destruct (follow (fs w) WORK_DIR) as [[]|] eqn:Ef;
      intros H; outcome H. subst w'. cbn [fs add_log]. rewrite Hmk.
    split; [exact Ef|]. split; [auto|]. split; [auto|]. auto.
Qed.

Lemma startup_makes_work_dir_witness :
  follow (fs (snd (startup empty_world))) WORK_DIR = Some Dir
  /\ (forall k v,
        fs empty_world !! k = Some v ->
        fs (snd (startup empty_world)) !! k = Some v)
  /\ (forall k v,
        fs (snd (startup empty_world)) !! k = Some v ->
        fs empty_world !! k = Some v \/ v = Dir)
  /\ (well_formed (fs empty_world) ->
      well_formed (fs (snd (startup empty_world)))).
Proof.
  apply (startup_makes_work_dir empty_world (snd (startup empty_world))).
  rewrite (surjective_pairing (startup empty_world)) at 1.
  f_equal; vm_compute; reflexivity.
Defined.

(* ===================================================================== *)
(** * What content validation accepts *)
(* ===================================================================== *)

Lemma digits64 (c : Z) : 0 <= c mod 64 < 64 /\ c = 64 * (c / 64) + c mod 64.
Proof. split; [apply Z.mod_pos_bound; lia | apply Z.div_mod; lia]. Qed.

Lemma div_4096 (c : Z) : c / 4096 = c / 64 / 64.
Proof. rewrite Z.div_div by lia. reflexivity. Qed.

Lemma div_262144 (c : Z) : c / 262144 = c / 64 / 64 / 64.
Proof. rewrite !Z.div_div by lia. reflexivity. Qed.

(** Decides the comparisons of the goal by linear arithmetic. *)
Ltac byte_tests :=
  repeat match goal with
         | |- context [?a <=? ?b] =>
           first [ rewrite (proj2 (Z.leb_le a b)) by lia
                 | rewrite (proj2 (Z.leb_gt a b)) by lia ]
         | |- context [?a <? ?b] =>
           first [ rewrite (proj2 (Z.ltb_lt a b)) by lia
                 | rewrite (proj2 (Z.ltb_ge a b)) by lia ]
         | |- context [?a =? ?b] =>
           first [ rewrite (proj2 (Z.eqb_neq a b)) by lia
                 | rewrite (proj2 (Z.eqb_eq a b)) by lia ]
         end;
  repeat match goal with
         | |- context [?a <=? ?b] =>
           destruct (Z.leb_spec a b); try (exfalso; lia)
         | |- context [?a =? ?b] =>
           destruct (Z.eqb_spec a b); try (exfalso; lia)
         end;
  cbn [andb orb negb].

Lemma utf8_decode_encode_char (c : Z) (rest : list Z) :
  scalar c = true ->
  utf8_decode (utf8_encode_char c ++ rest) = cons c <$> utf8_decode rest.
Proof.
  unfold scalar, utf8_encode_char. intros Hc.
  assert (Hr : 0 <= c < 0xD800 \/ 0xE000 <= c <= 0x10FFFF) by lia. clear Hc.
  rewrite div_262144, !div_4096.
  pose proof (digits64 c) as [B0 E0].
  pose proof (digits64 (c / 64)) as [B1 E1].
  pose proof (digits64 (c / 64 / 64)) as [B2 E2].
  revert B0 E0 B1 E1 B2 E2.
  generalize (c / 64 / 64 mod 64). generalize (c / 64 / 64 / 64).
  generalize (c / 64 mod 64). generalize (c / 64 / 64).
  generalize (c mod 64). generalize (c / 64).
  intros d1 r0 d2 r1 d3 r2 B0 E0 B1 E1 B2 E2.
  destruct (Z.ltb_spec c 0x80); [|destruct (Z.ltb_spec c 0x800);
                                  [|destruct (Z.ltb_spec c 0x10000)]];
    cbn [app utf8_decode]; unfold cont; byte_tests;
    (destruct (utf8_decode rest); [|reflexivity]); cbn;
    do 2 f_equal; lia.
Qed.

Lemma utf8_decode_encode_text (text : list Z) :
  forallb scalar text = true -> utf8_decode (utf8_encode text) = Some text.
Proof.
  induction text as [|c text IH]; [reflexivity|].
  cbn [forallb]. intros [Hc Ht]%andb_true_iff.
  unfold utf8_encode. cbn [map concat].
  rewrite utf8_decode_encode_char by exact Hc.
  fold (utf8_encode text). now rewrite IH.
Qed.

Lemma utf8_decode_scalar (bs text : list Z) :
  utf8_decode bs = Some text -> forallb scalar text = true.
Proof.
  assert (H : forall n bs text, (length bs <= n)%nat ->
                utf8_decode bs = Some text -> forallb scalar text = true).
  { clear bs text. induction n as [|n IH]; intros [|b0 r1] text Hlen;
      cbn [utf8_decode length] in *; try (intros [= <-]; reflexivity);
      try lia.
    unfold cont.
    destruct ((0 <=? b0) && (b0 <? 0x80)) eqn:E1.
    { destruct (utf8_decode r1) as [t'|] eqn:Er; [|discriminate].
      intros [= <-]. cbn [forallb]. apply andb_true_iff. split.
      - unfold scalar. lia.
      - apply (IH r1); [lia | exact Er]. }
    destruct ((0xC2 <=? b0) && (b0 <=? 0xDF)) eqn:E2.
    { destruct r1 as [|b1 r2]; [discriminate|].
      destruct ((0x80 <=? b1) && (b1 <=? 0xBF)) eqn:C1; [|discriminate].
      destruct (utf8_decode r2) as [t'|] eqn:Er; [|discriminate].
      intros [= <-]. cbn [forallb]. apply andb_true_iff. split.
      - unfold scalar. lia.
      - apply (IH r2); [cbn [length] in Hlen; lia | exact Er]. }
    destruct ((0xE0 <=? b0) && (b0 <=? 0xEF)) eqn:E3.
    { destruct r1 as [|b1 [|b2 r3]]; try discriminate.
      match goal with
      | |- (if ?b then _ else _) = _ -> _ => destruct b eqn:C; [|discriminate]
      end.
      destruct (utf8_decode r3) as [t'|] eqn:Er; [|discriminate].
      intros [= <-]. cbn [forallb]. apply andb_true_iff. split.
      - unfold scalar. lia.
      - apply (IH r3); [cbn [length] in Hlen; lia | exact Er]. }
    destruct ((0xF0 <=? b0) && (b0 <=? 0xF4)) eqn:E4; [|discriminate].
    destruct r1 as [|b1 [|b2 [|b3 r4]]]; try discriminate.
    match goal with
    | |- (if ?b then _ else _) = _ -> _ => destruct b eqn:C; [|discriminate]
    end.
    destruct (utf8_decode r4) as [t'|] eqn:Er; [|discriminate].
    intros [= <-]. cbn [forallb]. apply andb_true_iff. split.
    - unfold scalar. lia.
    - apply (IH r4); [cbn [length] in Hlen; lia | exact Er]. }
  apply (H (length bs)). lia.
Qed.

(** X24.  Content validation accepts exactly the UTF-8 encodings of texts:
    a body passes if and only if it is the encoding of some sequence of
    Unicode scalar values (code points that are not surrogates).  So no
    text is refused, and every accepted body has one reading. *)
Theorem content_validation_is_utf8 (body : list Z) :
  validate_file_content body = true
  <-> exists text, forallb scalar text = true /\ utf8_encode text = body.
Proof.
  unfold validate_file_content. split.
  - destruct (utf8_decode body) as [text|] eqn:Hdec; [|discriminate].
    intros _. exists text. split.
    + exact (utf8_decode_scalar _ _ Hdec).
    + exact (proj1 (utf8_decode_encode _ _ Hdec)).
  - intros (text & Hs & <-). now rewrite utf8_decode_encode_text.
Qed.

(* ===================================================================== *)
(** * After a destroy *)
(* ===================================================================== *)

(** X25.  Once destroy has answered "Workspace deleted" for an identifier,
    the workspace is gone for the other operations too: list answers 404,
    execute answers 404 and starts nothing, and no read returns content. *)
Theorem destroyed_workspace_is_gone (id : string) (w w1 : world) (body : json) :
  cleanup_workspace id w = (inl body, w1) ->
  fst (list_files id w1) = inr (HTTPException 404 "Workspace not found")
  /\ (forall request,
        unique_id request = id ->
        fst (execute_command request w1)
        = inr (HTTPException 404 "Workspace not found")
        /\ spawns (log (snd (execute_command request w1))) = spawns (log w1))
  /\ (forall filename,
        status_of (fst (download_file id filename w1)) = 400
        \/ fst (download_file id filename w1)
           = inr (HTTPException 404 "Workspace not found")).
Proof.
  intros Hrun.
  destruct (cleanup_cases _ _ _ _ Hrun)
    as (_ & _ & [(q & _ & Hid & Hl & _ & Hfs)|(_ & s & d & Hr & _)]);
    [|discriminate Hr].
  assert (Hgone : follow (fs w1) (joinpath WORK_DIR id) = None).
  { rewrite Hfs. apply follow_after_rmtree; [|exact Hl].
    now apply workspace_path_nonempty. }
  destruct Hid as [n Hn]. split; [|split].
  - unfold list_files. rewrite Hn. unfold_os. rewrite Hgone. reflexivity.
  - intros request <-.
    assert (Hex : execute_command request w1
                  = (inr (HTTPException 404 "Workspace not found"),
                     add_log (FsCall "stat" (joinpath WORK_DIR (unique_id request)))
                       w1)).
    { unfold execute_command. unfold_os. rewrite Hgone. reflexivity. }
    rewrite Hex. split; [reflexivity|]. cbn [snd log add_log].
    rewrite spawns_app. apply app_nil_r.
  - intros filename. unfold download_file. rewrite Hn.
    destruct (char_in "/" filename || char_in "092" filename
              || str_in ".." filename); [now left|].
    destruct (negb (re_match_class_plus filename_class filename));
      [now left|].
    right. unfold_os. rewrite Hgone. reflexivity.
Qed.

Lemma destroyed_workspace_is_gone_witness :
  fst (list_files an_id (snd (cleanup_workspace an_id base_world)))
  = inr (HTTPException 404 "Workspace not found")
  /\ (forall request,
        unique_id request = an_id ->
        fst (execute_command request (snd (cleanup_workspace an_id base_world)))
        = inr (HTTPException 404 "Workspace not found")
        /\ spawns (log (snd (execute_command request
                               (snd (cleanup_workspace an_id base_world)))))
           = spawns (log (snd (cleanup_workspace an_id base_world))))
  /\ (forall filename,
        status_of (fst (download_file an_id filename
                          (snd (cleanup_workspace an_id base_world)))) = 400
        \/ fst (download_file an_id filename
                  (snd (cleanup_workspace an_id base_world)))
           = inr (HTTPException 404 "Workspace not found")).
Proof.
  apply (destroyed_workspace_is_gone an_id base_world
           (snd (cleanup_workspace an_id base_world))
           (JObj [("message", JStr "Workspace deleted");
                  ("unique_id", JStr an_id)])).
  rewrite (surjective_pairing (cleanup_workspace an_id base_world)) at 1.
  f_equal; vm_compute; reflexivity.
Defined.
